(** * pyblaze.multiprocessing.vectorize: the Vectorizer

    A shallow embedding of [src/pyblaze/multiprocessing/vectorize.py] and the
    properties of its three execution modes (sequential, batches, consumers).

    Python values are a small inductive type, the user's functions are Rocq
    functions over it, and every call that has an effect (an invocation of the
    user's functions, a process start, a queue operation of the main thread)
    is recorded in a trace of events.  The order in which worker processes
    answer is not fixed by the program: the consumer mode takes it from a
    scheduler, and the theorems quantify over all schedulers.

    The worker function may raise or never come back; the init function and
    the callback are taken to return.  A worker process in which the worker
    function raises ends there, as any Python process does on an uncaught
    exception, and puts nothing more on its queues.  The events of a batch
    worker are placed in the trace where its process is started: this is
    one of the possible interleavings, and the statements about traces only
    speak of what does not depend on the interleaving (the events of one
    rank in their order, counts, and the events of the main thread).

    The training callbacks of [src/pyblaze/nn/callbacks] (early stopping
    and the two schedulers) follow in modules of their own: a callback is
    a record of its attributes, and a hook takes the record and gives the
    record it leaves behind together with the exception it raised, if
    any. *)

From Stdlib Require Import ZArith List Lia Permutation Sorted.
From stdpp Require Import base tactics list numbers sets sorting strings
  gmap.
Import ListNotations.
Local Open Scope Z_scope.
Set Warnings "-register-all,-clear-no-such-hyp".

(** ** Python values, exceptions and outcomes *)

Inductive pyval : Type :=
| PNone
| PInt (z : Z)
| PStr (s : string)
| PTuple (elts : list pyval).

Inductive exn : Type :=
| IndexError
| ValueError
| TypeError
| UserError (msg : string).

(** What a call does: it returns, it raises, or it never comes back (a
    blocking [Queue.get] that no process will ever answer). *)
Inductive outcome (A : Type) : Type :=
| Returned (a : A)
| Raised (e : exn)
| Blocked.
Arguments Returned {A} a.
Arguments Raised {A} e.
Arguments Blocked {A}.

Definition is_returned {A} (o : outcome A) : bool :=
  match o with Returned _ => true | _ => false end.

(** ** Events *)

Inductive event : Type :=
| EInit (rank : Z)                                     (* worker_init(rank, **kwargs) *)
| ECall (rank : Z) (item : pyval) (args : list pyval)  (* worker_func(item, *args) *)
| ETick (rank : Z)                                     (* tick_queue.put(None) *)
| ECallback                                            (* callback_func() *)
| ESpawn (rank : Z)                                    (* process.start() *)
| EPut (index : Z)                                     (* push_queue.put((index, item)) *)
| EGet (index : Z)                                     (* pull_queue.get() gave (index, _) *)
| ESentinel                                            (* push_queue.put(None) *)
| EDone                                                (* done.set() *)
| ETerminate (rank : Z).                               (* terminate(process) *)

Definition is_callback (e : event) : bool :=
  match e with ECallback => true | _ => false end.
Definition is_tick (e : event) : bool :=
  match e with ETick _ => true | _ => false end.
Definition is_put (e : event) : bool :=
  match e with EPut _ => true | _ => false end.
Definition is_get (e : event) : bool :=
  match e with EGet _ => true | _ => false end.

Definition count (p : event -> bool) (tr : list event) : nat :=
  length (List.filter p tr).

(** The ranks with which the init function was called, in trace order. *)
Fixpoint init_ranks (tr : list event) : list Z :=
  match tr with
  | [] => []
  | EInit r :: tr' => r :: init_ranks tr'
  | _ :: tr' => init_ranks tr'
  end.

(** The ranks of the processes started, in trace order. *)
Fixpoint spawned_ranks (tr : list event) : list Z :=
  match tr with
  | [] => []
  | ESpawn r :: tr' => r :: spawned_ranks tr'
  | _ :: tr' => spawned_ranks tr'
  end.

(** The ranks of the processes terminated, in trace order. *)
Fixpoint terminated_ranks (tr : list event) : list Z :=
  match tr with
  | [] => []
  | ETerminate r :: tr' => r :: terminated_ranks tr'
  | _ :: tr' => terminated_ranks tr'
  end.

(** Items dispatched by the main thread whose result it has not received. *)
Definition in_flight (tr : list event) : Z :=
  Z.of_nat (count is_put tr) - Z.of_nat (count is_get tr).

(** ** The user's functions *)

Definition kwargs : Type := list (string * pyval).

(** [worker_func(item, *args)]: it may raise. *)
Definition worker_fn : Type := pyval -> list pyval -> outcome pyval.
(** [worker_init(rank, **kwargs)]. *)
Definition init_fn : Type := Z -> kwargs -> pyval.

(** ** Module-level helpers *)

(** [range(n)]: empty when [n <= 0]. *)
Definition range (n : Z) : list Z := seqZ 0 n.

Definition _init_if_needed (init : option init_fn) (rank : Z) (kw : kwargs)
  : pyval * list event :=
  match init with
  | None => (PNone, [])
  | Some f => (f rank kw, [EInit rank])
  end.

Definition _combine_args (a : list pyval) (b : pyval) : list pyval :=
  match b with
  | PNone => a
  | PTuple t => a ++ t
  | _ => a ++ [b]
  end.

(** The merged arguments of the worker of a given rank. *)
Definition all_args_of (init : option init_fn) (kw : kwargs) (args : list pyval)
  (rank : Z) : list pyval :=
  _combine_args args (fst (_init_if_needed init rank kw)).

(** ** A small monad: an outcome together with the events emitted *)

Definition eff (A : Type) : Type := (outcome A * list event)%type.

Definition ret {A} (a : A) : eff A := (Returned a, []).
Definition raise {A} (e : exn) : eff A := (Raised e, []).
Definition block {A} : eff A := (Blocked, []).
Definition emit (evs : list event) : eff unit := (Returned tt, evs).

Definition bind {A B} (m : eff A) (k : A -> eff B) : eff B :=
  match m with
  | (Returned a, tr) => let '(o, tr') := k a in (o, tr ++ tr')
  | (Raised e, tr) => (Raised e, tr)
  | (Blocked, tr) => (Blocked, tr)
  end.

Notation "'let*' x ':=' m 'in' k" := (bind m (fun x => k))
  (at level 10, x name, m at level 100, k at level 200, only parsing).
Notation "m ;;; k" := (bind m (fun _ => k))
  (at level 100, k at level 200, right associativity, only parsing).

(** ** The Vectorizer object *)

(** The shutdown action recorded for a run: a [functools.partial] over the
    processes of that run (named here by their ranks). *)
Inductive shutdown : Type :=
| ShutdownBatches (processes : list Z)
| ShutdownConsumers (processes : list Z).

Record Vectorizer : Type := {
  num_workers : Z;
  worker_func : worker_fn;
  worker_init : option init_fn;
  callback_func : option unit;
  init_kwargs : kwargs;
  _shutdown_fn : option shutdown
}.

(** [Vectorizer.__init__]; [cpu_count] is what [os.cpu_count()] answers. *)
Definition __init__ (cpu_count : Z) (worker_func : worker_fn)
  (worker_init : option init_fn) (callback_func : option unit)
  (num_workers : Z) (kw : kwargs) : Vectorizer :=
  {| num_workers := if num_workers =? -1 then cpu_count else num_workers;
     worker_func := worker_func;
     worker_init := worker_init;
     callback_func := callback_func;
     init_kwargs := kw;
     _shutdown_fn := None |}.

(** [self._shutdown_fn = fn] *)
Definition set_shutdown (fn : option shutdown) (self : Vectorizer) : Vectorizer :=
  {| num_workers := num_workers self;
     worker_func := worker_func self;
     worker_init := worker_init self;
     callback_func := callback_func self;
     init_kwargs := init_kwargs self;
     _shutdown_fn := fn |}.

(** What a method leaves behind: its outcome, the object, the events. *)
Record run (A : Type) : Type := Run {
  out : outcome A;
  obj : Vectorizer;
  log : list event
}.
Arguments Run {A} out obj log.
Arguments out {A} r.
Arguments obj {A} r.
Arguments log {A} r.

(** [if self.callback_func is not None: self.callback_func()] *)
Definition call_callback (self : Vectorizer) : eff unit :=
  match callback_func self with
  | Some _ => emit [ECallback]
  | None => ret tt
  end.

(** Modelled from the spec: [pyblaze.utils.stdmp.terminate] is not among the
    sources; the spec has every worker of the run stopped by the shutdown
    action, so [terminate] stops each process it is given. *)
Definition terminate (processes : list Z) : list event :=
  map ETerminate processes.

Definition _shutdown_batches (processes : list Z) : list event :=
  EDone :: terminate processes.

Definition _shutdown_consumers (processes : list Z) : list event :=
  map (fun _ => ESentinel) processes ++ terminate processes.

Definition call_shutdown (fn : shutdown) : list event :=
  match fn with
  | ShutdownBatches processes => _shutdown_batches processes
  | ShutdownConsumers processes => _shutdown_consumers processes
  end.

(** [Vectorizer.__del__] *)
Definition __del__ (self : Vectorizer) : list event :=
  match _shutdown_fn self with
  | Some fn => call_shutdown fn
  | None => []
  end.

(** ** The item loop

    [for item in items: result.append(worker_func(item, *all_args))], with
    the tick of [_batch_worker] when there is a tick queue.  The sequential
    branch of [process] is the same loop without a tick queue, run by the
    main thread as rank 0. *)
Fixpoint run_items (tick_queue : bool) (rank : Z) (f : worker_fn)
  (all_args : list pyval) (items : list pyval) : eff (list pyval) :=
  match items with
  | [] => ret []
  | item :: rest =>
      emit [ECall rank item all_args] ;;;
      match f item all_args with
      | Returned v =>
          emit (if tick_queue then [ETick rank] else []) ;;;
          let* vs := run_items tick_queue rank f all_args rest in
          ret (v :: vs)
      | Raised e => raise e
      | Blocked => block
      end
  end.

(** [_batch_worker]: what it puts on its queue, if it gets that far. *)
Definition _batch_worker (tick_queue : bool) (rank : Z) (f : worker_fn)
  (init : option init_fn) (kw : kwargs) (items : list pyval)
  (args : list pyval) : eff (list pyval) :=
  let '(init_v, tr0) := _init_if_needed init rank kw in
  let all_args := _combine_args args init_v in
  emit tr0 ;;;
  run_items tick_queue rank f all_args items.

(** ** numpy, as far as [_process_batches] uses it *)

(** [np.arange(n)] *)
Definition arange (n : Z) : list Z := seqZ 0 n.

(** Consecutive sections of the given sizes. *)
Fixpoint chunks {A} (sizes : list nat) (ary : list A) : list (list A) :=
  match sizes with
  | [] => []
  | k :: sizes' => take k ary :: chunks sizes' (drop k ary)
  end.

(** The section sizes of [np.array_split]: for an array of length [n] split
    into [k] sections, [n % k] sections of size [n // k + 1] followed by the
    rest of size [n // k]. *)
Definition section_sizes (n k : nat) : list nat :=
  replicate (n mod k)%nat (S (n / k)) ++ replicate (k - n mod k)%nat (n / k)%nat.

(** [np.array_split(ary, sections)] for an integer number of sections; numpy
    raises [ValueError] unless the number of sections is larger than 0. *)
Definition array_split (ary : list Z) (sections : Z) : outcome (list (list Z)) :=
  if sections <=? 0 then Raised ValueError
  else Returned (chunks (section_sizes (length ary) (Z.to_nat sections)) ary).

(** [[a[-1] + 1 for a in splits]]: indexing an empty array raises. *)
Fixpoint last_plus_one (splits : list (list Z)) : outcome (list Z) :=
  match splits with
  | [] => Returned []
  | a :: splits' =>
      match last a with
      | None => Raised IndexError
      | Some x =>
          match last_plus_one splits' with
          | Returned bs => Returned (x + 1 :: bs)
          | o => o
          end
      end
  end.

(** Lines 86-87 of [_process_batches]: the shard boundaries. *)
Definition batch_splits (num_items : Z) (num_workers : Z) : outcome (list Z) :=
  match array_split (arange num_items) num_workers with
  | Returned splits =>
      match last_plus_one splits with
      | Returned bs => Returned (0 :: bs)
      | Raised e => Raised e
      | Blocked => Blocked
      end
  | Raised e => Raised e
  | Blocked => Blocked
  end.

(** [items[lo:hi]] for bounds that are not negative (the boundaries are). *)
Definition slice {A} (items : list A) (lo hi : Z) : list A :=
  take (Z.to_nat hi - Z.to_nat lo) (drop (Z.to_nat lo) items).

(** [splits[i]] for an index that is not negative. *)
Definition index_list (splits : list Z) (i : Z) : eff Z :=
  match splits !! Z.to_nat i with
  | Some x => ret x
  | None => raise IndexError
  end.

(** ** Batches: one shard per worker *)

(** The loop of lines 99-113 over the ranks still to start.  A started
    worker runs [_batch_worker] on its shard; its queue holds the bundle it
    puts, or stays empty for ever when it does not get that far. *)
Fixpoint spawn_batches (self : Vectorizer) (splits : list Z) (items args : list pyval)
  (ranks : list Z) : eff (list (option (list pyval))) :=
  match ranks with
  | [] => ret []
  | i :: ranks' =>
      let* lo := index_list splits i in
      let* hi := index_list splits (i + 1) in
      emit [ESpawn i] ;;;
      let '(o, tr) :=
        _batch_worker (bool_decide (is_Some (callback_func self))) i
          (worker_func self) (worker_init self) (init_kwargs self)
          (slice items lo hi) args in
      emit tr ;;;
      let* queues := spawn_batches self splits items args ranks' in
      ret (match o with Returned bundle => Some bundle | _ => None end :: queues)
  end.

(** Lines 120-122: [n] times, take a tick and call the callback; [ticks] is
    how many ticks the workers put in all. *)
Fixpoint tick_loop (n ticks : nat) : eff unit :=
  match n with
  | O => ret tt
  | S n' =>
      match ticks with
      | O => block
      | S ticks' => emit [ECallback] ;;; tick_loop n' ticks'
      end
  end.

(** Lines 124-126: [result.extend(q.get())] for each queue in rank order. *)
Fixpoint gather (queues : list (option (list pyval))) : eff (list pyval) :=
  match queues with
  | [] => ret []
  | None :: _ => block
  | Some bundle :: queues' =>
      let* result := gather queues' in
      ret (bundle ++ result)
  end.

Definition lift {A} (self : Vectorizer) (m : eff A) : run A :=
  Run (fst m) self (snd m).

Definition _process_batches (self : Vectorizer) (items args : list pyval)
  : run (list pyval) :=
  let num_items := Z.of_nat (length items) in
  match batch_splits num_items (num_workers self) with
  | Raised e => Run (Raised e) self []
  | Blocked => Run Blocked self []
  | Returned splits =>
      let processes := range (num_workers self) in
      match spawn_batches self splits items args processes with
      | (Returned queues, tr) =>
          let self' := set_shutdown (Some (ShutdownBatches processes)) self in
          lift self'
            (emit tr ;;;
             match callback_func self with
             | Some _ => tick_loop (length items) (count is_tick tr)
             | None => ret tt
             end ;;;
             gather queues)
      | (Raised e, tr) => Run (Raised e) self tr
      | (Blocked, tr) => Run Blocked self tr
      end
  end.

(** ** Consumers: workers pull items from a shared queue *)

(** The order in which results arrive on [pull_queue] is not decided by the
    program.  A scheduler decides, at each answer, which of the dispatched
    items is finished next and which of the live workers took it. *)
Record sched : Type := {
  next_item : nat -> nat;
  next_worker : nat -> nat
}.

(** The worker side of the two queues: the items put on [push_queue] whose
    result did not yet come back, the workers still running
    [_consumer_worker], and the number of scheduling decisions taken. *)
Record pool : Type := {
  inflight : list (Z * pyval);
  live : list Z;
  clock : nat
}.

(** [push_queue.put((index, item))] *)
Definition push (x : Z * pyval) (p : pool) : pool :=
  {| inflight := inflight p ++ [x]; live := live p; clock := clock p |}.

(** One round of the loop of [_consumer_worker] (lines 228-236) in the
    worker of the given rank, on the message [(idx, item)] it has taken from
    its queue: the message it puts on the result queue.  The init call of
    the worker (lines 224-225) is made when its process starts, see
    [spawn_consumers]; its merged arguments are [all_args_of] its rank. *)
Definition _consumer_worker (self : Vectorizer) (args : list pyval) (rank : Z)
  (msg : Z * pyval) : eff (Z * pyval) :=
  let '(idx, item) := msg in
  let all_args := all_args_of (worker_init self) (init_kwargs self) args rank in
  emit [ECall rank item all_args] ;;;
  match worker_func self item all_args with
  | Returned v => ret (idx, v)
  | Raised e => raise e
  | Blocked => block
  end.

(** [pull_queue.get()] by the main thread.  Some live worker has taken some
    dispatched item through a round of its loop.  A worker in which
    [worker_func] does not return puts nothing and takes no further item;
    the main thread keeps waiting for another answer.  With nothing
    dispatched or no worker left, the wait never ends.  At most
    [length (inflight p)] items can be tried, which is the [fuel] given. *)
Fixpoint pull_get (self : Vectorizer) (args : list pyval) (s : sched)
  (fuel : nat) (p : pool) : eff ((Z * pyval) * pool) :=
  match fuel with
  | O => block
  | S fuel' =>
      let i := (next_item s (clock p) mod length (inflight p))%nat in
      let j := (next_worker s (clock p) mod length (live p))%nat in
      match inflight p !! i, live p !! j with
      | Some msg, Some r =>
          match _consumer_worker self args r msg with
          | (Returned res, tr) =>
              emit tr ;;;
              emit [EGet (fst res)] ;;;
              ret (res,
                   {| inflight := delete i (inflight p);
                      live := live p;
                      clock := S (clock p) |})
          | (_, tr) =>
              emit tr ;;;
              pull_get self args s fuel'
                {| inflight := delete i (inflight p);
                   live := delete j (live p);
                   clock := S (clock p) |}
          end
      | _, _ => block
      end
  end.

Definition get (self : Vectorizer) (args : list pyval) (s : sched) (p : pool)
  : eff ((Z * pyval) * pool) :=
  pull_get self args s (length (inflight p)) p.

(** Lines 141-150: start the workers; each one begins with [_init_if_needed]. *)
Fixpoint spawn_consumers (self : Vectorizer) (ranks : list Z) : list event :=
  match ranks with
  | [] => []
  | i :: ranks' =>
      ESpawn i :: snd (_init_if_needed (worker_init self) i (init_kwargs self))
        ++ spawn_consumers self ranks'
  end.

(** The local variables of [_process_consumers] together with the iterator
    (the items it has not yielded yet) and the worker side. *)
Record locals : Type := {
  iterator : list pyval;
  index : Z;
  expect : Z;
  result : list (Z * pyval);
  workers : pool
}.

(** Lines 160-165, [n] rounds: the answer says whether [next(iterator)]
    raised [StopIteration]. *)
Fixpoint prime (n : nat) (st : locals) : eff (locals * bool) :=
  match n with
  | O => ret (st, false)
  | S n' =>
      match iterator st with
      | [] => ret (st, true)
      | item :: rest =>
          emit [EPut (index st)] ;;;
          prime n'
            {| iterator := rest;
               index := index st + 1;
               expect := expect st + 1;
               result := result st;
               workers := push (index st, item) (workers st) |}
      end
  end.

(** Lines 167-176, the [while True] loop, left through [StopIteration].  Each
    round takes one item from the iterator, so the loop is a recursion on
    the items the iterator still holds. *)
Fixpoint pump (self : Vectorizer) (args : list pyval) (s : sched)
  (rest : list pyval) (index expect : Z) (result : list (Z * pyval))
  (p : pool) : eff locals :=
  let* got := get self args s p in
  call_callback self ;;;
  match rest with
  | [] =>
      ret {| iterator := []; index := index; expect := expect - 1;
             result := result ++ [fst got]; workers := snd got |}
  | item :: rest' =>
      emit [EPut index] ;;;
      pump self args s rest' (index + 1) (expect - 1 + 1)
        (result ++ [fst got]) (push (index, item) (snd got))
  end.

(** Lines 179-182, the handler of [StopIteration], [n] rounds. *)
Fixpoint drain (self : Vectorizer) (args : list pyval) (s : sched) (n : nat)
  (result : list (Z * pyval)) (p : pool) : eff (list (Z * pyval)) :=
  match n with
  | O => ret result
  | S n' =>
      let* got := get self args s p in
      call_callback self ;;;
      drain self args s n' (result ++ [fst got]) (snd got)
  end.

(** [sorted(result, key=lambda r: r[0])]: a stable sort, as an insertion
    sort that puts an element before the later ones of the same key. *)
Fixpoint insert_by_key (x : Z * pyval) (l : list (Z * pyval)) : list (Z * pyval) :=
  match l with
  | [] => [x]
  | y :: l' => if fst x <=? fst y then x :: y :: l' else y :: insert_by_key x l'
  end.

Fixpoint sorted_by_key (l : list (Z * pyval)) : list (Z * pyval) :=
  match l with
  | [] => []
  | x :: l' => insert_by_key x (sorted_by_key l')
  end.

(** Lines 156-184: the main thread once the workers are started. *)
Definition dispatch (self : Vectorizer) (items args : list pyval) (s : sched)
  : eff (list pyval) :=
  let* primed :=
    prime (Z.to_nat (num_workers self))
      {| iterator := items; index := 0; expect := 0; result := [];
         workers := {| inflight := []; live := range (num_workers self);
                       clock := O |} |} in
  let* st :=
    (if snd primed then ret (fst primed)
     else
       let st := fst primed in
       pump self args s (iterator st) (index st) (expect st) (result st)
         (workers st)) in
  let* result :=
    drain self args s (Z.to_nat (expect st)) (result st) (workers st) in
  ret (map snd (sorted_by_key result)).

Definition _process_consumers (self : Vectorizer) (items args : list pyval)
  (s : sched) : run (list pyval) :=
  let processes := range (num_workers self) in
  let self' := set_shutdown (Some (ShutdownConsumers processes)) self in
  lift self'
    (emit (spawn_consumers self processes) ;;;
     dispatch self items args s).

(** ** process *)

(** The input: something with [__getitem__] (and a length), or an iterable
    that has none. *)
Inductive iterable : Type :=
| Indexable (items : list pyval)
| Stream (items : list pyval).

Definition contents (items : iterable) : list pyval :=
  match items with Indexable l => l | Stream l => l end.

Definition process (self : Vectorizer) (items : iterable) (args : list pyval)
  (s : sched) : run (list pyval) :=
  if num_workers self =? 0 then
    let '(init, tr0) := _init_if_needed (worker_init self) 0 (init_kwargs self) in
    let all_args := _combine_args args init in
    lift self
      (emit tr0 ;;;
       run_items false 0 (worker_func self) all_args (contents items))
  else
    let r :=
      match items with
      | Indexable l => _process_batches self l args
      | Stream l => _process_consumers self l args s
      end in
    match out r with
    | Returned result =>
        match _shutdown_fn (obj r) with
        | Some fn =>
            Run (Returned result) (set_shutdown None (obj r))
              (log r ++ call_shutdown fn)
        | None => Run (Raised TypeError) (obj r) (log r)
        end
    | _ => r
    end.

(** ** Definitions used by the statements *)

Fixpoint pysize (v : pyval) : nat :=
  match v with
  | PTuple elts => S (list_sum (map pysize elts))
  | _ => 1%nat
  end.

(** The trailing arguments that an init value stands for, in the words of
    the spec: nothing for [None], the elements of a tuple, the value itself
    otherwise. *)
Definition init_derived (b : pyval) : list pyval :=
  match b with
  | PNone => []
  | PTuple t => t
  | v => [v]
  end.

(** The init-derived arguments of the worker of a given rank. *)
Definition derived_of (self : Vectorizer) (rank : Z) : list pyval :=
  match worker_init self with
  | None => []
  | Some f => init_derived (f rank (init_kwargs self))
  end.

(** Every call of [worker_func] in the trace has, after the item, the
    call-site arguments followed by the init-derived arguments of its rank. *)
Definition call_args_merged (self : Vectorizer) (args : list pyval) (e : event) : Prop :=
  match e with
  | ECall r _ a => a = args ++ derived_of self r
  | _ => True
  end.

(** Every call of the worker function by a rank comes after the init call
    of that rank. *)
Definition init_before_calls (tr : list event) : Prop :=
  forall t1 r item a t2,
    tr = t1 ++ ECall r item a :: t2 -> In r (init_ranks t1).

(** The same, as a check along the trace, from the ranks already seen. *)
Fixpoint init_first_from (seen : list Z) (tr : list event) : Prop :=
  match tr with
  | [] => True
  | EInit r :: tr' => init_first_from (r :: seen) tr'
  | ECall r _ _ :: tr' => r ∈ seen /\ init_first_from seen tr'
  | _ :: tr' => init_first_from seen tr'
  end.

(** Events that are neither an init call nor a process start. *)
Definition quiet (e : event) : Prop :=
  match e with
  | EInit _ | ESpawn _ => False
  | _ => True
  end.

(** Calls of the worker function are by one of the given ranks. *)
Definition called_by (ranks : list Z) (e : event) : Prop :=
  match e with
  | ECall r _ _ => r ∈ ranks
  | _ => True
  end.

(** At every instant of the trace, at most [w] items are in flight. *)
Definition in_flight_bounded (w : Z) (tr : list event) : Prop :=
  forall t1 t2, tr = t1 ++ t2 -> in_flight t1 <= w.

(** The same for a trace that starts with [k] items in flight. *)
Definition bounded_from (k w : Z) (tr : list event) : Prop :=
  forall t1 t2, tr = t1 ++ t2 -> k + in_flight t1 <= w.

(** The upper boundaries of consecutive sections of the given sizes. *)
Fixpoint bounds_from (start : Z) (sizes : list nat) : list Z :=
  match sizes with
  | [] => []
  | k :: sizes' =>
      start + Z.of_nat k :: bounds_from (start + Z.of_nat k) sizes'
  end.

(** The shards that [_process_batches] hands to the workers, in rank order:
    [items[splits[i]:splits[i+1]]] for the boundaries [splits]. *)
Fixpoint shards_of {A} (items : list A) (splits : list Z) : list (list A) :=
  match splits with
  | lo :: ((hi :: _) as splits') => slice items lo hi :: shards_of items splits'
  | _ => []
  end.

(** "The last shards absorb any remainder", in the words of the spec: of
    [k] shards of [n] items, the last [n mod k] have one item more than the
    others. *)
Definition remainder_in_last_shards (sizes : list nat) (n k : nat) : Prop :=
  forall i, (i < k)%nat ->
    sizes !! i = Some (if (k - n mod k <=? i)%nat then S (n / k) else (n / k)%nat).

(** What the code does: the first [n mod k] shards have one item more. *)
Definition remainder_in_first_shards (sizes : list nat) (n k : nat) : Prop :=
  forall i, (i < k)%nat ->
    sizes !! i = Some (if (i <? n mod k)%nat then S (n / k) else (n / k)%nat).

(** [callback_func is not None] *)
Definition has_callback (self : Vectorizer) : bool :=
  bool_decide (is_Some (callback_func self)).

(** [enumerate(items)], counting from [i]. *)
Fixpoint enumerate_from (i : Z) (items : list pyval) : list (Z * pyval) :=
  match items with
  | [] => []
  | x :: items' => (i, x) :: enumerate_from (i + 1) items'
  end.

(** The result that belongs to a dispatched item. *)
Definition tag (g : pyval -> pyval) (x : Z * pyval) : Z * pyval :=
  (fst x, g (snd x)).

(** Ordered by key. *)
Definition key_le (x y : Z * pyval) : Prop := fst x <= fst y.

(** The worker side while no worker has stopped: all workers are live and
    the dispatched items are items of the input. *)
Definition pool_ok (self : Vectorizer) (items : list pyval) (p : pool) : Prop :=
  live p = range (num_workers self) /\
  Forall (fun x => snd x ∈ items) (inflight p).

(** The loop invariant of [_process_consumers]: the items taken from the
    iterator so far are [dispatched], and the results received together
    with the results still due are the tagged results of those items. *)
Definition consumer_inv (self : Vectorizer) (items : list pyval)
  (g : pyval -> pyval) (dispatched rest : list pyval) (index expect : Z)
  (result : list (Z * pyval)) (p : pool) : Prop :=
  items = dispatched ++ rest /\
  index = Z.of_nat (length dispatched) /\
  expect = Z.of_nat (length (inflight p)) /\
  result ++ map (tag g) (inflight p) ≡ₚ
    map (tag g) (enumerate_from 0 dispatched) /\
  pool_ok self items p.

(** Events of the main thread other than the dispatch of an item and the
    receipt of a result. *)
Definition plain (e : event) : Prop :=
  match e with
  | ECall _ _ _ | EInit _ | ESpawn _ | EPut _ | EGet _ => False
  | _ => True
  end.

(** What a run says about the init function. *)
Definition init_ok (self : Vectorizer) (r : run (list pyval)) : Prop :=
  init_ranks (log r) = spawned_ranks (log r) /\
  spawned_ranks (log r) `sublist_of` range (num_workers self) /\
  (is_returned (out r) = true ->
   spawned_ranks (log r) = range (num_workers self)) /\
  init_first_from [] (log r).

(** Two objects with the same configuration: they differ at most in the
    recorded shutdown action. *)
Definition same_config (self1 self2 : Vectorizer) : Prop :=
  num_workers self1 = num_workers self2 /\
  worker_func self1 = worker_func self2 /\
  worker_init self1 = worker_init self2 /\
  callback_func self1 = callback_func self2 /\
  init_kwargs self1 = init_kwargs self2.

(** The loop invariant of [_process_consumers] for an item [bad] on which
    the worker function does not return: the item is still to come, or is
    dispatched, or fewer results are due than the main thread expects. *)
Definition lost_inv (bad : pyval) (rest : list pyval) (expect : Z) (p : pool)
  : Prop :=
  (bad ∈ rest \/ bad ∈ map snd (inflight p) \/
   Z.of_nat (length (inflight p)) < expect) /\
  Z.of_nat (length (inflight p)) <= expect.

(** ** Example configurations *)

(** A worker function that squares a number and raises on anything else. *)
Definition square : worker_fn :=
  fun item _ =>
    match item with
    | PInt z => Returned (PInt (z * z))
    | _ => Raised (UserError "not a number")
    end.

(** A worker function that returns its last extra argument. *)
Definition last_arg : worker_fn :=
  fun _ args =>
    match last args with
    | Some v => Returned v
    | None => Raised (UserError "no argument")
    end.

(** An init function that returns the rank of the worker. *)
Definition rank_init : init_fn := fun rank _ => PInt rank.

(** The workers answer in the order of dispatch, and the first live worker
    takes every item. *)
Definition fifo : sched := {| next_item := fun _ => O; next_worker := fun _ => O |}.

(** An init function that returns a one-element tuple holding a pair. *)
Definition wrapped_pair_init : init_fn :=
  fun _ _ => PTuple [PTuple [PInt 1; PInt 2]].

(** The square of a number, as a function on values. *)
Definition squared (v : pyval) : pyval :=
  match v with
  | PInt z => PInt (z * z)
  | _ => PNone
  end.

(** Two workers squaring numbers, no init function, no callback. *)
Definition two_squarers : Vectorizer := __init__ 8 square None None 2 [].

(** The same on the main thread. *)
Definition main_squarer : Vectorizer := __init__ 8 square None None 0 [].

(** Two workers whose init function returns their rank. *)
Definition two_ranked : Vectorizer :=
  __init__ 8 last_arg (Some rank_init) None 2 [].

(** Every call of [worker_func] in the trace has, after the item, the
    call-site arguments and nothing else. *)
Definition call_args_plain (args : list pyval) (e : event) : Prop :=
  match e with
  | ECall _ _ a => a = args
  | _ => True
  end.

(** One worker squaring numbers. *)
Definition one_squarer : Vectorizer := __init__ 8 square None None 1 [].

(** A configuration with a negative number of workers. *)
Definition minus_two_squarers : Vectorizer := __init__ 8 square None None (-2) [].

(** Squaring with a callback, on the main thread and with one worker. *)
Definition main_squarer_cb : Vectorizer := __init__ 8 square None (Some tt) 0 [].
Definition one_squarer_cb : Vectorizer := __init__ 8 square None (Some tt) 1 [].

(** ** Definitions used by the further properties *)

(** The items on which the worker function was called, in trace order. *)
Fixpoint calls (tr : list event) : list pyval :=
  match tr with
  | [] => []
  | ECall _ item _ :: tr' => item :: calls tr'
  | _ :: tr' => calls tr'
  end.

(** The items on which the worker of a given rank called the worker
    function, in trace order. *)
Fixpoint calls_of (rank : Z) (tr : list event) : list pyval :=
  match tr with
  | [] => []
  | ECall r item _ :: tr' =>
      if r =? rank then item :: calls_of rank tr' else calls_of rank tr'
  | _ :: tr' => calls_of rank tr'
  end.

(** The indices with which the main thread dispatched items, in trace order. *)
Fixpoint put_indices (tr : list event) : list Z :=
  match tr with
  | [] => []
  | EPut i :: tr' => i :: put_indices tr'
  | _ :: tr' => put_indices tr'
  end.

(** The indices of the results the main thread received, in trace order. *)
Fixpoint get_indices (tr : list event) : list Z :=
  match tr with
  | [] => []
  | EGet i :: tr' => i :: get_indices tr'
  | _ :: tr' => get_indices tr'
  end.

Definition is_sentinel (e : event) : bool :=
  match e with ESentinel => true | _ => false end.

(** The events that the main thread and the workers emit between the start
    of the workers and the shutdown. *)
Definition working (e : event) : Prop :=
  match e with
  | ECall _ _ _ | ETick _ | ECallback | EPut _ | EGet _ => True
  | _ => False
  end.

(** What [_process_batches] and [_process_consumers] leave behind: either
    nothing was started and the object is as before (the call raised), or
    all the workers were started, none was stopped, and the shutdown action
    for exactly these workers is recorded. *)
Definition run_started (mk : list Z -> shutdown) (self : Vectorizer)
  (r : run (list pyval)) : Prop :=
  terminated_ranks (log r) = [] /\
  count is_sentinel (log r) = O /\
  ((is_returned (out r) = false /\ log r = [] /\ obj r = self) \/
   (spawned_ranks (log r) = range (num_workers self) /\
    obj r = set_shutdown (Some (mk (range (num_workers self)))) self)).

(** The shutdown action each mode records. *)
Definition shutdown_of (items : iterable) : list Z -> shutdown :=
  match items with
  | Indexable _ => ShutdownBatches
  | Stream _ => ShutdownConsumers
  end.

(** Events that are neither a call of the worker function, nor the dispatch
    of an item, nor the receipt of a result. *)
Definition idle (e : event) : Prop :=
  match e with
  | ECall _ _ _ | EPut _ | EGet _ => False
  | _ => True
  end.

(** The items each of the given workers called the worker function on. *)
Definition calls_by (ranks : list Z) (tr : list event) : list (list pyval) :=
  map (fun i => calls_of i tr) ranks.

(** The bookkeeping of [_process_consumers] between two instants, read off
    the trace [tr] between them: [fl] and [fl'] are the messages on the work
    queue and [rest], [rest'] the items still in the iterator, before and
    after.  The items the worker function was called on came from the work
    queue or the iterator and are no longer there; the indices of the
    results received are indices that were on the work queue or were put
    meanwhile; and every result received was preceded by a call. *)
Definition moved (fl : list (Z * pyval)) (rest : list pyval) (tr : list event)
  (fl' : list (Z * pyval)) (rest' : list pyval) : Prop :=
  calls tr ++ map snd fl' ++ rest' ⊆+ map snd fl ++ rest /\
  get_indices tr ++ map fst fl' ⊆+ map fst fl ++ put_indices tr /\
  (length (get_indices tr) <= length (calls tr))%nat.

(** The items that the item loop gets to: the items up to and including the
    first one on which the worker function does not return. *)
Fixpoint attempted (f : worker_fn) (all_args items : list pyval)
  : list pyval :=
  match items with
  | [] => []
  | item :: rest =>
      item :: if is_returned (f item all_args) then attempted f all_args rest
              else []
  end.

(** The call raised. *)
Definition is_raised {A} (o : outcome A) : bool :=
  match o with Raised _ => true | _ => false end.

(** * pyblaze.nn.callbacks: the training callbacks *)

(** ** What the callbacks share *)

Module base.

(** Modelled from the spec: [CallbackException] is imported from
    [pyblaze.nn.callbacks.base], which is not among the sources, and the
    spec leaves the callback system to its users; it is taken to be an
    exception class of its own.  Its message is built from the epoch and
    the patience, which are kept instead of the text.  The other
    exceptions are Python's own; [ScheduleError] stands for whatever a
    schedule function of the user raises. *)
Inductive error : Type :=
| CallbackException (epoch patience : Z)
| KeyError (key : string)
| TypeError
| AttributeError
| ScheduleError (msg : string).

(** The numbers found in a metrics dictionary, with the operations that
    the callbacks use on them: [x < y], [x + y], the [0] that [sum] starts
    from, [float('inf')] and [-float('inf')].  Nothing is assumed about
    the comparison, so that it may be that of floats, NaN included. *)
Class Number (V : Type) : Type := {
  num_lt : V -> V -> bool;
  num_add : V -> V -> V;
  num_zero : V;
  num_inf : V;
  num_neg_inf : V
}.

(** The hooks of a training run, in the order the training loop calls
    them on a callback. *)
Inductive hook : Type :=
| BeforeTraining
| BeforeEpoch (current : Z)
| AfterBatch
| AfterEpoch
| AfterTraining.

Definition is_after_batch (k : hook) : bool :=
  match k with AfterBatch => true | _ => false end.

Definition is_after_epoch (k : hook) : bool :=
  match k with AfterEpoch => true | _ => false end.

(** The hooks called between [before_training] and [after_training]. *)
Definition in_training (k : hook) : Prop :=
  match k with
  | BeforeTraining | AfterTraining => False
  | _ => True
  end.

(** How many of the hooks are [after_batch]. *)
Definition batches (ks : list hook) : nat :=
  length (List.filter is_after_batch ks).

End base.

(** ** early_stopping.py *)

Module EarlyStopping.
Import base.

(** [metric: str or list of str] *)
Inductive names : Type :=
| Single (m : string)
| Several (ms : list string).

Section early_stopping.
Context {V : Type} `{!Number V}.
(** What [model.state_dict()] gives, and the parameters that each model
    object holds at the moment: the callback keeps a reference to the
    model, not a copy. *)
Context {D : Type}.

Definition heap : Type := nat -> D.

(** [model.load_state_dict(state_dict)] *)
Definition load_state_dict (h : heap) (model : nat) (state_dict : D) : heap :=
  fun m => if (m =? model)%nat then state_dict else h m.

Record t : Type := {
  patience : Z;
  epoch : option Z;
  counter : option Z;
  best_metric : option V;
  model : option nat;
  state_dict : option D;
  restore_best : bool;
  metric : names;
  minimize : bool
}.

(** [EarlyStopping.__init__] *)
Definition __init__ (metric : names) (patience : Z)
  (restore_best minimize : bool) : t :=
  {| patience := patience; epoch := None; counter := None;
     best_metric := None; model := None; state_dict := None;
     restore_best := restore_best; metric := metric; minimize := minimize |}.

Definition set_epoch (v : option Z) (self : t) : t :=
  {| patience := patience self; epoch := v; counter := counter self;
     best_metric := best_metric self; model := model self;
     state_dict := state_dict self; restore_best := restore_best self;
     metric := metric self; minimize := minimize self |}.

Definition set_counter (v : option Z) (self : t) : t :=
  {| patience := patience self; epoch := epoch self; counter := v;
     best_metric := best_metric self; model := model self;
     state_dict := state_dict self; restore_best := restore_best self;
     metric := metric self; minimize := minimize self |}.

Definition set_best_metric (v : option V) (self : t) : t :=
  {| patience := patience self; epoch := epoch self; counter := counter self;
     best_metric := v; model := model self;
     state_dict := state_dict self; restore_best := restore_best self;
     metric := metric self; minimize := minimize self |}.

Definition set_model (v : option nat) (self : t) : t :=
  {| patience := patience self; epoch := epoch self; counter := counter self;
     best_metric := best_metric self; model := v;
     state_dict := state_dict self; restore_best := restore_best self;
     metric := metric self; minimize := minimize self |}.

Definition set_state_dict (v : option D) (self : t) : t :=
  {| patience := patience self; epoch := epoch self; counter := counter self;
     best_metric := best_metric self; model := model self;
     state_dict := v; restore_best := restore_best self;
     metric := metric self; minimize := minimize self |}.

(** [before_training]; [num_epochs] is not used. *)
Definition before_training (self : t) (h : heap) (m : nat) : t :=
  let self := set_model (Some m) self in
  let self :=
    if restore_best self then set_state_dict (Some (h m)) self else self in
  let self := set_epoch (Some 0) self in
  let self := set_counter (Some 0) self in
  set_best_metric (Some (if minimize self then num_inf else num_neg_inf)) self.

(** [sum(metrics[m] for m in ms)], from the accumulator [acc] on: the first
    missing key raises. *)
Fixpoint sum_metrics (metrics : gmap string V) (acc : V) (ms : list string)
  : V + error :=
  match ms with
  | [] => inl acc
  | m :: ms' =>
      match metrics !! m with
      | Some v => sum_metrics metrics (num_add acc v) ms'
      | None => inr (KeyError m)
      end
  end.

(** [_current_metric] *)
Definition _current_metric (self : t) (metrics : gmap string V) : V + error :=
  match metric self with
  | Several ms => sum_metrics metrics num_zero ms
  | Single m =>
      match metrics !! m with
      | Some v => inl v
      | None => inr (KeyError m)
      end
  end.

(** [_is_metric_better]; [x > y] is [y < x], and a comparison with [None]
    is a [TypeError]. *)
Definition _is_metric_better (self : t) (metrics : gmap string V)
  : bool + error :=
  match _current_metric self metrics with
  | inr e => inr e
  | inl v =>
      match best_metric self with
      | None => inr TypeError
      | Some best =>
          inl (if minimize self then num_lt v best else num_lt best v)
      end
  end.

(** [after_epoch]: the object it leaves behind and the exception it
    raised, if any.  [h] holds the parameters of the models at the time of
    the call. *)
Definition after_epoch (self : t) (h : heap) (metrics : gmap string V)
  : t * option error :=
  match epoch self with
  | None => (self, Some TypeError)
  | Some e =>
      let self := set_epoch (Some (e + 1)) self in
      match _is_metric_better self metrics with
      | inr err => (self, Some err)
      | inl true =>
          match
            (if restore_best self then
               match model self with
               | Some m => inl (set_state_dict (Some (h m)) self)
               | None => inr AttributeError
               end
             else inl self)
          with
          | inr err => (self, Some err)
          | inl self =>
              let self := set_counter (Some 0) self in
              match _current_metric self metrics with
              | inl v => (set_best_metric (Some v) self, None)
              | inr err => (self, Some err)
              end
          end
      | inl false =>
          match counter self with
          | None => (self, Some TypeError)
          | Some c =>
              let self := set_counter (Some (c + 1)) self in
              if c + 1 =? patience self then
                (self, Some (CallbackException (e + 1) (patience self)))
              else (self, None)
          end
      end
  end.

(** [after_training]: the parameters of the models afterwards.  A
    comparison of [None] with [0] and [load_state_dict(None)] are type
    errors, a method call on [None] is an attribute error. *)
Definition after_training (self : t) (h : heap) : heap * option error :=
  if restore_best self then
    match counter self with
    | None => (h, Some TypeError)
    | Some c =>
        if 0 <? c then
          match model self, state_dict self with
          | None, _ => (h, Some AttributeError)
          | Some m, Some sd => (load_state_dict h m sd, None)
          | Some _, None => (h, Some TypeError)
          end
        else (h, None)
    end
  else (h, None).

(** The epochs of a training run as the callback sees them: at the end of
    each, the parameters of the models and the metrics.  [after_epochs]
    calls [after_epoch] at the end of each epoch, until one of the calls
    raises. *)
Fixpoint after_epochs (self : t) (epochs : list (heap * gmap string V))
  : t * option error :=
  match epochs with
  | [] => (self, None)
  | (h, metrics) :: epochs' =>
      match after_epoch self h metrics with
      | (self', None) => after_epochs self' epochs'
      | (self', Some e) => (self', Some e)
      end
  end.

(** The objects that a training run can leave behind, with the parameters
    of the models at the last call: [before_training], then any number of
    calls of [after_epoch] with metrics that hold the watched metric,
    whatever the training does to the models in between and whether or not
    the last call stops the training. *)
Inductive trained : t -> heap -> Prop :=
| trained_start self h m : trained (before_training self h m) h
| trained_epoch self h h' metrics v :
    trained self h ->
    _current_metric self metrics = inl v ->
    trained (fst (after_epoch self h' metrics)) h'.

(** The names of the watched metrics, in the order they are looked up. *)
Definition watched (self : t) : list string :=
  match metric self with
  | Single m => [m]
  | Several ms => ms
  end.

(** After [k] epochs of a training run with patience [p]: the epochs are
    counted and the counter lies between 0 and their number. *)
Definition counted (p : Z) (k : Z) (self : t) : Prop :=
  patience self = p /\ epoch self = Some k /\
  exists c, counter self = Some c /\ 0 <= c <= k.

End early_stopping.
End EarlyStopping.

(** ** schedule.py *)

Module LearningRateScheduler.

(** The PyTorch scheduler is an object of a type [T] with a method
    [step]. *)
Record t (T : Type) : Type := {
  exec_after_batch : bool;
  scheduler : T
}.
Arguments exec_after_batch {T}.
Arguments scheduler {T}.

Section learning_rate_scheduler.
Context {T : Type}.
Variable step : T -> T.

(** [LearningRateScheduler.__init__] *)
Definition __init__ (scheduler : T) (after_batch : bool) : t T :=
  {| exec_after_batch := after_batch; scheduler := scheduler |}.

Definition after_batch (self : t T) : t T :=
  if exec_after_batch self then
    {| exec_after_batch := exec_after_batch self;
       scheduler := step (scheduler self) |}
  else self.

Definition after_epoch (self : t T) : t T :=
  if negb (exec_after_batch self) then
    {| exec_after_batch := exec_after_batch self;
       scheduler := step (scheduler self) |}
  else self.

(** The hooks of a training run, called in turn; the hooks that the class
    does not define do nothing. *)
Definition call (self : t T) (k : base.hook) : t T :=
  match k with
  | base.AfterBatch => after_batch self
  | base.AfterEpoch => after_epoch self
  | _ => self
  end.

Definition calls (self : t T) (ks : list base.hook) : t T :=
  foldl call self ks.

End learning_rate_scheduler.
End LearningRateScheduler.

Module ParameterScheduler.
Import base.

Section parameter_scheduler.
(** The parameter is any object. *)
Context {P : Type}.

(** [schedule(parameter, n)]: the updated parameter, or the exception it
    raises.  [n] is [None] when the epoch was never set. *)
Definition schedule_fn : Type := P -> option Z -> P + error.

Record t : Type := {
  parameter : P;
  schedule : schedule_fn;
  exec_after_batch : bool;
  epoch : option Z;
  iterations : option Z
}.

(** [ParameterScheduler.__init__] *)
Definition __init__ (parameter : P) (schedule : schedule_fn)
  (after_batch : bool) : t :=
  {| parameter := parameter; schedule := schedule;
     exec_after_batch := after_batch; epoch := None; iterations := None |}.

Definition set_parameter (v : P) (self : t) : t :=
  {| parameter := v; schedule := schedule self;
     exec_after_batch := exec_after_batch self; epoch := epoch self;
     iterations := iterations self |}.

Definition set_epoch (v : option Z) (self : t) : t :=
  {| parameter := parameter self; schedule := schedule self;
     exec_after_batch := exec_after_batch self; epoch := v;
     iterations := iterations self |}.

Definition set_iterations (v : option Z) (self : t) : t :=
  {| parameter := parameter self; schedule := schedule self;
     exec_after_batch := exec_after_batch self; epoch := epoch self;
     iterations := v |}.

Definition read (self : t) : P := parameter self.

Definition before_training (self : t) : t := set_iterations (Some 0) self.

Definition before_epoch (self : t) (current : Z) : t :=
  set_epoch (Some current) self.

(** [_update] *)
Definition _update (self : t) (is_batch_update : bool) : t * option error :=
  if negb (eqb is_batch_update (exec_after_batch self)) then (self, None)
  else
    match
      (if exec_after_batch self
       then schedule self (parameter self) (iterations self)
       else schedule self (parameter self) (epoch self))
    with
    | inl update => (set_parameter update self, None)
    | inr e => (self, Some e)
    end.

(** [after_batch]: [None += 1] is a type error. *)
Definition after_batch (self : t) : t * option error :=
  match iterations self with
  | None => (self, Some TypeError)
  | Some n => _update (set_iterations (Some (n + 1)) self) true
  end.

Definition after_epoch (self : t) : t * option error := _update self false.

Definition after_training (self : t) : t :=
  set_iterations None (set_epoch None self).

(** One hook of a training run. *)
Definition call (self : t) (k : hook) : t * option error :=
  match k with
  | BeforeTraining => (before_training self, None)
  | BeforeEpoch current => (before_epoch self current, None)
  | AfterBatch => after_batch self
  | AfterEpoch => after_epoch self
  | AfterTraining => (after_training self, None)
  end.

(** The hooks of a training run, called in turn until one raises. *)
Fixpoint calls (self : t) (ks : list hook) : t * option error :=
  match ks with
  | [] => (self, None)
  | k :: ks' =>
      match call self k with
      | (self', None) => calls self' ks'
      | (self', Some e) => (self', Some e)
      end
  end.

End parameter_scheduler.
End ParameterScheduler.

(** ** Example callbacks *)

(** Whole numbers with the two infinities, as metrics. *)
Inductive ext : Type :=
| NegInf
| Fin (z : Z)
| PosInf.

Definition ext_lt (x y : ext) : bool :=
  match x, y with
  | NegInf, NegInf => false
  | NegInf, _ => true
  | Fin a, Fin b => a <? b
  | Fin _, PosInf => true
  | _, _ => false
  end.

Definition ext_add (x y : ext) : ext :=
  match x, y with
  | Fin a, Fin b => Fin (a + b)
  | PosInf, _ | _, PosInf => PosInf
  | NegInf, _ | _, NegInf => NegInf
  end.

#[global] Instance ext_number : base.Number ext :=
  {| base.num_lt := ext_lt; base.num_add := ext_add; base.num_zero := Fin 0;
     base.num_inf := PosInf; base.num_neg_inf := NegInf |}.

(** Models whose parameters are one number. *)
Definition flat (z : Z) : @EarlyStopping.heap Z := fun _ => z.

(** The metrics of an epoch with the given validation loss. *)
Definition val_loss (v : ext) : gmap string ext := {[ "val_loss" := v ]}.

(** Early stopping on the validation loss with a patience of two epochs,
    before the training and at its start. *)
Definition stopper : @EarlyStopping.t ext Z :=
  EarlyStopping.__init__ (EarlyStopping.Single "val_loss") 2 true true.

Definition started_stopper : @EarlyStopping.t ext Z :=
  EarlyStopping.before_training stopper (flat 0) O.

(** A schedule that adds the number it is given to the parameter, and
    fails without a number. *)
Definition add_step : @ParameterScheduler.schedule_fn Z :=
  fun p n =>
    match n with
    | Some k => inl (p + k)
    | None => inr base.TypeError
    end.

(** A scheduler of a whole number, per batch and per epoch, before the
    training and at its start. *)
Definition batch_adder : @ParameterScheduler.t Z :=
  ParameterScheduler.__init__ 10 add_step true.

Definition epoch_adder : @ParameterScheduler.t Z :=
  ParameterScheduler.__init__ 10 add_step false.

(** What [add_step] does with a number. *)
Definition added (p n : Z) : Z := p + n.

(** * Properties *)

(** ** The monad *)

Arguments bind : simpl never.

Section eff_facts.
Context {A B : Type}.

Lemma bind_returned (m : eff A) (k : A -> eff B) (b : B) (tr : list event) :
  bind m k = (Returned b, tr) ->
  exists a tr1 tr2,
    m = (Returned a, tr1) /\ k a = (Returned b, tr2) /\ tr = tr1 ++ tr2.
Proof.
  unfold bind. destruct m as [[a| |] tr1]; try discriminate.
  destruct (k a) as [o tr2] eqn:Hk. intros [= -> <-]. eauto 6.
Qed.

Lemma bind_eq (a : A) (tr1 : list event) (k : A -> eff B) :
  bind (Returned a, tr1) k = (fst (k a), tr1 ++ snd (k a)).
Proof. unfold bind. by destruct (k a). Qed.

Lemma bind_ret (a : A) (k : A -> eff B) : bind (ret a) k = k a.
Proof. unfold bind, ret. by destruct (k a). Qed.

Lemma bind_raise (e : exn) (k : A -> eff B) : bind (raise e) k = raise e.
Proof. done. Qed.

Lemma bind_block (k : A -> eff B) : bind block k = block.
Proof. done. Qed.

Lemma bind_then_ret_snd (m : eff A) (g : A -> B) :
  snd (bind m (fun a => ret (g a))) = snd m.
Proof. destruct m as [[a| |] tr]; simpl; by rewrite ?app_nil_r. Qed.

Lemma bind_then_ret_fst (m : eff A) (g : A -> B) :
  fst (bind m (fun a => ret (g a))) =
  match fst m with
  | Returned a => Returned (g a)
  | Raised e => Raised e
  | Blocked => Blocked
  end.
Proof. by destruct m as [[a| |] tr]. Qed.

Lemma bind_snd (m : eff A) (k : A -> eff B) :
  snd (bind m k) =
  snd m ++ match fst m with Returned a => snd (k a) | _ => [] end.
Proof.
  unfold bind. destruct m as [[a| |] tr1]; simpl; [|by rewrite app_nil_r..].
  by destruct (k a).
Qed.

Lemma bind_fst (m : eff A) (k : A -> eff B) :
  fst (bind m k) =
  match fst m with
  | Returned a => fst (k a)
  | Raised e => Raised e
  | Blocked => Blocked
  end.
Proof.
  unfold bind. destruct m as [[a| |] tr1]; simpl; [|done..].
  by destruct (k a).
Qed.

Lemma bind_Forall (P : event -> Prop) (m : eff A) (k : A -> eff B) :
  Forall P (snd m) -> (forall a, Forall P (snd (k a))) ->
  Forall P (snd (bind m k)).
Proof.
  intros Hm Hk. rewrite bind_snd. apply Forall_app. split; [done|].
  destruct (fst m); auto.
Qed.
End eff_facts.

Lemma bind_ext {A B} (m : eff A) (k1 k2 : A -> eff B) :
  (forall a, k1 a = k2 a) -> bind m k1 = bind m k2.
Proof. intros H. unfold bind. destruct m as [[a| |] tr]; by rewrite ?H. Qed.

Lemma bind_emit {B} (evs : list event) (k : unit -> eff B) :
  bind (emit evs) k = (fst (k tt), evs ++ snd (k tt)).
Proof. apply bind_eq. Qed.

Lemma count_app (p : event -> bool) (tr1 tr2 : list event) :
  count p (tr1 ++ tr2) = (count p tr1 + count p tr2)%nat.
Proof. unfold count. by rewrite List.filter_app, length_app. Qed.

Lemma count_cons (p : event -> bool) (e : event) (tr : list event) :
  count p (e :: tr) = ((if p e then 1 else 0) + count p tr)%nat.
Proof. unfold count. simpl. by destruct (p e). Qed.

Lemma count_nil (p : event -> bool) : count p [] = O.
Proof. done. Qed.

Ltac counts :=
  repeat (rewrite ?count_app, ?count_cons, ?count_nil, ?app_nil_r; simpl).

Lemma init_ranks_app (tr1 tr2 : list event) :
  init_ranks (tr1 ++ tr2) = init_ranks tr1 ++ init_ranks tr2.
Proof.
  induction tr1 as [|e tr1 IH]; [done|]. destruct e; simpl; by rewrite ?IH.
Qed.

Lemma spawned_ranks_app (tr1 tr2 : list event) :
  spawned_ranks (tr1 ++ tr2) = spawned_ranks tr1 ++ spawned_ranks tr2.
Proof.
  induction tr1 as [|e tr1 IH]; [done|]. destruct e; simpl; by rewrite ?IH.
Qed.

Lemma terminated_ranks_app (tr1 tr2 : list event) :
  terminated_ranks (tr1 ++ tr2) = terminated_ranks tr1 ++ terminated_ranks tr2.
Proof.
  induction tr1 as [|e tr1 IH]; [done|]. destruct e; simpl; by rewrite ?IH.
Qed.

(** ** Merging the arguments *)

(** No tuple is its own only element. *)
Lemma tuple_not_self (t : list pyval) : t <> [PTuple t].
Proof.
  intros H. apply (f_equal (fun l => list_sum (map pysize l))) in H.
  simpl in H. lia.
Qed.

Lemma _combine_args_derived (a : list pyval) (b : pyval) :
  _combine_args a b = a ++ init_derived b.
Proof. destruct b; simpl; by rewrite ?app_nil_r. Qed.

Lemma all_args_of_derived (self : Vectorizer) (args : list pyval) (r : Z) :
  all_args_of (worker_init self) (init_kwargs self) args r =
  args ++ derived_of self r.
Proof.
  unfold all_args_of, derived_of. rewrite _combine_args_derived.
  by destruct (worker_init self).
Qed.

(** One step of [pull_get], with the round of the worker written out. *)
Lemma pull_get_S (self : Vectorizer) (args : list pyval) (s : sched)
  (fuel : nat) (p : pool) :
  pull_get self args s (S fuel) p =
  let i := (next_item s (clock p) mod length (inflight p))%nat in
  let j := (next_worker s (clock p) mod length (live p))%nat in
  match inflight p !! i, live p !! j with
  | Some (idx, item), Some r =>
      let all_args :=
        all_args_of (worker_init self) (init_kwargs self) args r in
      bind (emit [ECall r item all_args]) (fun _ =>
        match worker_func self item all_args with
        | Returned v =>
            bind (emit [EGet idx]) (fun _ =>
              ret ((idx, v),
                   {| inflight := delete i (inflight p);
                      live := live p;
                      clock := S (clock p) |}))
        | _ =>
            pull_get self args s fuel
              {| inflight := delete i (inflight p);
                 live := delete j (live p);
                 clock := S (clock p) |}
        end)
  | _, _ => block
  end.
Proof.
  simpl. destruct (inflight p !! _) as [[idx item]|]; [|done].
  destruct (live p !! _) as [r|]; [|done].
  unfold _consumer_worker. rewrite !bind_emit.
  by destruct (worker_func self item _); simpl; rewrite ?bind_emit.
Qed.

(** ** Trace properties that hold event by event *)

Section traces.
Variable self : Vectorizer.
Variable args : list pyval.
Variable R : Z -> Prop.
Variable P : event -> Prop.

Let aa (r : Z) := all_args_of (worker_init self) (init_kwargs self) args r.

Hypothesis P_call : forall r item, R r -> P (ECall r item (aa r)).
Hypothesis P_plain : forall e, plain e -> P e.
Hypothesis P_init : forall r, R r -> P (EInit r).
Hypothesis P_spawn : forall r, R r -> P (ESpawn r).
Hypothesis P_put : forall i, P (EPut i).
Hypothesis P_get : forall i, P (EGet i).

Ltac other := first [apply P_put | apply P_get | apply P_plain; exact I].

Lemma run_items_Forall tick r items :
  R r -> Forall P (snd (run_items tick r (worker_func self) (aa r) items)).
Proof.
  intros Hr. induction items as [|item rest IH]; simpl; [constructor|].
  apply bind_Forall; [repeat constructor; by apply P_call|]. intros _.
  destruct (worker_func self item (aa r)); simpl; try constructor.
  apply bind_Forall; simpl.
  - destruct tick; repeat constructor. other.
  - intros _. apply bind_Forall; [done|]. intros; constructor.
Qed.

Lemma _batch_worker_Forall tick r items :
  R r ->
  Forall P (snd (_batch_worker tick r (worker_func self) (worker_init self)
                   (init_kwargs self) items args)).
Proof.
  intros Hr. unfold _batch_worker.
  pose proof (run_items_Forall tick r items Hr) as H.
  unfold aa, all_args_of in H.
  destruct (_init_if_needed (worker_init self) r (init_kwargs self))
    as [v tr0] eqn:Hi. simpl in H.
  apply bind_Forall; [|done]. simpl.
  unfold _init_if_needed in Hi. destruct (worker_init self); simplify_eq;
    repeat constructor. by apply P_init.
Qed.

Lemma index_list_log splits i : snd (index_list splits i) = [].
Proof. unfold index_list. by destruct (splits !! Z.to_nat i). Qed.

Lemma spawn_batches_Forall splits items ranks :
  Forall R ranks ->
  Forall P (snd (spawn_batches self splits items args ranks)).
Proof.
  induction 1 as [|i ranks Hi _ IH]; simpl; [constructor|].
  apply bind_Forall; [by rewrite index_list_log|]. intros lo.
  apply bind_Forall; [by rewrite index_list_log|]. intros hi.
  apply bind_Forall; [repeat constructor; by apply P_spawn|]. intros _.
  pose proof (_batch_worker_Forall
                (bool_decide (is_Some (callback_func self))) i
                (slice items lo hi) Hi) as Hw.
  destruct (_batch_worker _ _ _ _ _ _ _) as [o tr]. simpl in Hw.
  apply bind_Forall; [done|]. intros _.
  apply bind_Forall; [done|]. intros; constructor.
Qed.

Lemma tick_loop_Forall n ticks : Forall P (snd (tick_loop n ticks)).
Proof.
  revert ticks. induction n as [|n IH]; intros [|ticks]; simpl;
    try constructor.
  apply bind_Forall; [repeat constructor; other|]. intros _. apply IH.
Qed.

Lemma gather_log queues : snd (gather queues) = [].
Proof.
  induction queues as [|[bundle|] queues IH]; simpl; try done.
  rewrite bind_snd, IH. by destruct (fst (gather queues)).
Qed.

Lemma _process_batches_Forall items :
  Forall R (range (num_workers self)) ->
  Forall P (log (_process_batches self items args)).
Proof.
  intros HR. unfold _process_batches.
  destruct (batch_splits _ _) as [splits| |]; simpl; try constructor.
  pose proof (spawn_batches_Forall splits items _ HR) as Hs.
  destruct (spawn_batches _ _ _ _ _) as [[queues| |] tr]; simpl in *;
    try done.
  apply bind_Forall; [done|]. intros _.
  apply bind_Forall.
  - destruct (callback_func self); [apply tick_loop_Forall|constructor].
  - intros _. rewrite gather_log. constructor.
Qed.

Lemma call_callback_Forall : Forall P (snd (call_callback self)).
Proof.
  unfold call_callback. destruct (callback_func self); repeat constructor.
  other.
Qed.

Lemma pull_get_Forall s fuel p :
  Forall R (live p) -> Forall P (snd (pull_get self args s fuel p)).
Proof.
  revert p. induction fuel as [|fuel IH]; intros p Hp; [constructor|].
  rewrite pull_get_S. simpl.
  destruct (inflight p !! _) as [[idx item]|]; [|constructor].
  destruct (live p !! _) as [r|] eqn:Hr; [|constructor].
  assert (R r) by (eapply Forall_lookup_1; eauto).
  assert (Forall R (delete
    (next_worker s (clock p) mod length (live p))%nat (live p))).
  { by apply Forall_delete. }
  apply bind_Forall; [repeat constructor; by apply P_call|]. intros _.
  destruct (worker_func self item _); try by apply IH.
  apply bind_Forall; [repeat constructor; other|]. intros; constructor.
Qed.

Lemma pull_get_live s fuel p x p' :
  fst (pull_get self args s fuel p) = Returned (x, p') ->
  Forall R (live p) -> Forall R (live p').
Proof.
  revert p. induction fuel as [|fuel IH]; intros p; [done|].
  rewrite pull_get_S. simpl.
  destruct (inflight p !! _) as [[idx item]|]; [|done].
  destruct (live p !! _) as [r|] eqn:Hr; [|done].
  rewrite bind_fst. simpl. intros Hget Hp.
  assert (Forall R (delete
    (next_worker s (clock p) mod length (live p))%nat (live p))).
  { by apply Forall_delete. }
  destruct (worker_func self item _); try by (eapply IH; eauto).
  rewrite bind_fst in Hget. simpl in Hget. by simplify_eq.
Qed.

Lemma pump_Forall s rest i e res p :
  Forall R (live p) -> Forall P (snd (pump self args s rest i e res p)).
Proof.
  revert i e res p. induction rest as [|item rest IH]; intros i e res p Hp;
    simpl.
  - apply bind_Forall; [by apply pull_get_Forall|]. intros got.
    apply bind_Forall; [apply call_callback_Forall|]. intros; constructor.
  - rewrite bind_snd. apply Forall_app. split; [by apply pull_get_Forall|].
    destruct (fst (get self args s p)) as [[x p']| |] eqn:Hget;
      try constructor.
    apply bind_Forall; [apply call_callback_Forall|]. intros _.
    apply bind_Forall; [repeat constructor; other|]. intros _. apply IH.
    simpl. by eapply pull_get_live.
Qed.

Lemma pump_live s rest i e res p st :
  fst (pump self args s rest i e res p) = Returned st ->
  Forall R (live p) -> Forall R (live (workers st)).
Proof.
  revert i e res p. induction rest as [|item rest IH]; intros i e res p;
    simpl; rewrite bind_fst;
    destruct (fst (get self args s p)) as [[x p']| |] eqn:Hget; try done;
    rewrite bind_fst; destruct (fst (call_callback self)); try done.
  - simpl. intros [= <-] Hp. simpl. by eapply pull_get_live.
  - rewrite bind_fst. simpl. intros Hst Hp. eapply IH; [done|].
    simpl. by eapply pull_get_live.
Qed.

Lemma drain_Forall s n res p :
  Forall R (live p) -> Forall P (snd (drain self args s n res p)).
Proof.
  revert res p. induction n as [|n IH]; intros res p Hp; simpl;
    [constructor|].
  rewrite bind_snd. apply Forall_app. split; [by apply pull_get_Forall|].
  destruct (fst (get self args s p)) as [[x p']| |] eqn:Hget;
    try constructor.
  apply bind_Forall; [apply call_callback_Forall|]. intros _. apply IH.
  simpl. by eapply pull_get_live.
Qed.

Lemma prime_Forall n st : Forall P (snd (prime n st)).
Proof.
  revert st. induction n as [|n IH]; intros st; simpl; [constructor|].
  destruct (iterator st); [constructor|].
  apply bind_Forall; [repeat constructor; other|]. intros _. apply IH.
Qed.

Lemma prime_live n st st' b :
  fst (prime n st) = Returned (st', b) ->
  live (workers st') = live (workers st).
Proof.
  revert st. induction n as [|n IH]; intros st; simpl; [by intros [= <- _]|].
  destruct (iterator st); [by intros [= <- _]|].
  rewrite bind_fst. simpl. intros H. by apply IH in H.
Qed.

Lemma spawn_consumers_Forall ranks :
  Forall R ranks -> Forall P (spawn_consumers self ranks).
Proof.
  induction 1 as [|i ranks Hi _ IH]; simpl; constructor;
    [by apply P_spawn|].
  apply Forall_app. split; [|done].
  unfold _init_if_needed. destruct (worker_init self); repeat constructor.
  by apply P_init.
Qed.

Lemma dispatch_Forall items s :
  Forall R (range (num_workers self)) ->
  Forall P (snd (dispatch self items args s)).
Proof.
  intros HR. unfold dispatch.
  rewrite bind_snd. apply Forall_app. split; [apply prime_Forall|].
  destruct (fst (prime _ _)) as [[st b]| |] eqn:Hprime; try constructor.
  apply prime_live in Hprime. simpl in Hprime.
  simpl. destruct b.
  - rewrite bind_ret.
    apply bind_Forall; [|intros; constructor]. apply drain_Forall.
    by rewrite Hprime.
  - rewrite bind_snd. apply Forall_app.
    split; [apply pump_Forall; by rewrite Hprime|].
    destruct (fst (pump _ _ _ _ _ _ _ _)) as [st'| |] eqn:Hst;
      try constructor.
    apply bind_Forall; [|intros; constructor]. apply drain_Forall.
    eapply pump_live; [done|]. by rewrite Hprime.
Qed.

Lemma _process_consumers_Forall items s :
  Forall R (range (num_workers self)) ->
  Forall P (log (_process_consumers self items args s)).
Proof.
  intros HR. unfold _process_consumers. simpl.
  apply bind_Forall; [by apply spawn_consumers_Forall|]. intros _.
  by apply dispatch_Forall.
Qed.

Lemma call_shutdown_Forall fn : Forall P (call_shutdown fn).
Proof.
  destruct fn as [ps|ps]; simpl.
  - constructor; [other|]. induction ps; constructor; [other|done].
  - apply Forall_app. split; induction ps; constructor; try done; other.
Qed.

Lemma process_Forall items s :
  R 0 -> Forall R (range (num_workers self)) ->
  Forall P (log (process self items args s)).
Proof.
  intros H0 HR. unfold process. destruct (num_workers self =? 0).
  - pose proof (run_items_Forall false 0 (contents items) H0) as H.
    unfold aa, all_args_of in H.
    destruct (_init_if_needed (worker_init self) 0 (init_kwargs self))
      as [v tr0] eqn:Hi. simpl in *.
    apply bind_Forall; [|done]. simpl.
    unfold _init_if_needed in Hi. destruct (worker_init self); simplify_eq;
      repeat constructor. by apply P_init.
  - assert (Forall P (log
      match items with
      | Indexable l => _process_batches self l args
      | Stream l => _process_consumers self l args s
      end)) as Hr.
    { destruct items; [by apply _process_batches_Forall
                      |by apply _process_consumers_Forall]. }
    destruct (match items with Indexable _ => _ | Stream _ => _ end)
      as [[res| |] self' tr]; simpl in *; try done.
    destruct (_shutdown_fn self'); simpl; [|done].
    apply Forall_app. split; [done|apply call_shutdown_Forall].
Qed.
End traces.

(** ** The arguments of every call of the worker function *)

(** C8. In every mode, each call of the worker function recorded by
    [process] has, after the item, exactly the call-site arguments followed
    by the init-derived arguments of the calling worker, which depend on the
    rank of the worker alone (so they are the same for every item that
    worker processes); without an init function the arguments after the item
    are the call-site arguments and nothing else. *)
Theorem process_call_args_merged (self : Vectorizer) (items : iterable)
  (args : list pyval) (s : sched) :
  Forall (call_args_merged self args) (log (process self items args s)) /\
  (worker_init self = None ->
   Forall (call_args_plain args) (log (process self items args s))).
Proof.
  assert (Forall (call_args_merged self args)
            (log (process self items args s))) as H.
  { apply (process_Forall self args (fun _ => True)); try done.
    - intros r item _. simpl. apply all_args_of_derived.
    - by intros [].
    - by apply Forall_true. }
  split; [done|]. intros Hnone. eapply Forall_impl; [exact H|].
  intros [] He; simpl in *; try done.
  unfold derived_of in He. rewrite Hnone in He. by rewrite app_nil_r in He.
Qed.

(** ** The init function *)

Lemma quiet_ranks (tr : list event) :
  Forall quiet tr -> init_ranks tr = [] /\ spawned_ranks tr = [].
Proof. induction 1 as [|[] tr He _ IH]; simpl in *; done. Qed.

Lemma plain_quiet (e : event) : plain e -> quiet e.
Proof. by destruct e. Qed.

Lemma init_first_mono (seen seen' : list Z) (tr : list event) :
  seen ⊆ seen' -> init_first_from seen tr -> init_first_from seen' tr.
Proof.
  revert seen seen'. induction tr as [|e tr IH]; intros seen seen' Hsub;
    [done|].
  destruct e; simpl; eauto.
  - apply IH. set_solver.
  - intros [? ?]. split; [set_solver|eauto].
Qed.

Lemma init_first_app (seen : list Z) (t1 t2 : list event) :
  init_first_from seen t1 ->
  init_first_from (init_ranks t1 ++ seen) t2 ->
  init_first_from seen (t1 ++ t2).
Proof.
  revert seen. induction t1 as [|e t1 IH]; intros seen; [done|].
  destruct e; simpl; eauto.
  - intros H1 H2. apply IH; [done|].
    eapply init_first_mono; [|done]. set_solver.
  - intros [? ?] ?. split; eauto.
Qed.

Lemma init_first_calls (seen : list Z) (tr : list event) :
  Forall (called_by seen) tr -> init_first_from seen tr.
Proof.
  intros H. revert seen H. induction tr as [|e tr IH]; intros seen H; [done|].
  apply Forall_cons in H as [He H]. destruct e; simpl in *; eauto.
  apply IH. eapply Forall_impl; [done|]. intros []; simpl; set_solver.
Qed.

Lemma init_first_sound (seen : list Z) (tr : list event) :
  init_first_from seen tr ->
  forall t1 r item a t2,
    tr = t1 ++ ECall r item a :: t2 -> r ∈ init_ranks t1 ++ seen.
Proof.
  revert seen. induction tr as [|e tr IH]; intros seen H t1 r item a t2 Heq.
  { by destruct t1. }
  destruct t1 as [|e1 t1]; simpl in Heq; simplify_eq.
  { simpl in H. by destruct H. }
  destruct e1; simpl in *; try (eapply IH; [|done]; done).
  - specialize (IH _ H _ _ _ _ _ eq_refl). set_solver.
  - destruct H as [_ H]. by eapply IH.
Qed.

Section init_calls.
Variable self : Vectorizer.
Variable args : list pyval.
Variable f : init_fn.
Hypothesis Hinit : worker_init self = Some f.

Lemma run_items_quiet tick r all_args items :
  Forall quiet (snd (run_items tick r (worker_func self) all_args items)).
Proof.
  induction items as [|item rest IH]; simpl; [constructor|].
  apply bind_Forall; [by repeat constructor|]. intros _.
  destruct (worker_func self item all_args); simpl; try constructor.
  apply bind_Forall; [by destruct tick; repeat constructor|]. intros _.
  apply bind_Forall; [done|]. intros; constructor.
Qed.

Lemma run_items_called_by tick r all_args items :
  Forall (called_by [r])
    (snd (run_items tick r (worker_func self) all_args items)).
Proof.
  induction items as [|item rest IH]; simpl; [constructor|].
  apply bind_Forall; [repeat constructor; simpl; set_solver|]. intros _.
  destruct (worker_func self item all_args); simpl; try constructor.
  apply bind_Forall; [by destruct tick; repeat constructor|]. intros _.
  apply bind_Forall; [done|]. intros; constructor.
Qed.

(** A batch worker: one init call, then the calls of the worker function. *)
Lemma _batch_worker_log tick r items :
  exists tr,
    snd (_batch_worker tick r (worker_func self) (worker_init self)
           (init_kwargs self) items args) = EInit r :: tr /\
    Forall quiet tr /\ Forall (called_by [r]) tr.
Proof.
  unfold _batch_worker. rewrite Hinit. simpl. rewrite bind_snd. simpl.
  eexists. split; [done|].
  split; [apply run_items_quiet|apply run_items_called_by].
Qed.

Lemma spawn_batches_ranks splits items ranks :
  let m := spawn_batches self splits items args ranks in
  init_ranks (snd m) = spawned_ranks (snd m) /\
  spawned_ranks (snd m) `sublist_of` ranks /\
  (is_returned (fst m) = true -> spawned_ranks (snd m) = ranks) /\
  (forall seen, init_first_from seen (snd m)).
Proof.
  induction ranks as [|i ranks IH]; simpl; [by repeat split|].
  unfold index_list.
  destruct (splits !! Z.to_nat i) as [lo|];
    [|rewrite bind_raise; repeat split; try done; apply sublist_nil_l].
  rewrite bind_ret.
  destruct (splits !! Z.to_nat (i + 1)) as [hi|];
    [|rewrite bind_raise; repeat split; try done; apply sublist_nil_l].
  rewrite bind_ret.
  destruct (_batch_worker_log (bool_decide (is_Some (callback_func self))) i
              (slice items lo hi)) as (trw & Hw & Hq & Hc).
  destruct (_batch_worker _ _ _ _ _ _ _) as [o tr]. simpl in Hw. subst tr.
  destruct IH as (IH1 & IH2 & IH3 & IH4).
  apply quiet_ranks in Hq as [Hq1 Hq2].
  rewrite !bind_emit. simpl.
  rewrite bind_then_ret_snd, bind_then_ret_fst.
  rewrite !init_ranks_app, !spawned_ranks_app, Hq1, Hq2. simpl.
  destruct (fst (spawn_batches self splits items args ranks)) eqn:Hm; simpl.
  all: rewrite IH1; repeat split; [by apply sublist_skip| |].
  all: try (intros _; f_equal; by apply IH3).
  all: try done.
  all: intros seen; apply init_first_app; [|apply IH4].
  all: apply init_first_calls; eapply Forall_impl; [done|].
  all: intros []; simpl; set_solver.
Qed.
Lemma plain_log (tr : list event) :
  Forall plain tr ->
  init_ranks tr = [] /\ spawned_ranks tr = [] /\
  forall seen, init_first_from seen tr.
Proof.
  intros H. split; [|split].
  - apply quiet_ranks. eapply Forall_impl; [done|apply plain_quiet].
  - apply quiet_ranks. eapply Forall_impl; [done|apply plain_quiet].
  - intros seen. apply init_first_calls. eapply Forall_impl; [done|].
    by intros [].
Qed.

Local Abbreviation init_ok := (init_ok self).

Lemma _process_batches_init items :
  init_ok (_process_batches self items args).
Proof.
  unfold init_ok, _process_batches.
  destruct (batch_splits _ _) as [splits| |]; simpl;
    try (repeat split; try done; apply sublist_nil_l).
  destruct (spawn_batches_ranks splits items (range (num_workers self)))
    as (H1 & H2 & H3 & H4).
  destruct (spawn_batches _ _ _ _ _) as [[queues| |] tr]; simpl in *;
    try by repeat split.
  rewrite bind_emit. simpl.
  assert (Forall plain
    (snd (bind match callback_func self with
               | Some _ => tick_loop (length items) (count is_tick tr)
               | None => ret tt
               end (fun _ => gather queues)))) as Hp.
  { apply bind_Forall.
    - destruct (callback_func self); [|constructor].
      by apply tick_loop_Forall.
    - intros _. rewrite gather_log. constructor. }
  apply plain_log in Hp as (Hp1 & Hp2 & Hp3).
  rewrite init_ranks_app, spawned_ranks_app, Hp1, Hp2, !app_nil_r.
  repeat split; auto. apply init_first_app; auto.
Qed.

Lemma spawn_consumers_ranks ranks :
  init_ranks (spawn_consumers self ranks) = ranks /\
  spawned_ranks (spawn_consumers self ranks) = ranks /\
  forall seen, init_first_from seen (spawn_consumers self ranks).
Proof.
  induction ranks as [|i ranks (IH1 & IH2 & IH3)]; simpl; [done|].
  rewrite Hinit. simpl. rewrite IH1, IH2. repeat split. intros; apply IH3.
Qed.

Lemma _process_consumers_init items s :
  init_ok (_process_consumers self items args s).
Proof.
  unfold init_ok, _process_consumers. simpl.
  destruct (spawn_consumers_ranks (range (num_workers self)))
    as (H1 & H2 & H3).
  rewrite bind_emit. simpl.
  assert (Forall (fun e => quiet e /\ called_by (range (num_workers self)) e)
            (snd (dispatch self items args s))) as Hmain.
  { apply (dispatch_Forall self args (fun r => r ∈ range (num_workers self)));
      try done; [by intros []|by apply Forall_forall]. }
  apply Forall_and in Hmain as [Hq Hc]. apply quiet_ranks in Hq as [Hq1 Hq2].
  rewrite init_ranks_app, spawned_ranks_app, H1, H2, Hq1, Hq2, app_nil_r.
  repeat split; [done|].
  apply init_first_app; [done|]. rewrite H1.
  apply init_first_calls. eapply Forall_impl; [done|].
  intros []; simpl; set_solver.
Qed.

Lemma process_init items s :
  let r := process self items args s in
  (num_workers self = 0 -> init_ranks (log r) = [0]) /\
  (num_workers self <> 0 -> init_ok r) /\
  NoDup (spawned_ranks (log r)) /\
  init_first_from [] (log r).
Proof.
  unfold process. destruct (Z.eqb_spec (num_workers self) 0) as [H0|H0].
  - rewrite Hinit. simpl. rewrite bind_emit. simpl.
    pose proof (run_items_quiet false 0
      (_combine_args args (f 0 (init_kwargs self))) (contents items)) as Hq.
    apply quiet_ranks in Hq as [-> ->].
    repeat split; try done; [constructor|].
    apply init_first_calls, run_items_called_by.
  - assert (init_ok
      match items with
      | Indexable l => _process_batches self l args
      | Stream l => _process_consumers self l args s
      end) as Hr.
    { destruct items; [apply _process_batches_init
                      |apply _process_consumers_init]. }
    destruct (match items with Indexable _ => _ | Stream _ => _ end)
      as [o self' tr]. destruct Hr as (H1 & H2 & H3 & H4). simpl in *.
    assert (NoDup (spawned_ranks tr)).
    { eapply sublist_NoDup; [apply NoDup_seqZ|exact H2]. }
    destruct o as [res| |]; simpl; try by repeat split.
    destruct (_shutdown_fn self') as [fn|]; simpl; [|by repeat split].
    assert (Forall plain (call_shutdown fn)) as Hp
      by (by apply call_shutdown_Forall).
    apply plain_log in Hp as (Hp1 & Hp2 & Hp3).
    unfold init_ok. simpl.
    rewrite init_ranks_app, spawned_ranks_app, Hp1, Hp2, !app_nil_r.
    repeat split; auto; try done; apply init_first_app; auto.
Qed.
End init_calls.

(** C9. With an init function configured, every call of [process] calls it
    once for each worker: in sequential mode exactly once, with rank 0; in
    the other modes once for each process started and with the rank of that
    process, the ranks being distinct (all of [0 .. num_workers - 1] when
    the call returns), so never once per item; and a worker calls it before
    it processes any item. *)
Theorem init_once_per_worker (self : Vectorizer) (items : iterable)
  (args : list pyval) (s : sched) (f : init_fn) :
  worker_init self = Some f ->
  let r := process self items args s in
  (num_workers self = 0 -> init_ranks (log r) = [0]) /\
  (num_workers self <> 0 -> init_ranks (log r) = spawned_ranks (log r)) /\
  NoDup (spawned_ranks (log r)) /\
  (num_workers self <> 0 -> is_returned (out r) = true ->
   spawned_ranks (log r) = range (num_workers self)) /\
  init_before_calls (log r).
Proof.
  intros Hinit r.
  destruct (process_init self args f Hinit items s) as (H0 & H1 & H2 & H3).
  fold r in H0, H1, H2, H3. repeat split; auto.
  - intros Hw. by destruct (H1 Hw).
  - intros Hw. by destruct (H1 Hw) as (_ & _ & ? & _).
  - intros t1 rk item a t2 Heq. apply list_elem_of_In.
    pose proof (init_first_sound _ _ H3 _ _ _ _ _ Heq) as Hin.
    by rewrite app_nil_r in Hin.
Qed.

(** ** Items in flight *)

Lemma in_flight_app (t1 t2 : list event) :
  in_flight (t1 ++ t2) = in_flight t1 + in_flight t2.
Proof. unfold in_flight. rewrite !count_app. lia. Qed.

Lemma in_flight_nil : in_flight [] = 0.
Proof. done. Qed.

Lemma in_flight_put (i : Z) : in_flight [EPut i] = 1.
Proof. done. Qed.

Lemma bounded_from_nil (k w : Z) : k <= w -> bounded_from k w [].
Proof.
  intros Hk t1 t2 Heq. symmetry in Heq. apply app_eq_nil in Heq as [-> _].
  rewrite in_flight_nil. lia.
Qed.

Lemma bounded_from_app (k w : Z) (tr1 tr2 : list event) :
  bounded_from k w tr1 ->
  bounded_from (k + in_flight tr1) w tr2 ->
  bounded_from k w (tr1 ++ tr2).
Proof.
  intros H1 H2 t1 t2 Heq.
  apply app_eq_inv in Heq as [(m & -> & ->)|(m & -> & ->)].
  - by eapply H1.
  - rewrite in_flight_app. specialize (H2 m t2 eq_refl). lia.
Qed.

Lemma bounded_from_start (k w : Z) (tr : list event) :
  bounded_from k w tr -> k <= w.
Proof. intros H. specialize (H [] tr eq_refl). rewrite in_flight_nil in H. lia. Qed.

Lemma bounded_from_end (k w : Z) (tr : list event) :
  bounded_from k w tr -> k + in_flight tr <= w.
Proof. intros H. apply (H tr []). by rewrite app_nil_r. Qed.

(** A trace without dispatch does not raise the number of items in flight. *)
Lemma no_put_count (tr : list event) :
  Forall (fun e => is_put e = false) tr -> count is_put tr = O.
Proof.
  induction 1 as [|e tr He _ IH]; [done|]. by rewrite count_cons, He, IH.
Qed.

Lemma no_get_count (tr : list event) :
  Forall (fun e => is_get e = false) tr -> count is_get tr = O.
Proof.
  induction 1 as [|e tr He _ IH]; [done|]. by rewrite count_cons, He, IH.
Qed.

Lemma no_put_bounded (k w : Z) (tr : list event) :
  Forall (fun e => is_put e = false) tr -> k <= w -> bounded_from k w tr.
Proof.
  intros H Hk t1 t2 ->. apply Forall_app in H as [H _].
  unfold in_flight. rewrite (no_put_count _ H). lia.
Qed.

Lemma no_put_in_flight (tr : list event) :
  Forall (fun e => is_put e = false) tr -> in_flight tr <= 0.
Proof. intros H. unfold in_flight. rewrite (no_put_count _ H). lia. Qed.

Lemma neutral_in_flight (tr : list event) :
  Forall (fun e => is_put e = false /\ is_get e = false) tr ->
  in_flight tr = 0.
Proof.
  intros H. apply Forall_and in H as [H1 H2]. unfold in_flight.
  by rewrite (no_put_count _ H1), (no_get_count _ H2).
Qed.

Lemma bounded_from_cons (k w : Z) (e : event) (tr : list event) :
  k <= w -> bounded_from (k + in_flight [e]) w tr -> bounded_from k w (e :: tr).
Proof.
  intros Hk H. apply (bounded_from_app k w [e] tr); [|done].
  intros t1 t2 Heq. destruct t1 as [|e1 t1].
  - rewrite in_flight_nil. lia.
  - destruct t1; [|by destruct t1]. simpl in Heq. simplify_eq.
    apply bounded_from_start in H. lia.
Qed.

Section flight.
Variable self : Vectorizer.
Variable args : list pyval.
Variable s : sched.
Variable w : Z.

Lemma pull_get_no_put fuel p :
  Forall (fun e => is_put e = false) (snd (pull_get self args s fuel p)).
Proof.
  apply (pull_get_Forall self args (fun _ => True)); try done.
  by apply Forall_true.
Qed.

Lemma pull_get_count fuel p :
  count is_get (snd (pull_get self args s fuel p)) =
  if is_returned (fst (pull_get self args s fuel p)) then 1%nat else O.
Proof.
  revert p. induction fuel as [|fuel IH]; intros p; [done|].
  rewrite pull_get_S. simpl.
  destruct (inflight p !! _) as [[idx item]|]; [|done].
  destruct (live p !! _) as [r|]; [|done].
  rewrite bind_emit. simpl.
  destruct (worker_func self item _); simpl; rewrite count_cons; simpl;
    try apply IH.
  done.
Qed.

Lemma get_in_flight p x :
  fst (get self args s p) = Returned x ->
  in_flight (snd (get self args s p)) = -1.
Proof.
  intros H. unfold in_flight, get in *.
  rewrite pull_get_count, H, (no_put_count _ (pull_get_no_put _ _)). done.
Qed.

Lemma call_callback_neutral :
  Forall (fun e => is_put e = false /\ is_get e = false)
    (snd (call_callback self)).
Proof.
  unfold call_callback. destruct (callback_func self); by repeat constructor.
Qed.

Lemma prime_bounded n st k :
  k + Z.of_nat n <= w -> bounded_from k w (snd (prime n st)).
Proof.
  revert st k. induction n as [|n IH]; intros st k Hk; simpl.
  { apply bounded_from_nil. lia. }
  destruct (iterator st); [apply bounded_from_nil; lia|].
  rewrite bind_emit. simpl. apply bounded_from_cons; [lia|].
  apply IH. rewrite in_flight_put. lia.
Qed.

Lemma get_then_bounded {B} p k (cont : (Z * pyval) * pool -> eff B) :
  k <= w ->
  (forall got, bounded_from (k - 1) w (snd (cont got))) ->
  bounded_from k w (snd (bind (get self args s p) cont)).
Proof.
  intros Hk Hcont. rewrite bind_snd.
  pose proof (pull_get_no_put (length (inflight p)) p) as Hnp.
  fold (get self args s p) in Hnp.
  apply bounded_from_app; [by apply no_put_bounded|].
  destruct (fst (get self args s p)) as [got| |] eqn:Hget.
  - rewrite (get_in_flight _ _ Hget). apply Hcont.
  - apply bounded_from_nil. apply no_put_in_flight in Hnp. lia.
  - apply bounded_from_nil. apply no_put_in_flight in Hnp. lia.
Qed.

Lemma callback_then_bounded {B} k (cont : unit -> eff B) :
  k <= w ->
  bounded_from k w (snd (cont tt)) ->
  bounded_from k w (snd (bind (call_callback self) cont)).
Proof.
  intros Hk Hcont. unfold call_callback.
  destruct (callback_func self); [|by rewrite bind_ret].
  rewrite bind_emit. simpl. apply bounded_from_cons; [done|].
  change (in_flight [ECallback]) with 0. by rewrite Z.add_0_r.
Qed.

Lemma pump_bounded rest i e res p k :
  k <= w -> bounded_from k w (snd (pump self args s rest i e res p)).
Proof.
  revert i e res p. induction rest as [|item rest IH]; intros i e res p Hk;
    simpl; (apply get_then_bounded; [done|]); intros got;
    (apply callback_then_bounded; [lia|]).
  - apply bounded_from_nil. lia.
  - rewrite bind_emit. simpl. apply bounded_from_cons; [lia|].
    rewrite in_flight_put. replace (k - 1 + 1) with k by lia. by apply IH.
Qed.

Lemma drain_no_put n res p :
  Forall (fun e => is_put e = false) (snd (drain self args s n res p)).
Proof.
  apply (drain_Forall self args (fun _ => True)); try done.
  - by intros [].
  - by apply Forall_true.
Qed.
End flight.

Lemma dispatch_bounded (self : Vectorizer) (items args : list pyval) (s : sched) :
  0 <= num_workers self ->
  bounded_from 0 (num_workers self) (snd (dispatch self items args s)).
Proof.
  intros Hw. unfold dispatch. rewrite bind_snd.
  match goal with
  | |- context [prime ?n ?st] =>
      pose proof (prime_bounded (num_workers self) n st 0 ltac:(lia)) as Hprime
  end.
  apply bounded_from_app; [exact Hprime|].
  apply bounded_from_end in Hprime.
  destruct (fst (prime _ _)) as [[st b]| |];
    try (apply bounded_from_nil; lia).
  simpl. destruct b.
  - rewrite bind_ret, bind_then_ret_snd.
    apply no_put_bounded; [apply drain_no_put|lia].
  - rewrite bind_snd.
    match goal with
    | |- context [pump ?a ?b ?c ?d ?e ?f ?g ?h] =>
        pose proof (pump_bounded a b c (num_workers self) d e f g h _ Hprime)
          as Hpump
    end.
    apply bounded_from_app; [exact Hpump|].
    apply bounded_from_end in Hpump.
    destruct (fst (pump _ _ _ _ _ _ _ _));
      try (apply bounded_from_nil; lia).
    rewrite bind_then_ret_snd.
    apply no_put_bounded; [apply drain_no_put|lia].
Qed.

Lemma run_items_no_put (tick : bool) (r : Z) (f : worker_fn)
  (all_args items : list pyval) :
  Forall (fun e => is_put e = false) (snd (run_items tick r f all_args items)).
Proof.
  induction items as [|item rest IH]; simpl; [constructor|].
  apply bind_Forall; [by repeat constructor|]. intros _.
  destruct (f item all_args); simpl; try constructor.
  apply bind_Forall; [by destruct tick; repeat constructor|]. intros _.
  apply bind_Forall; [done|]. intros; constructor.
Qed.

Lemma spawn_consumers_no_put (self : Vectorizer) (ranks : list Z) :
  Forall (fun e => is_put e = false /\ is_get e = false)
    (spawn_consumers self ranks).
Proof.
  induction ranks as [|i ranks IH]; simpl; [constructor|].
  constructor; [done|]. apply Forall_app. split; [|done].
  unfold _init_if_needed. destruct (worker_init self); by repeat constructor.
Qed.

Lemma call_shutdown_no_put (fn : shutdown) :
  Forall (fun e => is_put e = false) (call_shutdown fn).
Proof. by apply call_shutdown_Forall; intros []. Qed.

Lemma _process_consumers_bounded (self : Vectorizer) (items args : list pyval)
  (s : sched) :
  0 <= num_workers self ->
  bounded_from 0 (num_workers self) (log (_process_consumers self items args s)).
Proof.
  intros Hw. unfold _process_consumers. simpl. rewrite bind_emit. simpl.
  pose proof (spawn_consumers_no_put self (range (num_workers self))) as Hs.
  apply bounded_from_app.
  - apply no_put_bounded; [|done]. eapply Forall_impl; [done|by intros ? []].
  - rewrite (neutral_in_flight _ Hs). by apply dispatch_bounded.
Qed.

(** C6. In consumer mode the number of items in flight (put on the work
    queue by the main thread, result not yet taken from the result queue)
    never exceeds the number of workers, at any instant of the call and
    whatever the order in which the workers answer. *)
Theorem consumers_in_flight_bounded (self : Vectorizer) (items args : list pyval)
  (s : sched) :
  0 <= num_workers self ->
  in_flight_bounded (num_workers self)
    (log (process self (Stream items) args s)).
Proof.
  intros Hw. cut (bounded_from 0 (num_workers self)
                    (log (process self (Stream items) args s))).
  { intros H t1 t2 Heq. by apply (H t1 t2). }
  unfold process. destruct (num_workers self =? 0).
  - destruct (_init_if_needed _ _ _) as [v tr0] eqn:Hi. simpl.
    rewrite bind_emit. simpl. apply no_put_bounded; [|done].
    apply Forall_app. split; [|apply run_items_no_put].
    unfold _init_if_needed in Hi.
    destruct (worker_init self); simplify_eq; by repeat constructor.
  - pose proof (_process_consumers_bounded self items args s Hw) as Hb.
    destruct (_process_consumers self items args s) as [[res| |] self' tr];
      simpl in *; try done.
    destruct (_shutdown_fn self'); simpl; [|done].
    apply bounded_from_app; [done|].
    apply no_put_bounded; [apply call_shutdown_no_put|].
    by apply bounded_from_end in Hb.
Qed.

(** ** The shards of the batch mode *)

Lemma take_seqZ (off : Z) (k n : nat) :
  (k <= n)%nat -> take k (seqZ off (Z.of_nat n)) = seqZ off (Z.of_nat k).
Proof.
  intros Hk. replace (Z.of_nat n) with (Z.of_nat k + Z.of_nat (n - k)) by lia.
  rewrite seqZ_app by lia. apply take_app_length'.
  rewrite length_seqZ. lia.
Qed.

Lemma drop_seqZ (off : Z) (k n : nat) :
  (k <= n)%nat ->
  drop k (seqZ off (Z.of_nat n)) = seqZ (off + Z.of_nat k) (Z.of_nat (n - k)).
Proof.
  intros Hk. replace (Z.of_nat n) with (Z.of_nat k + Z.of_nat (n - k)) at 1
    by lia.
  rewrite seqZ_app by lia. apply drop_app_length'.
  rewrite length_seqZ. lia.
Qed.

Lemma last_seqZ (off : Z) (k : nat) :
  (1 <= k)%nat -> last (seqZ off (Z.of_nat k)) = Some (off + Z.of_nat k - 1).
Proof.
  destruct k as [|k]; [lia|]. intros _. rewrite seqZ_S, last_snoc.
  f_equal. lia.
Qed.

Lemma last_plus_one_chunks (sizes : list nat) (off : Z) (n : nat) :
  Forall (fun k => (1 <= k)%nat) sizes -> (sum_list sizes <= n)%nat ->
  last_plus_one (chunks sizes (seqZ off (Z.of_nat n))) =
  Returned (bounds_from off sizes).
Proof.
  intros Hpos. revert off n.
  induction Hpos as [|k sizes Hk _ IH]; intros off n Hsum; [done|].
  simpl in *. rewrite take_seqZ, drop_seqZ, last_seqZ, IH by lia.
  do 2 f_equal. lia.
Qed.

(** An empty section anywhere makes the comprehension raise. *)
Lemma last_plus_one_empty (splits : list (list Z)) :
  [] ∈ splits -> last_plus_one splits = Raised IndexError.
Proof.
  induction splits as [|a splits IH]; [by intros ?%elem_of_nil|].
  intros [<-|Hin]%elem_of_cons; [done|]. simpl.
  destruct (last a); [|done]. by rewrite IH.
Qed.

Lemma section_sizes_length (n k : nat) :
  (1 <= k)%nat -> length (section_sizes n k) = k.
Proof.
  intros Hk. unfold section_sizes. rewrite length_app, !length_replicate.
  pose proof (Nat.mod_upper_bound n k). lia.
Qed.

Lemma section_sizes_sum (n k : nat) :
  (1 <= k)%nat -> sum_list (section_sizes n k) = n.
Proof.
  intros Hk. unfold section_sizes.
  rewrite sum_list_with_app, !sum_list_replicate.
  pose proof (Nat.mod_upper_bound n k ltac:(lia)).
  pose proof (Nat.div_mod_eq n k). nia.
Qed.

Lemma section_sizes_lookup (n k : nat) :
  remainder_in_first_shards (section_sizes n k) n k.
Proof.
  intros i Hi. unfold section_sizes.
  pose proof (Nat.mod_upper_bound n k ltac:(lia)).
  destruct (Nat.ltb_spec i (n mod k)).
  - rewrite lookup_app_l by (rewrite length_replicate; lia).
    by apply lookup_replicate_2.
  - rewrite lookup_app_r by (rewrite length_replicate; lia).
    rewrite length_replicate. apply lookup_replicate_2. lia.
Qed.

Lemma section_sizes_pos (n k : nat) :
  (1 <= k <= n)%nat -> Forall (fun x => (1 <= x)%nat) (section_sizes n k).
Proof.
  intros Hk. unfold section_sizes.
  assert (1 <= n / k)%nat by (apply Nat.div_str_pos; lia).
  apply Forall_app. split; apply Forall_replicate; lia.
Qed.

Lemma batch_splits_returned (N W : Z) :
  1 <= W <= N ->
  batch_splits N W =
  Returned (0 :: bounds_from 0 (section_sizes (Z.to_nat N) (Z.to_nat W))).
Proof.
  intros H. unfold batch_splits, array_split, arange.
  destruct (Z.leb_spec W 0); [lia|].
  rewrite length_seqZ. rewrite <- (Z2Nat.id N) at 2 by lia.
  rewrite last_plus_one_chunks; [done| |].
  - apply section_sizes_pos. lia.
  - rewrite section_sizes_sum; lia.
Qed.

Lemma shards_of_bounds {A} (items : list A) (sizes : list nat) (off : nat) :
  shards_of items (Z.of_nat off :: bounds_from (Z.of_nat off) sizes) =
  chunks sizes (drop off items).
Proof.
  revert off. induction sizes as [|k sizes IH]; intros off; [done|].
  change (shards_of items
            (Z.of_nat off :: bounds_from (Z.of_nat off) (k :: sizes)))
    with (slice items (Z.of_nat off) (Z.of_nat off + Z.of_nat k) ::
          shards_of items (Z.of_nat off + Z.of_nat k ::
                           bounds_from (Z.of_nat off + Z.of_nat k) sizes)).
  rewrite <- Nat2Z.inj_add, IH. simpl. rewrite drop_drop. f_equal.
  unfold slice. rewrite !Nat2Z.id. f_equal. lia.
Qed.

Lemma concat_chunks {A} (sizes : list nat) (items : list A) :
  (length items <= sum_list sizes)%nat -> concat (chunks sizes items) = items.
Proof.
  revert items. induction sizes as [|k sizes IH]; intros items Hlen; simpl in *.
  - destruct items; [done|simpl in Hlen; lia].
  - rewrite IH; [apply take_drop|]. rewrite length_drop. lia.
Qed.

Lemma shards_of_lookup {A} (items : list A) (splits : list Z) (i : nat) (lo hi : Z) :
  splits !! i = Some lo -> splits !! S i = Some hi ->
  shards_of items splits !! i = Some (slice items lo hi).
Proof.
  revert i. induction splits as [|x splits IH]; intros i; [done|].
  destruct splits as [|y splits]; [by destruct i|].
  destruct i as [|i]; simpl.
  - by intros [= ->] [= ->].
  - intros H1 H2. by apply IH.
Qed.

Lemma shards_of_length {A} (items : list A) (splits : list Z) :
  length (shards_of items splits) = pred (length splits).
Proof.
  induction splits as [|x splits IH]; [done|].
  destruct splits as [|y splits]; [done|]. simpl in *. by rewrite IH.
Qed.

Lemma bounds_from_length (start : Z) (sizes : list nat) :
  length (bounds_from start sizes) = length sizes.
Proof.
  revert start. induction sizes as [|k sizes IH]; intros start; simpl;
    by rewrite ?IH.
Qed.

Lemma chunks_length {A} (sizes : list nat) (items : list A) :
  length (chunks sizes items) = length sizes.
Proof.
  revert items. induction sizes as [|k sizes IH]; intros items; simpl;
    by rewrite ?IH.
Qed.

Lemma chunks_lengths {A} (sizes : list nat) (items : list A) :
  (sum_list sizes <= length items)%nat ->
  map length (chunks sizes items) = sizes.
Proof.
  revert items. induction sizes as [|k sizes IH]; intros items Hlen; [done|].
  simpl in *. rewrite length_take, IH; [f_equal; lia|].
  rewrite length_drop. lia.
Qed.

Lemma bounds_from_last (start : Z) (sizes : list nat) :
  last (start :: bounds_from start sizes) = Some (start + Z.of_nat (sum_list sizes)).
Proof.
  revert start. induction sizes as [|k sizes IH]; intros start.
  - simpl. f_equal. lia.
  - change (bounds_from start (k :: sizes))
      with (start + Z.of_nat k :: bounds_from (start + Z.of_nat k) sizes).
    rewrite last_cons_cons, IH. f_equal. simpl. lia.
Qed.

(** The shards for at least as many items as workers. *)
Lemma batch_splits_shards (items : list pyval) (W : Z) :
  1 <= W <= Z.of_nat (length items) ->
  let n := length items in
  let k := Z.to_nat W in
  exists splits,
    batch_splits (Z.of_nat n) W = Returned splits /\
    head splits = Some 0 /\
    last splits = Some (Z.of_nat n) /\
    length (shards_of items splits) = k /\
    concat (shards_of items splits) = items /\
    remainder_in_first_shards (map length (shards_of items splits)) n k /\
    Forall (fun shard => shard <> []) (shards_of items splits).
Proof.
  intros HW n k. eexists. split; [by apply batch_splits_returned|].
  rewrite Nat2Z.id. fold n k.
  assert (1 <= k)%nat as Hk by lia.
  pose proof (section_sizes_sum n k Hk) as Hsum.
  change 0 with (Z.of_nat 0).
  rewrite shards_of_bounds, drop_0, chunks_length, section_sizes_length by done.
  rewrite bounds_from_last, Hsum, concat_chunks, chunks_lengths
    by (rewrite ?Hsum; done).
  repeat split; try done.
  - apply section_sizes_lookup.
  - assert (Forall (fun x => (1 <= x)%nat)
              (map length (chunks (section_sizes n k) items))) as Hpos.
    { rewrite chunks_lengths by (rewrite Hsum; done).
      apply section_sizes_pos. lia. }
    rewrite List.Forall_map in Hpos. eapply Forall_impl; [exact Hpos|].
    intros [|] ?; simpl in *; [lia|done].
Qed.

(** C3, as the code has it. For [W] workers and an indexable input of [N]
    items with [1 <= W <= N], the boundaries computed by [_process_batches]
    start at 0 and end at [N], and cut the input into [W] contiguous
    shards, in rank order, that together are the input: the first
    [N mod W] shards have [N div W + 1] items and the others [N div W], so
    the sizes differ by at most one and no shard is empty. *)
Theorem batch_shards (items : list pyval) (W : Z) :
  1 <= W <= Z.of_nat (length items) ->
  let n := length items in
  let k := Z.to_nat W in
  exists splits,
    batch_splits (Z.of_nat n) W = Returned splits /\
    head splits = Some 0 /\
    last splits = Some (Z.of_nat n) /\
    length (shards_of items splits) = k /\
    concat (shards_of items splits) = items /\
    remainder_in_first_shards (map length (shards_of items splits)) n k /\
    Forall (fun shard => shard <> []) (shards_of items splits).
Proof. apply batch_splits_shards. Qed.

(** ** The batch mode on a worker function that returns *)

Lemma run_items_returned (tick : bool) (r : Z) (f : worker_fn)
  (all_args items : list pyval) (g : pyval -> pyval) :
  (forall item, item ∈ items -> f item all_args = Returned (g item)) ->
  fst (run_items tick r f all_args items) = Returned (map g items) /\
  count is_tick (snd (run_items tick r f all_args items)) =
    (if tick then length items else O) /\
  count is_callback (snd (run_items tick r f all_args items)) = O.
Proof.
  induction items as [|item rest IH]; intros Hg; simpl.
  { by destruct tick. }
  rewrite bind_emit. simpl. rewrite (Hg item) by set_solver.
  rewrite bind_emit. simpl.
  rewrite bind_then_ret_fst, bind_then_ret_snd.
  destruct IH as (-> & IH2 & IH3); [set_solver|].
  rewrite !count_cons, !count_app, IH2, IH3. by destruct tick.
Qed.

Lemma tick_loop_returned (n ticks : nat) :
  (n <= ticks)%nat -> tick_loop n ticks = (Returned tt, replicate n ECallback).
Proof.
  revert ticks. induction n as [|n IH]; intros ticks Hn; [done|].
  destruct ticks as [|ticks]; [lia|]. simpl.
  rewrite bind_emit, IH by lia. done.
Qed.

Lemma tick_loop_blocked (n ticks : nat) :
  (ticks < n)%nat -> fst (tick_loop n ticks) = Blocked.
Proof.
  revert ticks. induction n as [|n IH]; intros ticks Hn; [lia|].
  destruct ticks as [|ticks]; [done|]. simpl.
  rewrite bind_emit. simpl. apply IH. lia.
Qed.

Lemma gather_returned (bundles : list (list pyval)) :
  gather (map Some bundles) = (Returned (concat bundles), []).
Proof.
  induction bundles as [|b bundles IH]; [done|]. simpl. by rewrite IH.
Qed.

Lemma count_replicate_callback (n : nat) :
  count is_callback (replicate n ECallback) = n.
Proof. induction n as [|n IH]; [done|]. simpl. rewrite count_cons, IH. done. Qed.

Section batches_returned.
Variable self : Vectorizer.
Variable args : list pyval.
Variable items : list pyval.
Variable g : pyval -> pyval.

Let aa (r : Z) := all_args_of (worker_init self) (init_kwargs self) args r.

(** On the items of the input the worker function returns, with a result
    that does not depend on the worker that calls it. *)
Hypothesis Hg :
  forall r item, 0 <= r < num_workers self -> item ∈ items ->
    worker_func self item (aa r) = Returned (g item).

Lemma _batch_worker_returned r lo hi :
  0 <= r < num_workers self ->
  let m := _batch_worker (has_callback self) r (worker_func self)
             (worker_init self) (init_kwargs self) (slice items lo hi) args in
  fst m = Returned (map g (slice items lo hi)) /\
  count is_tick (snd m) =
    (if has_callback self then length (slice items lo hi) else O) /\
  count is_callback (snd m) = O.
Proof.
  intros Hr. unfold _batch_worker.
  pose proof (run_items_returned (has_callback self) r (worker_func self)
                (aa r) (slice items lo hi) g) as H.
  pose proof (Hg r) as Hgr. unfold aa, all_args_of in H, Hgr.
  destruct (_init_if_needed (worker_init self) r (init_kwargs self))
    as [v tr0] eqn:Hi. simpl in *.
  rewrite bind_emit. simpl.
  destruct H as (-> & H2 & H3).
  { intros item Hin. apply Hgr; [done|].
    unfold slice in Hin. by apply subseteq_take, subseteq_drop in Hin. }
  rewrite !count_app, H2, H3.
  unfold _init_if_needed in Hi. destruct (worker_init self); by simplify_eq.
Qed.

Lemma spawn_batches_returned splits m j :
  (j + m < length splits)%nat ->
  Z.of_nat (j + m) <= num_workers self ->
  let shards := take m (drop j (shards_of items splits)) in
  let run := spawn_batches self splits items args
               (seqZ (Z.of_nat j) (Z.of_nat m)) in
  fst run = Returned (map (fun shard => Some (map g shard)) shards) /\
  count is_tick (snd run) =
    (if has_callback self then length (concat shards) else O) /\
  count is_callback (snd run) = O.
Proof.
  revert j. induction m as [|m IH]; intros j Hlen Hw.
  { simpl. by destruct (has_callback self). }
  rewrite seqZ_cons by lia.
  replace (Z.succ (Z.of_nat j)) with (Z.of_nat (S j)) by lia.
  replace (Z.pred (Z.of_nat (S m))) with (Z.of_nat m) by lia.
  destruct (lookup_lt_is_Some_2 splits j ltac:(lia)) as [lo Hlo].
  destruct (lookup_lt_is_Some_2 splits (S j) ltac:(lia)) as [hi Hhi].
  pose proof (shards_of_lookup items _ _ _ _ Hlo Hhi) as Hshard.
  intros shards run. subst shards run.
  rewrite (drop_S _ _ _ Hshard). simpl.
  unfold index_list. rewrite Nat2Z.id, Hlo, bind_ret.
  replace (Z.to_nat (Z.of_nat j + 1)) with (S j) by lia.
  rewrite Hhi, bind_ret, bind_emit. simpl.
  fold (has_callback self).
  destruct (_batch_worker_returned (Z.of_nat j) lo hi ltac:(lia))
    as (Hw1 & Hw2 & Hw3).
  destruct (_batch_worker _ _ _ _ _ _ _) as [o tr]. simpl in *. subst o.
  rewrite bind_emit. simpl.
  rewrite bind_then_ret_fst, bind_then_ret_snd.
  destruct (IH (S j) ltac:(lia) ltac:(lia)) as (-> & IH2 & IH3).
  rewrite !count_cons, !count_app, Hw2, Hw3, IH2, IH3, length_app. simpl.
  by destruct (has_callback self).
Qed.

Lemma _process_batches_returned :
  1 <= num_workers self <= Z.of_nat (length items) ->
  let r := _process_batches self items args in
  out r = Returned (map g items) /\
  obj r = set_shutdown
            (Some (ShutdownBatches (range (num_workers self)))) self /\
  count is_callback (log r) =
    (if has_callback self then length items else O).
Proof.
  intros HW.
  destruct (batch_splits_shards items (num_workers self) HW)
    as (splits & Hs & _ & _ & Hlen & Hcat & _).
  unfold _process_batches. rewrite Hs.
  pose proof (shards_of_length items splits) as Hlen'.
  destruct (spawn_batches_returned splits (Z.to_nat (num_workers self)) 0)
    as (H1 & H2 & H3); [lia|lia|].
  rewrite drop_0, take_ge, Hcat in * by lia. simpl in H1, H2, H3.
  rewrite Z2Nat.id in * by lia. fold (range (num_workers self)) in *.
  destruct (spawn_batches _ _ _ _ _) as [o tr]. simpl in *. subst o.
  rewrite bind_emit. simpl. rewrite <- map_map, gather_returned.
  unfold has_callback in *.
  destruct (callback_func self) as [cb|]; simpl in *.
  - rewrite tick_loop_returned by lia. rewrite bind_eq. simpl.
    rewrite <- concat_map, Hcat, app_nil_r.
    rewrite !count_app, H3, count_replicate_callback. done.
  - rewrite <- concat_map, Hcat, ?app_nil_r. done.
Qed.
End batches_returned.

(** ** Sorting the results by index *)

Lemma insert_by_key_perm (x : Z * pyval) (l : list (Z * pyval)) :
  insert_by_key x l ≡ₚ x :: l.
Proof.
  induction l as [|y l IH]; [done|]. simpl.
  destruct (fst x <=? fst y); [done|]. rewrite IH. apply Permutation_swap.
Qed.

Lemma sorted_by_key_perm (l : list (Z * pyval)) : sorted_by_key l ≡ₚ l.
Proof.
  induction l as [|x l IH]; [done|]. simpl.
  by rewrite insert_by_key_perm, IH.
Qed.

Lemma insert_by_key_sorted (x : Z * pyval) (l : list (Z * pyval)) :
  StronglySorted key_le l -> StronglySorted key_le (insert_by_key x l).
Proof.
  induction 1 as [|y l Hl IH Hy]; simpl.
  { repeat constructor. }
  destruct (Z.leb_spec (fst x) (fst y)).
  - constructor; [by constructor|]. constructor; [done|].
    eapply Forall_impl; [done|]. unfold key_le. intros; simpl in *. lia.
  - constructor; [done|]. rewrite insert_by_key_perm.
    constructor; [unfold key_le; lia|done].
Qed.

Lemma sorted_by_key_sorted (l : list (Z * pyval)) :
  StronglySorted key_le (sorted_by_key l).
Proof.
  induction l as [|x l IH]; [constructor|]. by apply insert_by_key_sorted.
Qed.

Lemma enumerate_from_fst (i : Z) (items : list pyval) :
  map fst (enumerate_from i items) = seqZ i (Z.of_nat (length items)).
Proof.
  revert i. induction items as [|x items IH]; intros i; [done|].
  simpl length. rewrite seqZ_cons by lia. simpl. rewrite IH.
  do 2 f_equal; lia.
Qed.

Lemma enumerate_from_snd (i : Z) (items : list pyval) :
  map snd (enumerate_from i items) = items.
Proof.
  revert i. induction items as [|x items IH]; intros i; simpl; by rewrite ?IH.
Qed.

Lemma enumerate_from_app (i : Z) (l1 l2 : list pyval) :
  enumerate_from i (l1 ++ l2) =
  enumerate_from i l1 ++ enumerate_from (i + Z.of_nat (length l1)) l2.
Proof.
  revert i. induction l1 as [|x l1 IH]; intros i; simpl.
  - f_equal. lia.
  - rewrite IH. do 3 f_equal. lia.
Qed.

Lemma enumerate_from_sorted (g : pyval -> pyval) (i : Z) (items : list pyval) :
  StronglySorted key_le (map (tag g) (enumerate_from i items)) /\
  Forall (fun x => i <= fst x) (map (tag g) (enumerate_from i items)).
Proof.
  revert i. induction items as [|x items IH]; intros i; simpl.
  { split; constructor. }
  destruct (IH (i + 1)) as [IH1 IH2]. split.
  - constructor; [done|]. eapply Forall_impl; [done|].
    unfold key_le. intros; simpl in *. lia.
  - constructor; [simpl; lia|]. eapply Forall_impl; [done|].
    intros; simpl in *. lia.
Qed.

Lemma enumerate_from_key_inj (g : pyval -> pyval) (i : Z) (items : list pyval)
  (x y : Z * pyval) :
  x ∈ map (tag g) (enumerate_from i items) ->
  y ∈ map (tag g) (enumerate_from i items) ->
  fst x = fst y -> x = y.
Proof.
  revert i. induction items as [|z items IH]; intros i; simpl.
  { by intros ?%elem_of_nil. }
  destruct (enumerate_from_sorted g (i + 1) items) as [_ Hlow].
  rewrite Forall_forall in Hlow.
  intros [->|Hx]%elem_of_cons [->|Hy]%elem_of_cons Heq; try done.
  - apply Hlow in Hy. simpl in *. lia.
  - apply Hlow in Hx. simpl in *. lia.
  - by eapply IH.
Qed.

(** Sorting any arrival order of the tagged results gives them back in the
    order of the input. *)
Lemma sorted_by_key_enumerate (g : pyval -> pyval) (items : list pyval)
  (l : list (Z * pyval)) :
  l ≡ₚ map (tag g) (enumerate_from 0 items) ->
  map snd (sorted_by_key l) = map g items.
Proof.
  intros Hperm.
  assert (sorted_by_key l = map (tag g) (enumerate_from 0 items)) as ->.
  { apply (StronglySorted_unique_strong key_le).
    - intros x1 x2 H1 H2 Hle1 Hle2.
      rewrite sorted_by_key_perm, Hperm in H1.
      eapply enumerate_from_key_inj; [done..|]. unfold key_le in *. lia.
    - apply sorted_by_key_sorted.
    - apply enumerate_from_sorted.
    - by rewrite sorted_by_key_perm. }
  rewrite map_map. simpl. rewrite <- (map_map snd g), enumerate_from_snd. done.
Qed.

(** ** The consumer mode on a worker function that returns *)

Lemma spawn_consumers_no_callback (self : Vectorizer) (ranks : list Z) :
  count is_callback (spawn_consumers self ranks) = O.
Proof.
  induction ranks as [|i ranks IH]; [done|]. simpl.
  unfold _init_if_needed. destruct (worker_init self); counts; done.
Qed.

Section consumers_returned.
Variable self : Vectorizer.
Variable args : list pyval.
Variable items : list pyval.
Variable g : pyval -> pyval.
Variable s : sched.

Let aa (r : Z) := all_args_of (worker_init self) (init_kwargs self) args r.

Hypothesis Hg :
  forall r item, 0 <= r < num_workers self -> item ∈ items ->
    worker_func self item (aa r) = Returned (g item).
Hypothesis HW : 1 <= num_workers self.

Local Abbreviation pool_ok := (pool_ok self items).
Local Abbreviation inv := (consumer_inv self items g).

Lemma push_ok x p : pool_ok p -> snd x ∈ items -> pool_ok (push x p).
Proof.
  intros [Hl Hi] Hx. split; [done|]. simpl. apply Forall_app.
  split; [done|by constructor].
Qed.

Lemma get_returned p :
  pool_ok p -> inflight p <> [] ->
  exists i idx item tr p',
    inflight p !! i = Some (idx, item) /\
    get self args s p = (Returned ((idx, g item), p'), tr) /\
    inflight p' = delete i (inflight p) /\
    pool_ok p' /\
    count is_callback tr = O.
Proof.
  intros [Hl Hi] Hne. unfold get.
  destruct (inflight p) as [|x0 infl] eqn:Hinfl; [done|]. clear Hne.
  simpl length. rewrite pull_get_S. cbv zeta. rewrite Hinfl. simpl length.
  set (i := (next_item s (clock p) mod S (length infl))%nat).
  set (j := (next_worker s (clock p) mod length (live p))%nat).
  assert (i < length (x0 :: infl))%nat as Hi_lt.
  { simpl. apply Nat.mod_upper_bound. lia. }
  assert (j < length (live p))%nat as Hj_lt.
  { apply Nat.mod_upper_bound. rewrite Hl. unfold range.
    rewrite length_seqZ. lia. }
  destruct (lookup_lt_is_Some_2 _ _ Hi_lt) as [[idx item] Hlk].
  destruct (lookup_lt_is_Some_2 _ _ Hj_lt) as [r Hr].
  rewrite Hlk, Hr.
  assert (0 <= r < num_workers self) as Hr_ok.
  { rewrite Hl in Hr. unfold range in Hr. apply lookup_seqZ in Hr. lia. }
  assert (item ∈ items) as Hitem.
  { eapply (Forall_lookup_1 _ _ _ _ Hi) in Hlk. done. }
  rewrite bind_emit. simpl.
  fold (aa r). rewrite (Hg r item Hr_ok Hitem).
  rewrite bind_emit. simpl.
  eexists i, idx, item, _, _. repeat split; try done.
  simpl. by apply Forall_delete.
Qed.
Lemma call_callback_eq :
  call_callback self =
  (Returned tt, if has_callback self then [ECallback] else []).
Proof.
  unfold call_callback, has_callback. by destruct (callback_func self).
Qed.

Lemma inv_put dispatched item rest index expect result p :
  inv dispatched (item :: rest) index expect result p ->
  inv (dispatched ++ [item]) rest (index + 1) (expect + 1) result
    (push (index, item) p).
Proof.
  intros (Hitems & Hidx & Hexp & Hperm & Hok).
  split; [by rewrite <- app_assoc|].
  split; [rewrite length_app; simpl; lia|].
  split; [simpl; rewrite length_app; simpl; lia|].
  split.
  - simpl. rewrite enumerate_from_app, !map_app, app_assoc, Hperm. simpl.
    by rewrite Hidx.
  - apply push_ok; [done|]. simpl. rewrite Hitems. set_solver.
Qed.

Lemma inv_got dispatched rest index expect result p i idx item p' :
  inv dispatched rest index expect result p ->
  inflight p !! i = Some (idx, item) ->
  inflight p' = delete i (inflight p) -> pool_ok p' ->
  inv dispatched rest index (expect - 1) (result ++ [(idx, g item)]) p'.
Proof.
  intros (Hitems & Hidx & Hexp & Hperm & Hok) Hlk Hdel Hok'.
  repeat split; try done; try apply Hok'.
  - rewrite Hdel, length_delete by eauto.
    apply lookup_lt_Some in Hlk. lia.
  - rewrite <- Hperm, Hdel, <- app_assoc. apply Permutation_app_head.
    rewrite (delete_Permutation _ _ _ Hlk) at 2. done.
Qed.

Lemma prime_returned n dispatched st :
  inv dispatched (iterator st) (index st) (expect st) (result st)
    (workers st) ->
  exists st' b dispatched' tr,
    prime n st = (Returned (st', b), tr) /\
    inv dispatched' (iterator st') (index st') (expect st') (result st')
      (workers st') /\
    result st' = result st /\
    count is_callback tr = O /\
    (b = true -> iterator st' = []) /\
    (b = false ->
     length (inflight (workers st')) =
     (length (inflight (workers st)) + n)%nat).
Proof.
  revert dispatched st. induction n as [|n IH]; intros dispatched st Hinv.
  { simpl. eexists st, false, dispatched, []. split_and!; try done.
    all: intros _; lia. }
  simpl. destruct (iterator st) as [|item rest] eqn:Hit.
  { eexists st, true, dispatched, []. rewrite Hit. by split_and!. }
  apply inv_put in Hinv.
  destruct (IH _ {| iterator := rest; index := index st + 1;
                    expect := expect st + 1; result := result st;
                    workers := push (index st, item) (workers st) |} Hinv)
    as (st' & b & dispatched' & tr & Hp & Hinv' & Hres & Hcb & Hb1 & Hb2).
  rewrite bind_emit, Hp. simpl.
  eexists st', b, dispatched', _. split_and!; try done.
  intros Hb. rewrite (Hb2 Hb). simpl. rewrite length_app. simpl. lia.
Qed.
Lemma pump_returned rest dispatched ix ex res p :
  inv dispatched rest ix ex res p -> inflight p <> [] ->
  exists st' tr,
    pump self args s rest ix ex res p = (Returned st', tr) /\
    inv items [] (index st') (expect st') (result st') (workers st') /\
    (length res <= length (result st'))%nat /\
    count is_callback tr =
      (if has_callback self
       then length (result st') - length res else O)%nat.
Proof.
  revert dispatched ix ex res p.
  induction rest as [|item rest IH];
    intros dispatched ix ex res p Hinv Hne;
    destruct (get_returned p ltac:(apply Hinv) Hne)
      as (i & idx & it & tr1 & p' & Hlk & Hget & Hdel & Hok' & Hcb1);
    pose proof (inv_got _ _ _ _ _ _ _ _ _ _ Hinv Hlk Hdel Hok') as Hinv';
    simpl; rewrite Hget, bind_eq, call_callback_eq, bind_eq; simpl.
  - eexists _, _. split; [done|]. simpl.
    destruct Hinv as (Hitems & _). rewrite app_nil_r in Hitems.
    subst dispatched. split; [done|].
    rewrite length_app. simpl.
    split; [lia|]. destruct (has_callback self); counts; lia.
  - apply inv_put in Hinv'.
    destruct (IH _ _ _ _ _ Hinv') as (st' & tr & Hp & Hinv'' & Hlen & Hcb).
    { simpl. by destruct (inflight p'). }
    rewrite bind_emit, Hp. simpl.
    eexists _, _. split; [done|]. split; [done|].
    rewrite length_app in Hlen, Hcb. simpl in Hlen, Hcb.
    split; [lia|]. destruct (has_callback self); counts; lia.
Qed.

Lemma drain_returned n ix ex res p :
  inv items [] ix ex res p -> n = length (inflight p) ->
  exists result' tr,
    drain self args s n res p = (Returned result', tr) /\
    result' ≡ₚ map (tag g) (enumerate_from 0 items) /\
    (length res <= length result')%nat /\
    count is_callback tr =
      (if has_callback self then length result' - length res else O)%nat.
Proof.
  revert ix ex res p.
  induction n as [|n IH]; intros ix ex res p Hinv Hn.
  - simpl. eexists _, _. split; [done|].
    destruct Hinv as (_ & _ & _ & Hperm & _).
    destruct (inflight p); [|done]. simpl in Hperm.
    rewrite app_nil_r in Hperm. split; [done|].
    split; [done|]. rewrite Nat.sub_diag. by destruct (has_callback self).
  - destruct (get_returned p ltac:(apply Hinv))
      as (i & idx & it & tr1 & p' & Hlk & Hget & Hdel & Hok' & Hcb1).
    { intros Hnil. by rewrite Hnil in Hn. }
    pose proof (inv_got _ _ _ _ _ _ _ _ _ _ Hinv Hlk Hdel Hok') as Hinv'.
    destruct (IH _ _ _ _ Hinv') as (result' & tr & Hd & Hperm & Hlen & Hcb).
    { rewrite Hdel, length_delete by eauto. lia. }
    simpl. rewrite Hget, bind_eq, call_callback_eq, bind_eq. simpl.
    rewrite Hd. simpl.
    eexists _, _. split; [done|]. split; [done|].
    rewrite length_app in Hlen, Hcb. simpl in Hlen, Hcb.
    split; [lia|]. destruct (has_callback self); counts; lia.
Qed.

Lemma dispatch_returned :
  exists tr,
    dispatch self items args s = (Returned (map g items), tr) /\
    count is_callback tr = (if has_callback self then length items else O).
Proof.
  unfold dispatch.
  set (st0 := {| iterator := items; index := 0; expect := 0; result := [];
                 workers := {| inflight := [];
                               live := range (num_workers self);
                               clock := O |} |}).
  assert (inv [] (iterator st0) (index st0) (expect st0) (result st0)
            (workers st0)) as Hinv0.
  { by split_and!. }
  destruct (prime_returned (Z.to_nat (num_workers self)) _ _ Hinv0)
    as (st1 & b & dispatched & tr1 & Hp & Hinv1 & Hres1 & Hcb1 & Hb1 & Hb2).
  rewrite Hp, bind_eq. simpl.
  assert (exists st2 tr2,
    (if b then ret st1
     else pump self args s (iterator st1) (index st1) (expect st1)
            (result st1) (workers st1)) = (Returned st2, tr2) /\
    inv items [] (index st2) (expect st2) (result st2) (workers st2) /\
    count is_callback tr2 =
      (if has_callback self then length (result st2) else O))
    as (st2 & tr2 & Hstep & Hinv2 & Hcb2).
  { destruct b.
    - eexists st1, []. split; [done|].
      specialize (Hb1 eq_refl). rewrite Hb1 in Hinv1.
      destruct Hinv1 as (Hitems & Hrest). rewrite app_nil_r in Hitems.
      subst dispatched. split; [split; [by rewrite app_nil_r|done]|].
      rewrite Hres1. by destruct (has_callback self).
    - destruct (pump_returned _ _ _ _ _ _ Hinv1)
        as (st2 & tr2 & Hpump & Hinv2 & Hlen & Hcb).
      { specialize (Hb2 eq_refl). simpl in Hb2.
        destruct (inflight (workers st1)); [simpl in Hb2; lia|done]. }
      eexists st2, tr2. split; [done|]. split; [done|].
      rewrite Hcb, Hres1. simpl. by rewrite Nat.sub_0_r. }
  rewrite Hstep, bind_eq. simpl.
  destruct (drain_returned (Z.to_nat (expect st2)) _ _ _ _ Hinv2)
    as (result' & tr3 & Hd & Hperm & Hlen & Hcb3).
  { destruct Hinv2 as (_ & _ & -> & _). lia. }
  rewrite Hd, bind_eq. simpl.
  rewrite (sorted_by_key_enumerate g items result' Hperm).
  eexists. split; [done|].
  rewrite !count_app, Hcb1, Hcb2, Hcb3. simpl.
  apply Permutation_length in Hperm.
  rewrite length_map in Hperm.
  assert (length (enumerate_from 0 items) = length items) as Hlen'.
  { by rewrite <- (length_map snd), enumerate_from_snd. }
  rewrite count_nil. destruct (has_callback self); lia.
Qed.

Lemma _process_consumers_returned :
  let r := _process_consumers self items args s in
  out r = Returned (map g items) /\
  obj r = set_shutdown
            (Some (ShutdownConsumers (range (num_workers self)))) self /\
  count is_callback (log r) =
    (if has_callback self then length items else O).
Proof.
  destruct dispatch_returned as (tr & Hd & Hcb).
  unfold _process_consumers. simpl. rewrite bind_emit, Hd. simpl.
  split_and!; try done.
  by rewrite count_app, Hcb, spawn_consumers_no_callback.
Qed.
End consumers_returned.

(** ** process on a worker function that returns *)

Lemma terminated_call_shutdown (fn : shutdown) :
  terminated_ranks (call_shutdown fn) =
  match fn with ShutdownBatches ps | ShutdownConsumers ps => ps end.
Proof.
  assert (forall ps, terminated_ranks (terminate ps) = ps) as Hterm.
  { induction ps; simpl; by f_equal. }
  destruct fn as [ps|ps]; unfold call_shutdown.
  - apply Hterm.
  - unfold _shutdown_consumers. rewrite terminated_ranks_app, Hterm.
    assert (terminated_ranks (map (fun _ => ESentinel) ps) = []) as ->
      by (induction ps; simpl; done).
    done.
Qed.

Lemma count_call_shutdown (fn : shutdown) :
  count is_callback (call_shutdown fn) = O.
Proof.
  assert (forall ps, count is_callback (terminate ps) = O) as Hterm.
  { induction ps as [|x ps IH]; [done|]. simpl. by rewrite count_cons, IH. }
  destruct fn as [ps|ps]; unfold call_shutdown.
  - unfold _shutdown_batches. by rewrite count_cons, Hterm.
  - unfold _shutdown_consumers. rewrite count_app, Hterm.
    induction ps as [|x ps IH]; [done|]. simpl. rewrite count_cons. simpl.
    lia.
Qed.

Section process_returned.
Variable self : Vectorizer.
Variable args : list pyval.
Variable g : pyval -> pyval.
Variable s : sched.

Let aa (r : Z) := all_args_of (worker_init self) (init_kwargs self) args r.

(** With at least one worker and, for an indexable input, at least as
    many items as workers, [process] returns the results in input order
    and has called the callback once per item. *)
Lemma process_workers_returned (items : iterable) :
  (forall r item, 0 <= r < num_workers self -> item ∈ contents items ->
     worker_func self item (aa r) = Returned (g item)) ->
  1 <= num_workers self ->
  (forall l, items = Indexable l -> num_workers self <= Z.of_nat (length l)) ->
  let r := process self items args s in
  out r = Returned (map g (contents items)) /\
  obj r = set_shutdown None self /\
  count is_callback (log r) =
    (if has_callback self then length (contents items) else O).
Proof.
  intros Hg HW Hlen. unfold process.
  destruct (Z.eqb_spec (num_workers self) 0); [lia|].
  destruct items as [l|l]; cbn [contents] in *.
  - destruct (_process_batches_returned self args l g Hg)
      as (Hout & Hobj & Hcb); [split; [done|by apply Hlen]|].
    destruct (_process_batches self l args) as [o self' tr]. simpl in *.
    subst o self'. simpl. split_and!; try done.
    change (_shutdown_batches ?ps) with (call_shutdown (ShutdownBatches ps)).
    by rewrite count_app, Hcb, count_call_shutdown, Nat.add_0_r.
  - destruct (_process_consumers_returned self args l g s Hg HW)
      as (Hout & Hobj & Hcb).
    destruct (_process_consumers self l args s) as [o self' tr]. simpl in *.
    subst o self'. simpl. split_and!; try done.
    change (_shutdown_consumers ?ps)
      with (call_shutdown (ShutdownConsumers ps)).
    by rewrite count_app, Hcb, count_call_shutdown, Nat.add_0_r.
Qed.

(** The sequential mode returns the results in input order. *)
Lemma process_sequential_returned (items : iterable) :
  (forall item, item ∈ contents items ->
     worker_func self item (aa 0) = Returned (g item)) ->
  num_workers self = 0 ->
  let r := process self items args s in
  out r = Returned (map g (contents items)) /\ obj r = self.
Proof.
  intros Hg HW. unfold process. rewrite HW. simpl.
  pose proof (run_items_returned false 0 (worker_func self) (aa 0)
                (contents items) g Hg) as (H & _).
  unfold aa, all_args_of in H.
  destruct (_init_if_needed _ _ _) as [v tr0]. simpl in *.
  by rewrite bind_emit, H.
Qed.
End process_returned.

(** C7, as the code has it. For at least one worker and an indexable input
    with at least as many items as workers, when the worker function
    returns on every item a result that does not depend on the rank of the
    worker that calls it (as it does when no init function is configured),
    the batch mode and the consumer mode return the same list, whatever the
    order in which the workers answer: the results in input order. *)
Theorem batches_consumers_agree (self : Vectorizer) (items args : list pyval)
  (g : pyval -> pyval) (s : sched) :
  1 <= num_workers self <= Z.of_nat (length items) ->
  (forall r item, 0 <= r < num_workers self -> item ∈ items ->
     worker_func self item
       (all_args_of (worker_init self) (init_kwargs self) args r) =
     Returned (g item)) ->
  out (process self (Indexable items) args s) = Returned (map g items) /\
  out (process self (Stream items) args s) = Returned (map g items).
Proof.
  intros [HW HN] Hg. split.
  - apply (process_workers_returned self args g s (Indexable items));
      try done. by intros l [= <-].
  - by apply (process_workers_returned self args g s (Stream items)).
Qed.

(** ** More workers than items *)

Lemma chunks_empty {A} (sizes : list nat) (ary : list A) :
  O ∈ sizes -> [] ∈ chunks sizes ary.
Proof.
  revert ary. induction sizes as [|k sizes IH]; intros ary.
  { by intros ?%elem_of_nil. }
  intros [<-|Hin]%elem_of_cons; simpl; [left|right; by apply IH].
Qed.

Lemma batch_splits_short (N W : Z) :
  0 <= N < W -> batch_splits N W = Raised IndexError.
Proof.
  intros H. unfold batch_splits, array_split.
  destruct (Z.leb_spec W 0); [lia|].
  rewrite last_plus_one_empty; [done|]. apply chunks_empty.
  unfold section_sizes, arange. rewrite length_seqZ.
  rewrite Nat.div_small, Nat.mod_small by lia.
  apply elem_of_app. right.
  replace (Z.to_nat W - Z.to_nat N)%nat
    with (S (Z.to_nat W - Z.to_nat N - 1)) by lia.
  left.
Qed.

(** With more workers than items the batch mode raises while it computes
    the shard boundaries: nothing is started and nothing is returned. *)
Lemma process_fewer_items_than_workers (self : Vectorizer)
  (items args : list pyval) (s : sched) :
  Z.of_nat (length items) < num_workers self ->
  process self (Indexable items) args s = Run (Raised IndexError) self [].
Proof.
  intros H. unfold process.
  destruct (Z.eqb_spec (num_workers self) 0); [lia|].
  unfold _process_batches. rewrite batch_splits_short by lia. done.
Qed.

(** C1, where the code departs from it. For the one-item list [[3]] and two
    workers, [process] raises [IndexError] (the last of the two index
    arrays is empty), where the sequential map of the worker function
    gives [[9]]. *)
Theorem process_one_item_two_workers (s : sched) :
  out (process two_squarers (Indexable [PInt 3]) [] s) = Raised IndexError /\
  out (process main_squarer (Indexable [PInt 3]) [] s) = Returned [PInt 9].
Proof. done. Qed.

(** ** The callback in sequential mode *)

Lemma run_items_no_callback (tick : bool) (r : Z) (f : worker_fn)
  (all_args items : list pyval) :
  count is_callback (snd (run_items tick r f all_args items)) = O.
Proof.
  induction items as [|item rest IH]; simpl; [done|].
  rewrite bind_emit. simpl. rewrite count_cons. simpl.
  destruct (f item all_args); simpl; try done.
  rewrite bind_emit. simpl. rewrite bind_then_ret_snd, count_app, IH.
  by destruct tick.
Qed.

(** With no worker the callback is never called, however many items. *)
Lemma process_sequential_no_callback (self : Vectorizer) (items : iterable)
  (args : list pyval) (s : sched) :
  num_workers self = 0 ->
  count is_callback (log (process self items args s)) = O.
Proof.
  intros HW. unfold process. rewrite HW. simpl.
  destruct (_init_if_needed _ _ _) as [v tr0] eqn:Hi. simpl.
  rewrite bind_emit. simpl. rewrite count_app, run_items_no_callback.
  unfold _init_if_needed in Hi. destruct (worker_init self); by simplify_eq.
Qed.

(** C2, where the code departs from it. With a callback configured and no
    worker, [process] over the three items [[1; 2; 3]] returns the three
    results and has not called the callback once; with one worker the same
    call has called it three times. *)
Theorem process_sequential_callback_count (s : sched) :
  out (process main_squarer_cb (Indexable [PInt 1; PInt 2; PInt 3]) [] s) =
    Returned [PInt 1; PInt 4; PInt 9] /\
  count is_callback
    (log (process main_squarer_cb (Indexable [PInt 1; PInt 2; PInt 3]) [] s))
    = O /\
  out (process one_squarer_cb (Indexable [PInt 1; PInt 2; PInt 3]) [] s) =
    Returned [PInt 1; PInt 4; PInt 9] /\
  count is_callback
    (log (process one_squarer_cb (Indexable [PInt 1; PInt 2; PInt 3]) [] s))
    = 3%nat.
Proof. done. Qed.

(** ** Tuples returned by the init function *)

(** C10, as the code has it. A tuple returned by the init function is
    spread: its elements become the trailing arguments of every call. A
    value that is neither [None] nor a tuple becomes one trailing argument.
    A returned tuple is therefore never passed as one argument itself; an
    init function supplies a single tuple-valued argument by returning it
    wrapped in a one-element tuple. *)
Theorem init_tuple_is_spread (f : init_fn) (kw : kwargs) (a : list pyval)
  (rank : Z) :
  (forall t, f rank kw = PTuple t ->
     all_args_of (Some f) kw a rank = a ++ t /\
     all_args_of (Some f) kw a rank <> a ++ [PTuple t]) /\
  (f rank kw <> PNone -> (forall t, f rank kw <> PTuple t) ->
     all_args_of (Some f) kw a rank = a ++ [f rank kw]) /\
  (forall t, f rank kw = PTuple [PTuple t] ->
     all_args_of (Some f) kw a rank = a ++ [PTuple t]).
Proof.
  unfold all_args_of. simpl. split_and!.
  - intros t ->. simpl. split; [done|].
    intros H%app_inv_head. by apply tuple_not_self in H.
  - intros Hnone Htuple. destruct (f rank kw); try done.
    by destruct (Htuple elts).
  - by intros t ->.
Qed.

(** C10 as stated fails: this init function supplies the pair [(1, 2)] as a
    single extra argument of the worker function. *)
Lemma init_supplies_single_tuple :
  all_args_of (Some wrapped_pair_init) [] [PStr "a"] 0 =
    [PStr "a"; PTuple [PInt 1; PInt 2]] /\
  log (process (__init__ 8 square (Some wrapped_pair_init) None 0 [])
         (Stream [PInt 7]) [PStr "a"] fifo) =
    [EInit 0; ECall 0 (PInt 7) [PStr "a"; PTuple [PInt 1; PInt 2]]].
Proof. done. Qed.

(** ** Counterexamples to the statements of the spec *)

(** C3 as stated fails: for five items and three workers the boundaries are
    0, 2, 4, 5, so the first two shards have two items and the last shard
    has one: the remainder is not in the last shards. *)
Lemma remainder_not_in_last_shards :
  batch_splits 5 3 = Returned [0; 2; 4; 5] /\
  map length
    (shards_of [PInt 1; PInt 2; PInt 3; PInt 4; PInt 5] [0; 2; 4; 5]) =
    [2; 2; 1]%nat /\
  ~ remainder_in_last_shards [2; 2; 1]%nat 5 3.
Proof.
  split_and!; [done..|]. intros H. by specialize (H 0%nat ltac:(lia)).
Qed.

(** C7 as stated fails: with an init function that returns the rank and a
    worker function that returns it, two workers and two items, the batch
    mode returns the ranks 0 and 1, and the consumer mode, when the first
    worker takes both items, returns 0 and 0. *)
Lemma batches_consumers_differ :
  out (process two_ranked (Indexable [PInt 10; PInt 20]) [] fifo) =
    Returned [PInt 0; PInt 1] /\
  out (process two_ranked (Stream [PInt 10; PInt 20]) [] fifo) =
    Returned [PInt 0; PInt 0] /\
  out (process two_ranked (Indexable [PInt 10; PInt 20]) [] fifo) <>
    out (process two_ranked (Stream [PInt 10; PInt 20]) [] fifo).
Proof. done. Qed.

(** ** No validation of the configuration *)

Section same_config.
Variables self1 self2 : Vectorizer.
Hypothesis Hsame : same_config self1 self2.

Lemma spawn_batches_same splits items args ranks :
  spawn_batches self1 splits items args ranks =
  spawn_batches self2 splits items args ranks.
Proof.
  destruct Hsame as (H1 & H2 & H3 & H4 & H5).
  induction ranks as [|i ranks IH]; [done|]. simpl.
  by rewrite IH, H2, H3, H4, H5.
Qed.

Lemma pull_get_same args s fuel p :
  pull_get self1 args s fuel p = pull_get self2 args s fuel p.
Proof.
  destruct Hsame as (H1 & H2 & H3 & H4 & H5).
  revert p. induction fuel as [|fuel IH]; intros p; [done|].
  rewrite !pull_get_S. simpl.
  destruct (inflight p !! _) as [[idx item]|]; [|done].
  destruct (live p !! _) as [r|]; [|done].
  rewrite H2, H3, H5. destruct (worker_func self2 item _); by rewrite ?IH.
Qed.

Lemma call_callback_same : call_callback self1 = call_callback self2.
Proof.
  destruct Hsame as (H1 & H2 & H3 & H4 & H5). unfold call_callback.
  by rewrite H4.
Qed.

Lemma pump_same args s rest ix ex res p :
  pump self1 args s rest ix ex res p = pump self2 args s rest ix ex res p.
Proof.
  revert ix ex res p. induction rest as [|item rest IH]; intros; simpl;
    unfold get; rewrite pull_get_same, call_callback_same; [done|].
  apply bind_ext. intros got. apply bind_ext. intros _. by rewrite IH.
Qed.

Lemma drain_same args s n res p :
  drain self1 args s n res p = drain self2 args s n res p.
Proof.
  revert res p. induction n as [|n IH]; intros; simpl; [done|].
  unfold get. rewrite pull_get_same, call_callback_same.
  apply bind_ext. intros got. apply bind_ext. intros _. by rewrite IH.
Qed.

Lemma dispatch_same items args s :
  dispatch self1 items args s = dispatch self2 items args s.
Proof.
  unfold dispatch. destruct Hsame as (H1 & _). rewrite H1.
  apply bind_ext. intros primed. rewrite pump_same.
  apply bind_ext. intros st. by rewrite drain_same.
Qed.

Lemma spawn_consumers_same ranks :
  spawn_consumers self1 ranks = spawn_consumers self2 ranks.
Proof.
  destruct Hsame as (H1 & H2 & H3 & H4 & H5).
  induction ranks as [|i ranks IH]; [done|]. simpl. by rewrite IH, H3, H5.
Qed.

(** [process] does not look at the shutdown action it finds recorded. *)
Lemma process_same items args s :
  out (process self1 items args s) = out (process self2 items args s) /\
  log (process self1 items args s) = log (process self2 items args s).
Proof.
  pose proof Hsame as (H1 & H2 & H3 & H4 & H5).
  unfold process. rewrite H1, H2, H3, H5.
  destruct (num_workers self2 =? 0).
  { by destruct (_init_if_needed _ _ _). }
  destruct items as [l|l].
  - unfold _process_batches. rewrite H1.
    destruct (batch_splits _ _); try done.
    rewrite spawn_batches_same, H4.
    destruct (spawn_batches _ _ _ _ _) as [[queues| |] tr]; try done.
    unfold lift. simpl.
    destruct (fst (bind (emit tr) _)); done.
  - unfold _process_consumers, lift. simpl.
    rewrite H1, spawn_consumers_same, dispatch_same.
    destruct (fst (bind _ _)); done.
Qed.
End same_config.

Lemma set_shutdown_same (fn : option shutdown) (self : Vectorizer) :
  same_config (set_shutdown fn self) self.
Proof. by split_and!. Qed.

(** The default [-1] stands for the number of cores; any other number is
    kept as it is. *)
Lemma __init___num_workers (cpu_count n : Z) f init cb kw :
  num_workers (__init__ cpu_count f init cb n kw) =
  if n =? -1 then cpu_count else n.
Proof. done. Qed.

(** C4, as the code has it. [process] validates nothing itself. With a
    negative number of workers an indexable input is rejected by the split
    of the index array, which raises [ValueError] before any process is
    started; an input that is only iterable starts no process and then
    waits for a result that never comes. A shutdown action left recorded by
    an earlier call is not looked at: the call proceeds as it would without
    it. *)
Theorem process_no_validation (self : Vectorizer) (items : list pyval)
  (args : list pyval) (s : sched) :
  (num_workers self < 0 ->
   process self (Indexable items) args s = Run (Raised ValueError) self []) /\
  (num_workers self < 0 ->
   out (process self (Stream items) args s) = Blocked /\
   log (process self (Stream items) args s) = []) /\
  (forall fn its,
     out (process (set_shutdown fn self) its args s) =
       out (process self its args s) /\
     log (process (set_shutdown fn self) its args s) =
       log (process self its args s)).
Proof.
  split_and!.
  - intros HW. unfold process, _process_batches, batch_splits, array_split.
    destruct (Z.eqb_spec (num_workers self) 0); [lia|].
    by destruct (Z.leb_spec (num_workers self) 0); [|lia].
  - intros HW. unfold process.
    destruct (Z.eqb_spec (num_workers self) 0); [lia|].
    unfold _process_consumers, dispatch, range.
    destruct (num_workers self) as [|w|w]; try lia. simpl.
    rewrite bind_emit. simpl. rewrite bind_ret. simpl.
    by destruct items.
  - intros fn its. apply process_same, set_shutdown_same.
Qed.

(** C4 as stated fails: with [-2] workers and an iterable input the call
    raises nothing (it blocks), and a call made while a shutdown action is
    still recorded returns its results as usual. *)
Lemma negative_workers_no_error :
  out (process minus_two_squarers (Stream [PInt 1]) [] fifo) = Blocked /\
  out (process (set_shutdown (Some (ShutdownBatches [0])) one_squarer)
         (Indexable [PInt 3]) [] fifo) = Returned [PInt 9].
Proof. done. Qed.

(** ** A worker function that raises *)

Lemma run_items_raised (tick : bool) (r : Z) (f : worker_fn)
  (all_args pre post : list pyval) (bad : pyval) (g : pyval -> pyval)
  (e : exn) :
  (forall x, x ∈ pre -> f x all_args = Returned (g x)) ->
  f bad all_args = Raised e ->
  fst (run_items tick r f all_args (pre ++ bad :: post)) = Raised e.
Proof.
  intros Hpre Hbad. induction pre as [|x pre IH]; simpl.
  - by rewrite bind_emit, Hbad.
  - rewrite bind_emit, (Hpre x) by set_solver. simpl.
    rewrite bind_emit. simpl. rewrite bind_then_ret_fst, IH; [done|].
    intros y Hy. apply Hpre. set_solver.
Qed.

Lemma run_items_spawns (tick : bool) (r : Z) (f : worker_fn)
  (all_args items : list pyval) :
  spawned_ranks (snd (run_items tick r f all_args items)) = [].
Proof.
  induction items as [|item rest IH]; simpl; [done|].
  rewrite bind_emit. simpl.
  destruct (f item all_args); simpl; try done.
  rewrite bind_emit. simpl.
  rewrite bind_then_ret_snd, spawned_ranks_app, IH. by destruct tick.
Qed.

(** In sequential mode the exception of the worker function leaves
    [process]: nothing is returned, nothing was started and the object is
    as it was. *)
Lemma process_sequential_raised (self : Vectorizer) (items : iterable)
  (args pre post : list pyval) (bad : pyval) (g : pyval -> pyval) (e : exn)
  (s : sched) :
  num_workers self = 0 ->
  contents items = pre ++ bad :: post ->
  (forall x, x ∈ pre ->
     worker_func self x
       (all_args_of (worker_init self) (init_kwargs self) args 0) =
     Returned (g x)) ->
  worker_func self bad
    (all_args_of (worker_init self) (init_kwargs self) args 0) = Raised e ->
  let r := process self items args s in
  out r = Raised e /\ obj r = self /\ spawned_ranks (log r) = [].
Proof.
  intros HW Hitems Hpre Hbad. unfold process. rewrite HW, Hitems. simpl.
  pose proof (run_items_raised false 0 (worker_func self) _ pre post bad g e
                Hpre Hbad) as H.
  pose proof (run_items_spawns false 0 (worker_func self)
    (all_args_of (worker_init self) (init_kwargs self) args 0)
    (pre ++ bad :: post)) as Hs.
  unfold all_args_of in H, Hs.
  destruct (_init_if_needed _ _ _) as [v tr0] eqn:Hi. simpl in *.
  rewrite bind_emit. simpl. rewrite H, spawned_ranks_app, Hs.
  unfold _init_if_needed in Hi. destruct (worker_init self); by simplify_eq.
Qed.

Lemma run_items_returned_inv (tick : bool) (r : Z) (f : worker_fn)
  (all_args items : list pyval) :
  is_returned (fst (run_items tick r f all_args items)) = true ->
  forall x, x ∈ items -> is_returned (f x all_args) = true.
Proof.
  induction items as [|item rest IH]; simpl.
  { by intros _ x ?%elem_of_nil. }
  rewrite bind_emit. simpl.
  destruct (f item all_args) eqn:Hf; simpl; try done.
  rewrite bind_emit. simpl. rewrite bind_then_ret_fst.
  intros Hret x [->|Hx]%elem_of_cons; [by rewrite Hf|].
  apply IH; [|done]. by destruct (fst (run_items _ _ _ _ rest)).
Qed.

Lemma gather_returned_inv (queues : list (option (list pyval))) :
  is_returned (fst (gather queues)) = true -> Forall is_Some queues.
Proof.
  induction queues as [|[b|] queues IH]; simpl; [constructor| |done].
  rewrite bind_then_ret_fst. intros H. constructor; [done|].
  apply IH. by destruct (fst (gather queues)).
Qed.

Section batches_raised.
Variable self : Vectorizer.
Variable args : list pyval.
Variable items : list pyval.

Lemma _batch_worker_returned_inv tick r shard :
  is_returned (fst (_batch_worker tick r (worker_func self) (worker_init self)
                      (init_kwargs self) shard args)) = true ->
  forall x, x ∈ shard ->
    is_returned
      (worker_func self x
         (all_args_of (worker_init self) (init_kwargs self) args r)) = true.
Proof.
  unfold _batch_worker, all_args_of.
  destruct (_init_if_needed _ _ _) as [v tr0]. simpl.
  rewrite bind_emit. simpl. apply run_items_returned_inv.
Qed.

Lemma spawn_batches_returned_inv splits m j queues :
  (j + m < length splits)%nat ->
  fst (spawn_batches self splits items args
         (seqZ (Z.of_nat j) (Z.of_nat m))) = Returned queues ->
  Forall is_Some queues ->
  forall x, x ∈ concat (take m (drop j (shards_of items splits))) ->
    exists r, is_returned
      (worker_func self x
         (all_args_of (worker_init self) (init_kwargs self) args r)) = true.
Proof.
  revert j queues. induction m as [|m IH]; intros j queues Hlen.
  { simpl. by intros _ _ x ?%elem_of_nil. }
  rewrite seqZ_cons by lia.
  replace (Z.succ (Z.of_nat j)) with (Z.of_nat (S j)) by lia.
  replace (Z.pred (Z.of_nat (S m))) with (Z.of_nat m) by lia.
  destruct (lookup_lt_is_Some_2 splits j ltac:(lia)) as [lo Hlo].
  destruct (lookup_lt_is_Some_2 splits (S j) ltac:(lia)) as [hi Hhi].
  pose proof (shards_of_lookup items _ _ _ _ Hlo Hhi) as Hshard.
  rewrite (drop_S _ _ _ Hshard). simpl.
  unfold index_list. rewrite Nat2Z.id, Hlo, bind_ret.
  replace (Z.to_nat (Z.of_nat j + 1)) with (S j) by lia.
  rewrite Hhi, bind_ret, bind_emit. simpl.
  pose proof (_batch_worker_returned_inv
    (bool_decide (is_Some (callback_func self))) (Z.of_nat j)
    (slice items lo hi)) as Hw.
  destruct (_batch_worker _ _ _ _ _ _ _) as [o tr]. simpl in *.
  rewrite bind_emit. simpl. rewrite bind_then_ret_fst.
  destruct (fst (spawn_batches self splits items args _)) as [qs| |] eqn:Hqs;
    try done.
  intros [= <-] [Ho Hall]%Forall_cons x [Hx|Hx]%elem_of_app.
  - exists (Z.of_nat j). apply Hw; [|done]. by destruct o; [|destruct Ho..].
  - eapply (IH (S j)); [lia|done..].
Qed.

(** With a worker function that does not return on some item of the input,
    the batch mode does not return. *)
Lemma _process_batches_not_returned bad :
  bad ∈ items ->
  (forall a, is_returned (worker_func self bad a) = false) ->
  is_returned (out (_process_batches self items args)) = false.
Proof.
  intros Hin Hbad.
  destruct (Z.le_gt_cases (num_workers self) 0) as [HW|HW].
  { unfold _process_batches, batch_splits, array_split.
    by destruct (Z.leb_spec (num_workers self) 0); [|lia]. }
  destruct (Z.lt_ge_cases (Z.of_nat (length items)) (num_workers self))
    as [HN|HN].
  { unfold _process_batches. by rewrite batch_splits_short by lia. }
  destruct (batch_splits_shards items (num_workers self) ltac:(lia))
    as (splits & Hs & _ & _ & Hlen & Hcat & _).
  unfold _process_batches. rewrite Hs.
  pose proof (shards_of_length items splits) as Hlen'.
  pose proof (spawn_batches_returned_inv splits
                (Z.to_nat (num_workers self)) 0) as Hinv.
  rewrite drop_0, take_ge, Hcat, Z2Nat.id in Hinv by lia.
  change (seqZ (Z.of_nat 0) (num_workers self))
    with (range (num_workers self)) in Hinv.
  destruct (spawn_batches _ _ _ _ _) as [[queues| |] tr]; try done.
  simpl. rewrite bind_emit. simpl. rewrite bind_fst.
  destruct (is_returned (fst (gather queues))) eqn:Hg; cycle 1.
  { destruct (callback_func self); [destruct (fst (tick_loop _ _))|];
      simpl; by rewrite ?Hg. }
  destruct (Hinv queues ltac:(lia) eq_refl (gather_returned_inv _ Hg) bad Hin)
    as [r Hr].
  by rewrite Hbad in Hr.
Qed.
End batches_raised.

Section consumers_raised.
Variable self : Vectorizer.
Variable args : list pyval.
Variable s : sched.
Variable bad : pyval.
Hypothesis Hbad : forall a, is_returned (worker_func self bad a) = false.

Lemma pull_get_lost fuel p x p' :
  fst (pull_get self args s fuel p) = Returned (x, p') ->
  (length (inflight p') < length (inflight p))%nat /\
  (bad ∈ map snd (inflight p) ->
   bad ∈ map snd (inflight p') \/
   (S (length (inflight p')) < length (inflight p))%nat).
Proof.
  revert p. induction fuel as [|fuel IH]; intros p; [done|].
  rewrite pull_get_S. simpl.
  destruct (inflight p !! _) as [[idx item]|] eqn:Hlk; [|done].
  destruct (live p !! _) as [r|]; [|done].
  rewrite bind_emit. simpl.
  pose proof (lookup_lt_Some _ _ _ Hlk) as Hlt.
  pose proof (length_delete (inflight p) _ (ex_intro _ _ Hlk)) as Hdel.
  destruct (worker_func self item _) as [v| |] eqn:Hf.
  - rewrite bind_emit. simpl. intros [= <- <-]. simpl. split; [lia|].
    intros Hin. left.
    rewrite (delete_Permutation _ _ _ Hlk) in Hin. simpl in Hin.
    apply elem_of_cons in Hin as [Heq|Hin]; [|done].
    rewrite <- Heq in Hf. pose proof (Hbad (all_args_of (worker_init self)
      (init_kwargs self) args r)) as Hb. by rewrite Hf in Hb.
  - intros H. apply IH in H as [H _]. simpl in H. split; [lia|].
    intros _. right. lia.
  - intros H. apply IH in H as [H _]. simpl in H. split; [lia|].
    intros _. right. lia.
Qed.

Lemma get_keeps rest ex p x p' :
  lost_inv bad rest ex p ->
  fst (get self args s p) = Returned (x, p') ->
  lost_inv bad rest (ex - 1) p'.
Proof.
  intros [Hcase Hle] Hget. apply pull_get_lost in Hget as [Hlt Hin].
  split; [|lia]. destruct Hcase as [?|[Hb|?]]; [by left| |right; right; lia].
  destruct (Hin Hb); [by right; left|right; right; lia].
Qed.

Lemma put_keeps item rest ex ix p :
  lost_inv bad (item :: rest) ex p ->
  lost_inv bad rest (ex + 1) (push (ix, item) p).
Proof.
  intros [Hcase Hle]. unfold lost_inv. simpl.
  rewrite map_app, length_app. simpl. split; [|lia].
  destruct Hcase as [[->|?]%elem_of_cons|[?|?]].
  - right; left. set_solver.
  - by left.
  - right; left. set_solver.
  - right; right. lia.
Qed.

Lemma prime_keeps n st st' b :
  lost_inv bad (iterator st) (expect st) (workers st) ->
  fst (prime n st) = Returned (st', b) ->
  lost_inv bad (iterator st') (expect st') (workers st').
Proof.
  revert st. induction n as [|n IH]; intros st Hinv; simpl.
  { by intros [= <- _]. }
  destruct (iterator st) as [|item rest] eqn:Hit.
  { intros [= <- _]. by rewrite Hit. }
  rewrite bind_emit. simpl. intros H. eapply IH; [|done]. simpl.
  by apply put_keeps.
Qed.

Lemma prime_exhausted n st st' :
  fst (prime n st) = Returned (st', true) -> iterator st' = [].
Proof.
  revert st. induction n as [|n IH]; intros st; simpl; [done|].
  destruct (iterator st) as [|item rest] eqn:Hit.
  { by intros [= <-]. }
  rewrite bind_emit. simpl. apply IH.
Qed.

Lemma pump_keeps rest ix ex res p st' :
  lost_inv bad rest ex p ->
  fst (pump self args s rest ix ex res p) = Returned st' ->
  lost_inv bad [] (expect st') (workers st').
Proof.
  revert ix ex res p. induction rest as [|item rest IH];
    intros ix ex res p Hinv; simpl; rewrite bind_fst;
    destruct (fst (get self args s p)) as [[x p']| |] eqn:Hget; try done;
    pose proof (get_keeps _ _ _ _ _ Hinv Hget) as Hinv';
    rewrite bind_fst; destruct (fst (call_callback self)); try done; simpl.
  - by intros [= <-].
  - rewrite bind_emit. simpl. intros H. eapply IH; [|done].
    by apply put_keeps.
Qed.

Lemma drain_blocks n res p :
  lost_inv bad [] (Z.of_nat n) p ->
  is_returned (fst (drain self args s n res p)) = false.
Proof.
  revert res p. induction n as [|n IH]; intros res p Hinv.
  { destruct Hinv as [[?%elem_of_nil|[Hin|?]] Hle]; [done| |lia].
    destruct (inflight p); [by apply elem_of_nil in Hin|simpl in Hle; lia]. }
  simpl. rewrite bind_fst.
  destruct (fst (get self args s p)) as [[x p']| |] eqn:Hget; try done.
  apply (get_keeps _ _ _ _ _ Hinv) in Hget.
  rewrite bind_fst. destruct (fst (call_callback self)); try done.
  apply IH. by replace (Z.of_nat n) with (Z.of_nat (S n) - 1) by lia.
Qed.

(** With a worker function that does not return on some item of the input,
    the consumer mode does not return, whatever the workers do with the
    other items. *)
Lemma _process_consumers_not_returned items :
  bad ∈ items ->
  is_returned (out (_process_consumers self items args s)) = false.
Proof.
  intros Hin. unfold _process_consumers. simpl. rewrite bind_emit. simpl.
  unfold dispatch. rewrite bind_fst.
  destruct (fst (prime _ _)) as [[st b]| |] eqn:Hprime; try done.
  pose proof Hprime as Hprime0.
  apply prime_keeps in Hprime; [|by split; [left|]].
  assert (forall st', lost_inv bad [] (expect st') (workers st') ->
            is_returned (fst (bind (drain self args s (Z.to_nat (expect st'))
              (result st') (workers st'))
              (fun result => ret (map snd (sorted_by_key result))))) = false)
    as Hdrain.
  { intros st' Hinv. rewrite bind_then_ret_fst.
    pose proof (drain_blocks (Z.to_nat (expect st')) (result st') (workers st'))
      as H.
    rewrite Z2Nat.id in H by (destruct Hinv; lia).
    specialize (H Hinv). by destruct (fst (drain _ _ _ _ _ _)). }
  simpl. destruct b.
  - rewrite bind_ret. apply Hdrain. simpl.
    by rewrite <- (prime_exhausted _ _ _ Hprime0).
  - rewrite bind_fst.
    destruct (fst (pump _ _ _ _ _ _ _ _)) as [st'| |] eqn:Hpump; try done.
    apply Hdrain. by eapply pump_keeps.
Qed.
End consumers_raised.

(** C5 as stated fails: with one worker and a worker function that raises
    on the second item, [process] does not fail but blocks; the worker that
    was started is not terminated and the shutdown action stays recorded
    (it is run when the object is discarded). *)
Lemma worker_exception_blocks :
  out (process one_squarer (Indexable [PInt 1; PNone]) [] fifo) = Blocked /\
  spawned_ranks
    (log (process one_squarer (Indexable [PInt 1; PNone]) [] fifo)) = [0] /\
  terminated_ranks
    (log (process one_squarer (Indexable [PInt 1; PNone]) [] fifo)) = [] /\
  _shutdown_fn
    (obj (process one_squarer (Indexable [PInt 1; PNone]) [] fifo)) =
    Some (ShutdownBatches [0]) /\
  terminated_ranks
    (__del__ (obj (process one_squarer (Indexable [PInt 1; PNone]) [] fifo)))
    = [0].
Proof. done. Qed.

(** ** The theorems at concrete inputs *)

Lemma batch_shards_witness :
  exists splits,
    batch_splits 5 3 = Returned splits /\
    head splits = Some 0 /\
    last splits = Some 5 /\
    length (shards_of [PInt 1; PInt 2; PInt 3; PInt 4; PInt 5] splits) = 3%nat /\
    concat (shards_of [PInt 1; PInt 2; PInt 3; PInt 4; PInt 5] splits) =
      [PInt 1; PInt 2; PInt 3; PInt 4; PInt 5] /\
    remainder_in_first_shards
      (map length (shards_of [PInt 1; PInt 2; PInt 3; PInt 4; PInt 5] splits))
      5 3 /\
    Forall (fun shard => shard <> [])
      (shards_of [PInt 1; PInt 2; PInt 3; PInt 4; PInt 5] splits).
Proof.
  apply (batch_shards [PInt 1; PInt 2; PInt 3; PInt 4; PInt 5] 3).
  simpl. lia.
Defined.

Lemma consumers_in_flight_bounded_witness :
  in_flight_bounded 2
    (log (process two_squarers (Stream [PInt 1; PInt 2; PInt 3]) [] fifo)).
Proof.
  apply (consumers_in_flight_bounded two_squarers [PInt 1; PInt 2; PInt 3] []
           fifo).
  simpl. lia.
Defined.

Lemma batches_consumers_agree_witness :
  out (process two_squarers (Indexable [PInt 1; PInt 2; PInt 3]) [] fifo) =
    Returned [PInt 1; PInt 4; PInt 9] /\
  out (process two_squarers (Stream [PInt 1; PInt 2; PInt 3]) [] fifo) =
    Returned [PInt 1; PInt 4; PInt 9].
Proof.
  apply (batches_consumers_agree two_squarers [PInt 1; PInt 2; PInt 3] []
           squared fifo).
  - simpl. lia.
  - intros r item _ Hin.
    repeat (apply elem_of_cons in Hin as [->|Hin]; [reflexivity|]).
    by apply elem_of_nil in Hin.
Defined.

Lemma process_call_args_merged_witness :
  Forall (call_args_plain [PStr "a"])
    (log (process two_squarers (Stream [PInt 1; PInt 2; PInt 3])
            [PStr "a"] fifo)).
Proof.
  apply (proj2 (process_call_args_merged two_squarers
                  (Stream [PInt 1; PInt 2; PInt 3]) [PStr "a"] fifo)).
  reflexivity.
Defined.

Lemma init_once_per_worker_witness :
  init_ranks
    (log (process two_ranked (Stream [PInt 1; PInt 2; PInt 3]) [] fifo)) =
    [0; 1] /\
  spawned_ranks
    (log (process two_ranked (Stream [PInt 1; PInt 2; PInt 3]) [] fifo)) =
    [0; 1] /\
  init_before_calls
    (log (process two_ranked (Stream [PInt 1; PInt 2; PInt 3]) [] fifo)).
Proof.
  destruct (init_once_per_worker two_ranked
              (Stream [PInt 1; PInt 2; PInt 3]) [] fifo rank_init eq_refl)
    as (_ & H1 & _ & H2 & H3).
  split; [|split; [|exact H3]].
  - rewrite H1 by discriminate. by apply H2.
  - by apply H2.
Defined.

Lemma init_tuple_is_spread_witness :
  (all_args_of (Some wrapped_pair_init) [] [PStr "a"] 0 =
     [PStr "a"] ++ [PTuple [PInt 1; PInt 2]] /\
   all_args_of (Some wrapped_pair_init) [] [PStr "a"] 0 <>
     [PStr "a"] ++ [PTuple [PTuple [PInt 1; PInt 2]]]) /\
  all_args_of (Some rank_init) [] [PStr "a"] 1 = [PStr "a"] ++ [PInt 1].
Proof.
  split.
  - apply (proj1 (init_tuple_is_spread wrapped_pair_init [] [PStr "a"] 0)).
    reflexivity.
  - apply (proj1 (proj2 (init_tuple_is_spread rank_init [] [PStr "a"] 1)));
      discriminate.
Defined.

Lemma process_no_validation_witness :
  process minus_two_squarers (Indexable [PInt 1]) [] fifo =
    Run (Raised ValueError) minus_two_squarers [] /\
  out (process minus_two_squarers (Stream [PInt 1]) [] fifo) = Blocked /\
  log (process minus_two_squarers (Stream [PInt 1]) [] fifo) = [].
Proof.
  destruct (process_no_validation minus_two_squarers [PInt 1] [] fifo)
    as (H1 & H2 & _).
  split; [apply H1|apply H2]; simpl; lia.
Defined.

(** * Further properties *)

(** ** The kinds of events of each part *)

Lemma calls_app (tr1 tr2 : list event) :
  calls (tr1 ++ tr2) = calls tr1 ++ calls tr2.
Proof.
  induction tr1 as [|e tr1 IH]; [done|]. destruct e; simpl; by rewrite ?IH.
Qed.

Lemma calls_of_app (r : Z) (tr1 tr2 : list event) :
  calls_of r (tr1 ++ tr2) = calls_of r tr1 ++ calls_of r tr2.
Proof.
  induction tr1 as [|e tr1 IH]; [done|]. destruct e; simpl; rewrite ?IH; try done.
  by destruct (rank =? r).
Qed.

Lemma put_indices_app (tr1 tr2 : list event) :
  put_indices (tr1 ++ tr2) = put_indices tr1 ++ put_indices tr2.
Proof.
  induction tr1 as [|e tr1 IH]; [done|]. destruct e; simpl; by rewrite ?IH.
Qed.

Lemma get_indices_app (tr1 tr2 : list event) :
  get_indices (tr1 ++ tr2) = get_indices tr1 ++ get_indices tr2.
Proof.
  induction tr1 as [|e tr1 IH]; [done|]. destruct e; simpl; by rewrite ?IH.
Qed.

(** A trace of working events starts and stops no process. *)
Lemma working_log (tr : list event) :
  Forall working tr ->
  spawned_ranks tr = [] /\ terminated_ranks tr = [] /\ init_ranks tr = [] /\
  count is_sentinel tr = O.
Proof.
  induction 1 as [|e tr He _ (IH1 & IH2 & IH3 & IH4)]; [done|].
  destruct e; simpl in *; try done; by rewrite count_cons.
Qed.

Section kinds.
Variable self : Vectorizer.
Variable args : list pyval.
Variable s : sched.

Lemma run_items_working tick r f all_args items :
  Forall working (snd (run_items tick r f all_args items)).
Proof.
  induction items as [|item rest IH]; simpl; [constructor|].
  apply bind_Forall; [by repeat constructor|]. intros _.
  destruct (f item all_args); simpl; try constructor.
  apply bind_Forall; [by destruct tick; repeat constructor|]. intros _.
  apply bind_Forall; [done|]. intros; constructor.
Qed.

Lemma tick_loop_working n ticks : Forall working (snd (tick_loop n ticks)).
Proof.
  revert ticks. induction n as [|n IH]; intros [|ticks]; simpl;
    try constructor.
  apply bind_Forall; [by repeat constructor|]. intros _. apply IH.
Qed.

Lemma pull_get_working fuel p :
  Forall working (snd (pull_get self args s fuel p)).
Proof.
  revert p. induction fuel as [|fuel IH]; intros p; [constructor|].
  rewrite pull_get_S. simpl.
  destruct (inflight p !! _) as [[idx item]|]; [|constructor].
  destruct (live p !! _) as [r|]; [|constructor].
  apply bind_Forall; [by repeat constructor|]. intros _.
  destruct (worker_func self item _); try apply IH.
  apply bind_Forall; [by repeat constructor|]. intros; constructor.
Qed.

Lemma call_callback_working : Forall working (snd (call_callback self)).
Proof.
  unfold call_callback. destruct (callback_func self); by repeat constructor.
Qed.

Lemma prime_working n st : Forall working (snd (prime n st)).
Proof.
  revert st. induction n as [|n IH]; intros st; simpl; [constructor|].
  destruct (iterator st); [constructor|].
  apply bind_Forall; [by repeat constructor|]. intros _. apply IH.
Qed.

Lemma pump_working rest ix ex res p :
  Forall working (snd (pump self args s rest ix ex res p)).
Proof.
  revert ix ex res p. induction rest as [|item rest IH]; intros; simpl;
    (apply bind_Forall; [apply pull_get_working|]); intros got;
    (apply bind_Forall; [apply call_callback_working|]); intros _.
  - constructor.
  - apply bind_Forall; [by repeat constructor|]. intros _. apply IH.
Qed.

Lemma drain_working n res p :
  Forall working (snd (drain self args s n res p)).
Proof.
  revert res p. induction n as [|n IH]; intros; simpl; [constructor|].
  apply bind_Forall; [apply pull_get_working|]. intros got.
  apply bind_Forall; [apply call_callback_working|]. intros _. apply IH.
Qed.

Lemma dispatch_working items :
  Forall working (snd (dispatch self items args s)).
Proof.
  unfold dispatch. apply bind_Forall; [apply prime_working|]. intros primed.
  apply bind_Forall.
  - destruct (snd primed); [constructor|apply pump_working].
  - intros st. apply bind_Forall; [apply drain_working|]. intros; constructor.
Qed.
End kinds.

(** ** Starting and stopping the workers *)

Lemma _batch_worker_lifecycle (tick : bool) (r : Z) (f : worker_fn)
  (init : option init_fn) (kw : kwargs) (items args : list pyval) :
  spawned_ranks (snd (_batch_worker tick r f init kw items args)) = [] /\
  terminated_ranks (snd (_batch_worker tick r f init kw items args)) = [].
Proof.
  unfold _batch_worker, _init_if_needed.
  pose proof (working_log _ (run_items_working tick r f
    (_combine_args args (match init with Some g => g r kw | None => PNone end))
    items)) as (H1 & H2 & _).
  destruct init; simpl; rewrite bind_emit; simpl; by rewrite ?H1, ?H2.
Qed.

Lemma spawn_batches_lifecycle (self : Vectorizer) (splits : list Z)
  (items args : list pyval) (m j : nat) :
  (j + m < length splits)%nat ->
  exists queues tr,
    spawn_batches self splits items args (seqZ (Z.of_nat j) (Z.of_nat m)) =
      (Returned queues, tr) /\
    spawned_ranks tr = seqZ (Z.of_nat j) (Z.of_nat m) /\
    terminated_ranks tr = [].
Proof.
  revert j. induction m as [|m IH]; intros j Hlen.
  { by eexists [], []. }
  rewrite seqZ_cons by lia.
  replace (Z.succ (Z.of_nat j)) with (Z.of_nat (S j)) by lia.
  replace (Z.pred (Z.of_nat (S m))) with (Z.of_nat m) by lia.
  destruct (lookup_lt_is_Some_2 splits j ltac:(lia)) as [lo Hlo].
  destruct (lookup_lt_is_Some_2 splits (S j) ltac:(lia)) as [hi Hhi].
  simpl. unfold index_list. rewrite Nat2Z.id, Hlo, bind_ret.
  replace (Z.to_nat (Z.of_nat j + 1)) with (S j) by lia.
  rewrite Hhi, bind_ret, bind_emit. simpl.
  destruct (_batch_worker_lifecycle
    (bool_decide (is_Some (callback_func self))) (Z.of_nat j)
    (worker_func self) (worker_init self) (init_kwargs self)
    (slice items lo hi) args) as [Hs Ht].
  destruct (_batch_worker _ _ _ _ _ _ _) as [o trw]. simpl in *.
  destruct (IH (S j) ltac:(lia)) as (queues & tr & Hrun & Hsp & Hte).
  rewrite bind_emit, Hrun. simpl.
  eexists _, _. split; [done|]. simpl.
  rewrite !spawned_ranks_app, !terminated_ranks_app, Hs, Ht, Hsp, Hte.
  simpl. by rewrite app_nil_r.
Qed.

Lemma spawn_consumers_lifecycle (self : Vectorizer) (ranks : list Z) :
  spawned_ranks (spawn_consumers self ranks) = ranks /\
  terminated_ranks (spawn_consumers self ranks) = [] /\
  count is_sentinel (spawn_consumers self ranks) = O.
Proof.
  induction ranks as [|i ranks (IH1 & IH2 & IH3)]; [done|]. simpl.
  unfold _init_if_needed. destruct (worker_init self); simpl;
    rewrite ?count_cons, IH1, IH2, IH3; done.
Qed.

Lemma count_sentinel_shutdown (ps : list Z) :
  count is_sentinel (_shutdown_batches ps) = O /\
  count is_sentinel (_shutdown_consumers ps) = length ps.
Proof.
  assert (forall qs, count is_sentinel (terminate qs) = O) as Hterm.
  { induction qs as [|x qs IH]; [done|]. simpl. by rewrite count_cons, IH. }
  split.
  - unfold _shutdown_batches. by rewrite count_cons, Hterm.
  - unfold _shutdown_consumers. rewrite count_app, Hterm, Nat.add_0_r.
    induction ps as [|x ps IH]; [done|]. simpl. rewrite count_cons, IH. done.
Qed.

Lemma _process_batches_started (self : Vectorizer) (items args : list pyval) :
  run_started ShutdownBatches self (_process_batches self items args).
Proof.
  unfold run_started.
  destruct (Z.le_gt_cases (num_workers self) 0) as [HW|HW].
  { unfold _process_batches, batch_splits, array_split.
    destruct (Z.leb_spec (num_workers self) 0); [|lia]. simpl.
    split_and!; try done. by left. }
  destruct (Z.lt_ge_cases (Z.of_nat (length items)) (num_workers self))
    as [HN|HN].
  { unfold _process_batches. rewrite batch_splits_short by lia. simpl.
    split_and!; try done. by left. }
  destruct (batch_splits_shards items (num_workers self) ltac:(lia))
    as (splits & Hs & _ & _ & Hlen & _).
  unfold _process_batches. rewrite Hs.
  pose proof (shards_of_length items splits) as Hlen'.
  destruct (spawn_batches_lifecycle self splits items args
              (Z.to_nat (num_workers self)) 0 ltac:(lia))
    as (queues & tr & Hrun & Hsp & Hte).
  rewrite Z2Nat.id in Hrun, Hsp by lia.
  change (seqZ (Z.of_nat 0) (num_workers self))
    with (range (num_workers self)) in Hrun, Hsp.
  rewrite Hrun. simpl. rewrite bind_emit. simpl.
  assert (Forall working
    (snd (bind match callback_func self with
               | Some _ => tick_loop (length items) (count is_tick tr)
               | None => ret tt
               end (fun _ => gather queues)))) as Hw.
  { apply bind_Forall.
    - destruct (callback_func self); [apply tick_loop_working|constructor].
    - intros _. rewrite gather_log. constructor. }
  apply working_log in Hw as (Hw1 & Hw2 & _ & Hw4).
  assert (count is_sentinel tr = O) as Hsen.
  { clear -Hrun. revert Hrun. generalize (range (num_workers self)).
    intros ranks. revert queues tr.
    induction ranks as [|i ranks IH]; intros queues tr; simpl.
    { by intros [= _ <-]. }
    unfold index_list.
    destruct (splits !! Z.to_nat i) as [lo|]; [|done]. rewrite bind_ret.
    destruct (splits !! Z.to_nat (i + 1)) as [hi|]; [|done].
    rewrite bind_ret, bind_emit. simpl.
    pose proof (run_items_working
      (bool_decide (is_Some (callback_func self))) i (worker_func self)
      (all_args_of (worker_init self) (init_kwargs self) args i)
      (slice items lo hi)) as Hri.
    apply working_log in Hri as (_ & _ & _ & Hri).
    unfold _batch_worker, all_args_of, _init_if_needed in *.
    destruct (worker_init self); simpl in *; rewrite bind_emit; simpl;
      rewrite bind_emit; simpl; rewrite bind_then_ret_fst, bind_then_ret_snd;
      destruct (spawn_batches self splits items args ranks) as [[qs| |] tr']
        eqn:Hrec; simpl; try done;
      intros [= _ <-]; rewrite ?count_cons, !count_app, Hri; simpl;
      by rewrite (IH _ _ eq_refl). }
  rewrite spawned_ranks_app, terminated_ranks_app, count_app.
  rewrite Hte, Hsp, Hw1, Hw2, Hw4, Hsen, !app_nil_r.
  split_and!; try done. by right.
Qed.

Lemma _process_consumers_started (self : Vectorizer) (items args : list pyval)
  (s : sched) :
  run_started ShutdownConsumers self (_process_consumers self items args s).
Proof.
  unfold run_started, _process_consumers. simpl. rewrite bind_emit. simpl.
  destruct (spawn_consumers_lifecycle self (range (num_workers self)))
    as (H1 & H2 & H3).
  pose proof (working_log _ (dispatch_working self args s items))
    as (Hw1 & Hw2 & _ & Hw4).
  rewrite spawned_ranks_app, terminated_ranks_app, count_app.
  rewrite H1, H2, H3, Hw1, Hw2, Hw4, !app_nil_r.
  split_and!; try done. by right.
Qed.

Lemma spawned_call_shutdown (fn : shutdown) :
  spawned_ranks (call_shutdown fn) = [].
Proof.
  assert (forall qs, spawned_ranks (terminate qs) = []) as Hterm.
  { induction qs as [|x qs IH]; [done|]. simpl. done. }
  destruct fn as [ps|ps]; unfold call_shutdown, _shutdown_batches,
    _shutdown_consumers; simpl; [apply Hterm|].
  rewrite spawned_ranks_app, Hterm, app_nil_r.
  induction ps as [|x ps IH]; [done|]. simpl. done.
Qed.

Lemma process_started (self : Vectorizer) (items : iterable) (args : list pyval)
  (s : sched) :
  run_started (shutdown_of items) self
    match items with
    | Indexable l => _process_batches self l args
    | Stream l => _process_consumers self l args s
    end.
Proof.
  destruct items;
    [apply _process_batches_started|apply _process_consumers_started].
Qed.

(** X1. When [process] returns from a run with workers, the shutdown action
    of that run has been carried out and cleared: the workers [0 .. W-1]
    were started, exactly these were handed to [terminate], nothing is left
    recorded, so discarding the object afterwards stops nothing a second
    time. In consumer mode one sentinel per worker was put on the work
    queue, in batch mode none. *)
Theorem process_returned_shutdown (self : Vectorizer) (items : iterable)
  (args : list pyval) (s : sched) :
  num_workers self <> 0 ->
  is_returned (out (process self items args s)) = true ->
  spawned_ranks (log (process self items args s)) = range (num_workers self) /\
  terminated_ranks (log (process self items args s)) =
    range (num_workers self) /\
  _shutdown_fn (obj (process self items args s)) = None /\
  __del__ (obj (process self items args s)) = [] /\
  count is_sentinel (log (process self items args s)) =
    match items with
    | Indexable _ => O
    | Stream _ => Z.to_nat (num_workers self)
    end.
Proof.
  intros HW. pose proof (process_started self items args s) as Hst.
  unfold process. destruct (Z.eqb_spec (num_workers self) 0); [done|].
  destruct Hst as (Hte & Hse & [(Hnr & _)|(Hsp & Hobj)]).
  { destruct (out match items with Indexable _ => _ | Stream _ => _ end)
      eqn:Hout; [done|by rewrite Hout..]. }
  destruct (match items with Indexable _ => _ | Stream _ => _ end)
    as [[res| |] self' tr]; simpl in *; try done.
  intros _. subst self'. simpl.
  rewrite spawned_ranks_app, terminated_ranks_app, count_app, Hsp, Hte, Hse.
  rewrite spawned_call_shutdown, terminated_call_shutdown, app_nil_r.
  split_and!; try done; destruct items; simpl; try done;
    unfold call_shutdown.
  - apply count_sentinel_shutdown.
  - rewrite (proj2 (count_sentinel_shutdown _)). unfold range.
    by rewrite length_seqZ.
Qed.

Lemma process_returned_shutdown_witness :
  spawned_ranks
    (log (process two_squarers (Stream [PInt 1; PInt 2; PInt 3]) [] fifo)) =
    range 2 /\
  terminated_ranks
    (log (process two_squarers (Stream [PInt 1; PInt 2; PInt 3]) [] fifo)) =
    range 2 /\
  _shutdown_fn
    (obj (process two_squarers (Stream [PInt 1; PInt 2; PInt 3]) [] fifo)) =
    None /\
  __del__
    (obj (process two_squarers (Stream [PInt 1; PInt 2; PInt 3]) [] fifo)) =
    [] /\
  count is_sentinel
    (log (process two_squarers (Stream [PInt 1; PInt 2; PInt 3]) [] fifo)) =
    2%nat.
Proof.
  apply (process_returned_shutdown two_squarers
           (Stream [PInt 1; PInt 2; PInt 3]) [] fifo).
  - simpl. lia.
  - reflexivity.
Defined.

(** X2. No worker outlives the object, whatever the outcome of [process]:
    on an object with no shutdown action pending, the workers stopped by the
    call together with those stopped when the object is discarded
    ([__del__]) are exactly the workers the call started, in the order they
    were started. This holds when [process] returns, when it raises and when
    it hangs. *)
Theorem process_then_del_stops_started (self : Vectorizer) (items : iterable)
  (args : list pyval) (s : sched) :
  _shutdown_fn self = None ->
  terminated_ranks
    (log (process self items args s) ++ __del__ (obj (process self items args s))) =
  spawned_ranks (log (process self items args s)).
Proof.
  intros Hnone. unfold process.
  destruct (Z.eqb_spec (num_workers self) 0) as [HW|HW].
  { unfold _init_if_needed.
    pose proof (working_log _ (run_items_working false 0 (worker_func self)
      (_combine_args args
         (fst (_init_if_needed (worker_init self) 0 (init_kwargs self))))
      (contents items))) as (Hs & Ht & _).
    unfold _init_if_needed in Hs, Ht.
    destruct (worker_init self); simpl in *; rewrite bind_emit; simpl;
      unfold __del__; rewrite Hnone, app_nil_r; by rewrite ?Hs, ?Ht. }
  pose proof (process_started self items args s) as Hst.
  destruct Hst as (Hte & Hse & [(Hnr & Hlog & Hobj)|(Hsp & Hobj)]).
  { destruct (match items with Indexable _ => _ | Stream _ => _ end)
      as [[res| |] self' tr]; simpl in *; try done; subst;
      unfold __del__; by rewrite Hnone. }
  destruct (match items with Indexable _ => _ | Stream _ => _ end)
    as [[res| |] self' tr]; simpl in *; subst self'; simpl;
    rewrite ?spawned_ranks_app, !terminated_ranks_app, ?Hsp, ?Hte;
    unfold __del__; simpl;
    rewrite ?spawned_call_shutdown, ?terminated_call_shutdown, ?app_nil_r;
    by destruct items.
Qed.

Lemma process_then_del_stops_started_witness :
  terminated_ranks
    (log (process two_squarers (Stream [PInt 1; PStr "x"; PInt 3]) [] fifo) ++
     __del__
       (obj (process two_squarers (Stream [PInt 1; PStr "x"; PInt 3]) []
               fifo))) =
  spawned_ranks
    (log (process two_squarers (Stream [PInt 1; PStr "x"; PInt 3]) [] fifo)).
Proof.
  apply (process_then_del_stops_started two_squarers
           (Stream [PInt 1; PStr "x"; PInt 3]) [] fifo).
  reflexivity.
Defined.

(** ** Which items the worker function is called on *)

Lemma idle_log (tr : list event) :
  Forall idle tr ->
  calls tr = [] /\ put_indices tr = [] /\ get_indices tr = [] /\
  forall r, calls_of r tr = [].
Proof.
  induction 1 as [|e tr He _ (IH1 & IH2 & IH3 & IH4)]; [done|].
  destruct e; simpl in *; done.
Qed.

Lemma tick_loop_idle (n ticks : nat) : Forall idle (snd (tick_loop n ticks)).
Proof.
  revert ticks. induction n as [|n IH]; intros [|ticks]; simpl;
    try constructor.
  apply bind_Forall; [by repeat constructor|]. intros _. apply IH.
Qed.

Lemma call_callback_idle (self : Vectorizer) :
  Forall idle (snd (call_callback self)).
Proof.
  unfold call_callback. destruct (callback_func self); by repeat constructor.
Qed.

Lemma call_shutdown_idle (fn : shutdown) : Forall idle (call_shutdown fn).
Proof.
  assert (forall ps, Forall idle (terminate ps)) as Hterm.
  { induction ps; simpl; by repeat constructor. }
  destruct fn as [ps|ps]; unfold call_shutdown, _shutdown_batches,
    _shutdown_consumers.
  - by constructor.
  - apply Forall_app. split; [|done]. induction ps; simpl; by constructor.
Qed.

Lemma spawn_consumers_idle (self : Vectorizer) (ranks : list Z) :
  Forall idle (spawn_consumers self ranks).
Proof.
  induction ranks as [|i ranks IH]; simpl; [constructor|].
  constructor; [done|]. apply Forall_app. split; [|done].
  unfold _init_if_needed. destruct (worker_init self); by repeat constructor.
Qed.

(** The item loop calls the worker function on the items in order, as far as
    it gets, and under its own rank. *)
Lemma run_items_calls (tick : bool) (r : Z) (f : worker_fn)
  (all_args items : list pyval) :
  calls (snd (run_items tick r f all_args items)) `prefix_of` items /\
  (is_returned (fst (run_items tick r f all_args items)) = true ->
   calls (snd (run_items tick r f all_args items)) = items) /\
  (forall r', calls_of r' (snd (run_items tick r f all_args items)) =
              if r =? r' then calls (snd (run_items tick r f all_args items))
              else []) /\
  calls (snd (run_items tick r f all_args items)) =
    attempted f all_args items.
Proof.
  induction items as [|item rest (IH1 & IH2 & IH3 & IH4)]; simpl.
  { split_and!; try done. intros r'. by destruct (r =? r'). }
  rewrite bind_emit. simpl.
  destruct (f item all_args) as [v| |]; simpl.
  - rewrite bind_emit. simpl.
    rewrite bind_then_ret_fst, bind_then_ret_snd.
    assert (forall r', calls_of r' (if tick then [ETick r] else []) = [])
      as Htick by (intros; by destruct tick).
    assert (calls (if tick then [ETick r] else []) = [])
      as Htick' by (by destruct tick).
    rewrite calls_app, Htick'. simpl. split_and!.
    + by apply prefix_cons.
    + destruct (fst (run_items tick r f all_args rest)); try done.
      intros _. f_equal. by apply IH2.
    + intros r'. rewrite calls_of_app, Htick, IH3. simpl.
      by destruct (r =? r').
    + by rewrite IH4.
  - split_and!; [by apply prefix_cons, prefix_nil|done| |done].
    intros r'. by destruct (r =? r').
  - split_and!; [by apply prefix_cons, prefix_nil|done| |done].
    intros r'. by destruct (r =? r').
Qed.

Lemma _batch_worker_calls (tick : bool) (r : Z) (f : worker_fn)
  (init : option init_fn) (kw : kwargs) (items args : list pyval) :
  calls (snd (_batch_worker tick r f init kw items args)) `prefix_of` items /\
  (is_returned (fst (_batch_worker tick r f init kw items args)) = true ->
   calls (snd (_batch_worker tick r f init kw items args)) = items) /\
  (forall r', calls_of r' (snd (_batch_worker tick r f init kw items args)) =
              if r =? r'
              then calls (snd (_batch_worker tick r f init kw items args))
              else []) /\
  calls (snd (_batch_worker tick r f init kw items args)) =
    attempted f (all_args_of init kw args r) items.
Proof.
  unfold _batch_worker, all_args_of, _init_if_needed.
  pose proof (run_items_calls tick r f
    (_combine_args args (match init with Some g => g r kw | None => PNone end))
    items) as (H1 & H2 & H3 & H4).
  destruct init; simpl; rewrite bind_emit; simpl; done.
Qed.

Lemma spawn_batches_calls (self : Vectorizer) (splits : list Z)
  (items args : list pyval) (m j : nat) :
  (j + m < length splits)%nat ->
  exists queues tr,
    spawn_batches self splits items args (seqZ (Z.of_nat j) (Z.of_nat m)) =
      (Returned queues, tr) /\
    Forall2 prefix (calls_by (seqZ (Z.of_nat j) (Z.of_nat m)) tr)
      (take m (drop j (shards_of items splits))) /\
    (Forall is_Some queues ->
     calls_by (seqZ (Z.of_nat j) (Z.of_nat m)) tr =
     take m (drop j (shards_of items splits))) /\
    (forall r, r < Z.of_nat j -> calls_of r tr = []) /\
    calls tr = concat (calls_by (seqZ (Z.of_nat j) (Z.of_nat m)) tr) /\
    calls_by (seqZ (Z.of_nat j) (Z.of_nat m)) tr =
      zip_with
        (fun i shard =>
           attempted (worker_func self)
             (all_args_of (worker_init self) (init_kwargs self) args i) shard)
        (seqZ (Z.of_nat j) (Z.of_nat m))
        (take m (drop j (shards_of items splits))).
Proof.
  revert j. induction m as [|m IH]; intros j Hlen.
  { eexists [], []. by split_and!. }
  rewrite seqZ_cons by lia.
  replace (Z.succ (Z.of_nat j)) with (Z.of_nat (S j)) by lia.
  replace (Z.pred (Z.of_nat (S m))) with (Z.of_nat m) by lia.
  destruct (lookup_lt_is_Some_2 splits j ltac:(lia)) as [lo Hlo].
  destruct (lookup_lt_is_Some_2 splits (S j) ltac:(lia)) as [hi Hhi].
  pose proof (shards_of_lookup items _ _ _ _ Hlo Hhi) as Hshard.
  rewrite (drop_S _ _ _ Hshard). simpl.
  unfold index_list. rewrite Nat2Z.id, Hlo, bind_ret.
  replace (Z.to_nat (Z.of_nat j + 1)) with (S j) by lia.
  rewrite Hhi, bind_ret, bind_emit. simpl.
  destruct (_batch_worker_calls
    (bool_decide (is_Some (callback_func self))) (Z.of_nat j)
    (worker_func self) (worker_init self) (init_kwargs self)
    (slice items lo hi) args) as (Hw1 & Hw2 & Hw3 & Hw4).
  destruct (_batch_worker _ _ _ _ _ _ _) as [o trw]. simpl in *.
  destruct (IH (S j) ltac:(lia))
    as (queues & tr & Hrun & Hpre & Heq & Hlow & Hcat & Hatt).
  rewrite bind_emit, Hrun. simpl.
  eexists _, _. split; [done|]. simpl. rewrite app_nil_r.
  change (calls_by ?l (ESpawn (Z.of_nat j) :: trw ++ tr))
    with (calls_by l (trw ++ tr)).
  assert (calls_of (Z.of_nat j) (trw ++ tr) = calls trw) as Hown.
  { rewrite calls_of_app, Hw3, Z.eqb_refl, Hlow, app_nil_r by lia. done. }
  assert (calls_by (seqZ (Z.of_nat (S j)) (Z.of_nat m)) (trw ++ tr) =
          calls_by (seqZ (Z.of_nat (S j)) (Z.of_nat m)) tr) as Hothers.
  { unfold calls_by. apply map_ext_in. intros i Hi%list_elem_of_In.
    apply elem_of_seqZ in Hi. rewrite calls_of_app, Hw3.
    destruct (Z.eqb_spec (Z.of_nat j) i); [lia|done]. }
  rewrite Hown, Hothers. split_and!.
  - by constructor.
  - intros [Ho Hall]%Forall_cons. f_equal; [|by apply Heq].
    apply Hw2. by destruct o; [|destruct Ho..].
  - intros r Hr. rewrite calls_of_app, Hw3, Hlow by lia.
    by destruct (Z.eqb_spec (Z.of_nat j) r); [lia|].
  - rewrite calls_app. by f_equal.
  - by rewrite Hw4, Hatt.
Qed.

(** ** The bookkeeping of the consumer mode *)

Lemma moved_idle fl rest tr : Forall idle tr -> moved fl rest tr fl rest.
Proof.
  intros (H1 & H2 & H3 & _)%idle_log. unfold moved.
  rewrite H1, H2, H3, app_nil_r. simpl. done.
Qed.

Lemma moved_weaken fl rest tr fl' rest' :
  moved fl rest tr fl' rest' -> moved fl rest tr [] [].
Proof.
  intros (H1 & H2 & H3). split_and!; [| |done]; simpl; rewrite app_nil_r.
  - etrans; [|exact H1]. apply submseteq_inserts_r. done.
  - etrans; [|exact H2]. apply submseteq_inserts_r. done.
Qed.

Lemma moved_app fl rest tr1 fl1 rest1 tr2 fl2 rest2 :
  moved fl rest tr1 fl1 rest1 -> moved fl1 rest1 tr2 fl2 rest2 ->
  moved fl rest (tr1 ++ tr2) fl2 rest2.
Proof.
  intros (H1 & H2 & H3) (K1 & K2 & K3). unfold moved.
  rewrite calls_app, get_indices_app, put_indices_app, !length_app.
  split_and!; [| |lia].
  - etrans; [|exact H1]. rewrite <- (assoc_L (++)).
    by apply submseteq_app.
  - rewrite <- (assoc_L (++)).
    etrans; [apply submseteq_app; [reflexivity|exact K2]|].
    rewrite !(assoc_L (++)). by apply submseteq_app.
Qed.

Lemma moved_put fl item rest ix :
  moved fl (item :: rest) [EPut ix] (fl ++ [(ix, item)]) rest.
Proof.
  unfold moved. simpl. rewrite !map_app. simpl.
  rewrite <- !(assoc_L (++)). simpl. done.
Qed.

Section bookkeeping.
Variable self : Vectorizer.
Variable args : list pyval.
Variable s : sched.

Lemma pull_get_moved fuel p rest :
  put_indices (snd (pull_get self args s fuel p)) = [] /\
  match fst (pull_get self args s fuel p) with
  | Returned (res, p') =>
      moved (inflight p) rest (snd (pull_get self args s fuel p))
        (inflight p') rest /\
      length (get_indices (snd (pull_get self args s fuel p))) = 1%nat
  | _ =>
      moved (inflight p) rest (snd (pull_get self args s fuel p)) [] [] /\
      get_indices (snd (pull_get self args s fuel p)) = []
  end.
Proof.
  revert p. induction fuel as [|fuel IH]; intros p.
  { simpl. split; [done|]. split; [|done]. apply (moved_weaken _ _ _ [] []).
    unfold moved. simpl. split_and!; try done; apply submseteq_nil_l. }
  rewrite pull_get_S. simpl.
  destruct (inflight p !! _) as [[idx item]|] eqn:Hi; simpl.
  2:{ split; [done|]. split; [|done]. unfold moved. simpl.
      split_and!; try done; apply submseteq_nil_l. }
  destruct (live p !! _) as [r|] eqn:Hj; simpl.
  2:{ split; [done|]. split; [|done]. unfold moved. simpl.
      split_and!; try done; apply submseteq_nil_l. }
  pose proof (delete_Permutation _ _ _ Hi) as Hperm.
  assert (moved (inflight p) rest
            [ECall r item
               (all_args_of (worker_init self) (init_kwargs self) args r)]
            (delete (next_item s (clock p) mod length (inflight p))%nat
               (inflight p)) rest) as Hcall.
  { unfold moved. simpl. split_and!; [| |lia].
    - rewrite (Permutation_map snd Hperm). simpl. done.
    - rewrite app_nil_r. rewrite (Permutation_map fst Hperm). simpl.
      by apply submseteq_cons. }
  rewrite bind_emit. simpl.
  destruct (worker_func self item _) as [v| |]; simpl.
  - split; [done|]. split; [|done].
    unfold moved. simpl. split_and!; [| |lia].
    + rewrite (Permutation_map snd Hperm). simpl. done.
    + rewrite app_nil_r. rewrite (Permutation_map fst Hperm). simpl. done.
  - match goal with |- context [pull_get self args s fuel ?q] =>
      destruct (IH q) as [IH1 IH2];
      destruct (pull_get self args s fuel q) as [[[res p']| |] tr]
    end; simpl in *; (split; [done|]); destruct IH2 as [IH2 IH3];
      (split; [|done]);
      apply (moved_app _ _ [_] _ _ _ _ _ Hcall IH2).
  - match goal with |- context [pull_get self args s fuel ?q] =>
      destruct (IH q) as [IH1 IH2];
      destruct (pull_get self args s fuel q) as [[[res p']| |] tr]
    end; simpl in *; (split; [done|]); destruct IH2 as [IH2 IH3];
      (split; [|done]);
      apply (moved_app _ _ [_] _ _ _ _ _ Hcall IH2).
Qed.
Lemma get_moved p rest :
  put_indices (snd (get self args s p)) = [] /\
  match fst (get self args s p) with
  | Returned (res, p') =>
      moved (inflight p) rest (snd (get self args s p)) (inflight p') rest /\
      length (get_indices (snd (get self args s p))) = 1%nat
  | _ =>
      moved (inflight p) rest (snd (get self args s p)) [] [] /\
      get_indices (snd (get self args s p)) = []
  end.
Proof. apply pull_get_moved. Qed.

Lemma prime_moved n st :
  exists st' b (k : nat),
    prime n st = (Returned (st', b), snd (prime n st)) /\
    moved (inflight (workers st)) (iterator st) (snd (prime n st))
      (inflight (workers st')) (iterator st') /\
    put_indices (snd (prime n st)) = seqZ (index st) (Z.of_nat k) /\
    get_indices (snd (prime n st)) = [] /\
    expect st' = expect st + Z.of_nat k /\
    index st' = index st + Z.of_nat k /\
    (length (iterator st') + k)%nat = length (iterator st) /\
    (b = true -> iterator st' = []).
Proof.
  revert st. induction n as [|n IH]; intros st; simpl.
  { exists st, false, O. split_and!; try done; try lia.
    by apply moved_idle. }
  destruct (iterator st) as [|item rest] eqn:Hit.
  { exists st, true, O. rewrite Hit. split_and!; try done; try lia.
    by apply moved_idle. }
  rewrite bind_emit. simpl.
  match goal with |- context [prime n ?st1] =>
    destruct (IH st1) as (st' & b & k & Hrun & Hmv & Hput & Hget & Hex & Hix
                            & Hlen & Hb)
  end. simpl in *.
  exists st', b, (S k). rewrite Hrun. simpl. split_and!; try done; try lia.
  - apply (moved_app _ _ [EPut (index st)] _ _ _ _ _ (moved_put _ _ _ _) Hmv).
  - rewrite Hput. rewrite (seqZ_cons (index st)) by lia. do 2 f_equal; lia.
Qed.

Lemma pump_moved rest ix ex res p :
  exists k : nat,
    (k <= length rest)%nat /\
    put_indices (snd (pump self args s rest ix ex res p)) =
      seqZ ix (Z.of_nat k) /\
    match fst (pump self args s rest ix ex res p) with
    | Returned st' =>
        moved (inflight p) rest (snd (pump self args s rest ix ex res p))
          (inflight (workers st')) [] /\
        k = length rest /\
        expect st' =
          ex + Z.of_nat k -
          Z.of_nat
            (length (get_indices (snd (pump self args s rest ix ex res p))))
    | _ =>
        moved (inflight p) rest (snd (pump self args s rest ix ex res p)) [] []
    end.
Proof.
  revert ix ex res p. induction rest as [|item rest IH]; intros ix ex res p.
  - simpl. destruct (get_moved p []) as [Hp Hg].
    destruct (get self args s p) as [[[r p']| |] tr]; simpl in *.
    + rewrite bind_eq. simpl.
      pose proof (call_callback_idle self) as Hcb.
      destruct (idle_log _ Hcb) as (Hc1 & Hc2 & Hc3 & _).
      destruct Hg as [Hmv Hone].
      assert (fst (call_callback self) = Returned tt) as Hret
        by (unfold call_callback; by destruct (callback_func self)).
      rewrite bind_fst, bind_snd, Hret. simpl. rewrite app_nil_r.
      exists O. rewrite put_indices_app, get_indices_app, Hp, Hc2, Hc3.
      rewrite !app_nil_r, Hone. split_and!; try done; try lia.
      apply (moved_app _ _ _ _ _ _ _ _ Hmv). by apply moved_idle.
    + exists O. unfold bind. simpl. split_and!; try done. apply Hg.
    + exists O. unfold bind. simpl. split_and!; try done. apply Hg.
  - simpl. destruct (get_moved p (item :: rest)) as [Hp Hg].
    destruct (get self args s p) as [[[r p']| |] tr]; simpl in *.
    + rewrite bind_eq. simpl.
      pose proof (call_callback_idle self) as Hcb.
      destruct (idle_log _ Hcb) as (Hc1 & Hc2 & Hc3 & _).
      destruct Hg as [Hmv Hone].
      assert (fst (call_callback self) = Returned tt) as Hret
        by (unfold call_callback; by destruct (callback_func self)).
      rewrite bind_fst, bind_snd, Hret. rewrite bind_emit. simpl.
      match goal with |- context [pump self args s rest ?a ?b ?c ?d] =>
        destruct (IH a b c d) as (k & Hk & Hput & Hrest);
        destruct (pump self args s rest a b c d) as [o tr2]
      end. simpl in *.
      exists (S k).
      rewrite !put_indices_app, !get_indices_app, Hp, Hc2, Hc3. simpl.
      rewrite Hput, (seqZ_cons ix) by lia.
      replace (Z.succ ix) with (ix + 1) by lia.
      replace (Z.pred (Z.of_nat (S k))) with (Z.of_nat k) by lia.
      split; [lia|]. split; [done|].
      assert (moved (inflight p) (item :: rest)
                (tr ++ snd (call_callback self) ++ [EPut ix])
                (push (ix, item) p').(inflight) rest) as Hstep.
      { apply (moved_app _ _ _ _ _ _ _ _ Hmv).
        apply (moved_app _ _ _ (inflight p') (item :: rest));
          [by apply moved_idle|apply moved_put]. }
      destruct o as [st'| |]; simpl in *.
      * destruct Hrest as (Hmv2 & -> & Hex).
        split_and!; try done.
        -- replace (tr ++ snd (call_callback self) ++ EPut ix :: tr2)
             with ((tr ++ snd (call_callback self) ++ [EPut ix]) ++ tr2)
             by (by rewrite <- !(assoc_L (++))).
           apply (moved_app _ _ _ _ _ _ _ _ Hstep Hmv2).
        -- rewrite Hex, !length_app, Hone. simpl. lia.
      * replace (tr ++ snd (call_callback self) ++ EPut ix :: tr2)
          with ((tr ++ snd (call_callback self) ++ [EPut ix]) ++ tr2)
          by (by rewrite <- !(assoc_L (++))).
        apply (moved_app _ _ _ _ _ _ _ _ Hstep Hrest).
      * replace (tr ++ snd (call_callback self) ++ EPut ix :: tr2)
          with ((tr ++ snd (call_callback self) ++ [EPut ix]) ++ tr2)
          by (by rewrite <- !(assoc_L (++))).
        apply (moved_app _ _ _ _ _ _ _ _ Hstep Hrest).
    + exists O. unfold bind. simpl. split_and!; try done; try lia. apply Hg.
    + exists O. unfold bind. simpl. split_and!; try done; try lia. apply Hg.
Qed.

Lemma drain_moved n res p :
  moved (inflight p) [] (snd (drain self args s n res p)) [] [] /\
  put_indices (snd (drain self args s n res p)) = [] /\
  (is_returned (fst (drain self args s n res p)) = true ->
   length (get_indices (snd (drain self args s n res p))) = n).
Proof.
  revert res p. induction n as [|n IH]; intros res p; simpl.
  { split_and!; try done. apply (moved_weaken _ _ _ (inflight p) []).
    by apply moved_idle. }
  destruct (get_moved p []) as [Hp Hg].
  destruct (get self args s p) as [[[r p']| |] tr]; simpl in *.
  - rewrite bind_eq. simpl.
    pose proof (call_callback_idle self) as Hcb.
    destruct (idle_log _ Hcb) as (Hc1 & Hc2 & Hc3 & _).
    destruct Hg as [Hmv Hone].
    assert (fst (call_callback self) = Returned tt) as Hret
      by (unfold call_callback; by destruct (callback_func self)).
    rewrite bind_fst, bind_snd, Hret.
    destruct (IH (res ++ [r]) p') as (Hmv2 & Hput & Hn).
    rewrite !put_indices_app, !get_indices_app, Hp, Hc2, Hc3, Hput.
    rewrite !length_app, Hone. simpl. split_and!; try done.
    + apply (moved_app _ _ _ _ _ _ _ _ Hmv).
      apply (moved_app _ _ _ (inflight p') []); [by apply moved_idle|done].
    + intros Hr. by rewrite Hn.
  - unfold bind. simpl. split_and!; try done. apply Hg.
  - unfold bind. simpl. split_and!; try done. apply Hg.
Qed.

Lemma dispatch_moved items :
  moved [] items (snd (dispatch self items args s)) [] [] /\
  exists k : nat,
    (k <= length items)%nat /\
    put_indices (snd (dispatch self items args s)) = seqZ 0 (Z.of_nat k) /\
    (is_returned (fst (dispatch self items args s)) = true ->
     k = length items /\
     (k <= length (get_indices (snd (dispatch self items args s))))%nat).
Proof.
  unfold dispatch.
  match goal with |- context [prime ?n ?st] =>
    destruct (prime_moved n st)
      as (st1 & b & k1 & Hrun & Hmv1 & Hput1 & Hget1 & Hex1 & Hix1 & Hlen1 & Hb);
    rewrite Hrun;
    generalize dependent (snd (prime n st))
  end.
  intros tr1 _ Hmv1 Hput1 Hget1. simpl in *.
  rewrite bind_eq. simpl.
  assert (exists k2 : nat,
    (k2 <= length (iterator st1))%nat /\
    let m := (if b then ret st1
              else pump self args s (iterator st1) (index st1) (expect st1)
                     (result st1) (workers st1)) in
    put_indices (snd m) = seqZ (index st1) (Z.of_nat k2) /\
    match fst m with
    | Returned st2 =>
        moved (inflight (workers st1)) (iterator st1) (snd m)
          (inflight (workers st2)) [] /\
        k2 = length (iterator st1) /\
        expect st2 =
          expect st1 + Z.of_nat k2 - Z.of_nat (length (get_indices (snd m)))
    | _ => moved (inflight (workers st1)) (iterator st1) (snd m) [] []
    end) as (k2 & Hk2 & Hput2 & Hrest).
  { destruct b.
    - exists O. rewrite (Hb eq_refl). simpl. split_and!; try done; try lia.
      by apply moved_idle.
    - apply pump_moved. }
  destruct (if b then _ else _) as [[st2| |] tr2]; simpl in *.
  - destruct Hrest as (Hmv2 & -> & Hex2).
    rewrite bind_eq. simpl.
    destruct (drain_moved (Z.to_nat (expect st2)) (result st2) (workers st2))
      as (Hmv3 & Hput3 & Hn).
    rewrite bind_then_ret_fst, bind_then_ret_snd.
    destruct (drain _ _ _ _ _ _) as [o tr3]. simpl in *.
    split.
    + apply (moved_app _ _ _ _ _ _ _ _ Hmv1).
      apply (moved_app _ _ _ _ _ _ _ _ Hmv2 Hmv3).
    + exists (k1 + length (iterator st1))%nat.
      rewrite !put_indices_app, !get_indices_app, Hput1, Hput2, Hput3, Hget1.
      rewrite app_nil_r. simpl. split_and!; [lia| |].
      * rewrite Nat2Z.inj_add, seqZ_app by lia. do 2 f_equal. lia.
      * intros Hr. split; [lia|]. rewrite length_app, Hn by (by destruct o).
        lia.
  - unfold bind. simpl. split.
    + apply (moved_app _ _ _ _ _ _ _ _ Hmv1 Hrest).
    + exists (k1 + k2)%nat. rewrite put_indices_app, Hput1, Hput2.
      split_and!; [lia| |done].
      rewrite Nat2Z.inj_add, seqZ_app by lia. do 2 f_equal. lia.
  - unfold bind. simpl. split.
    + apply (moved_app _ _ _ _ _ _ _ _ Hmv1 Hrest).
    + exists (k1 + k2)%nat. rewrite put_indices_app, Hput1, Hput2.
      split_and!; [lia| |done].
      rewrite Nat2Z.inj_add, seqZ_app by lia. do 2 f_equal. lia.
Qed.
End bookkeeping.

Lemma calls_by_app_idle (ranks : list Z) (tr1 tr2 : list event) :
  Forall idle tr2 -> calls_by ranks (tr1 ++ tr2) = calls_by ranks tr1.
Proof.
  intros (_ & _ & _ & H)%idle_log. unfold calls_by. apply map_ext.
  intros i. by rewrite calls_of_app, H, app_nil_r.
Qed.

Lemma prefix_submseteq {A} (l k : list A) : l `prefix_of` k -> l ⊆+ k.
Proof. intros [k' ->]. by apply submseteq_inserts_r. Qed.

Lemma concat_prefixes {A} (l k : list (list A)) :
  Forall2 prefix l k -> concat l ⊆+ concat k.
Proof.
  induction 1 as [|x y l k Hxy _ IH]; simpl; [done|].
  apply submseteq_app; [|done]. by apply prefix_submseteq.
Qed.

(** What [_process_batches] does with the shards: nothing at all when the
    boundaries cannot be computed; otherwise worker [i] calls the worker
    function on the items of shard [i], in order, as far as it gets, and on
    all of them when the method returns. *)
Lemma _process_batches_calls (self : Vectorizer) (items args : list pyval) :
  (log (_process_batches self items args) = [] /\
   is_returned (out (_process_batches self items args)) = false /\
   is_returned
     (batch_splits (Z.of_nat (length items)) (num_workers self)) = false) \/
  exists splits,
    batch_splits (Z.of_nat (length items)) (num_workers self) =
      Returned splits /\
    concat (shards_of items splits) = items /\
    Forall2 prefix
      (calls_by (range (num_workers self))
         (log (_process_batches self items args)))
      (shards_of items splits) /\
    (is_returned (out (_process_batches self items args)) = true ->
     calls_by (range (num_workers self))
       (log (_process_batches self items args)) =
     shards_of items splits) /\
    calls (log (_process_batches self items args)) =
      concat (calls_by (range (num_workers self))
                (log (_process_batches self items args))) /\
    calls_by (range (num_workers self))
      (log (_process_batches self items args)) =
      zip_with
        (fun i shard =>
           attempted (worker_func self)
             (all_args_of (worker_init self) (init_kwargs self) args i) shard)
        (range (num_workers self)) (shards_of items splits).
Proof.
  destruct (Z.le_gt_cases (num_workers self) 0) as [HW|HW].
  { left. unfold _process_batches, batch_splits, array_split.
    destruct (Z.leb_spec (num_workers self) 0); [|lia]. done. }
  destruct (Z.lt_ge_cases (Z.of_nat (length items)) (num_workers self))
    as [HN|HN].
  { left. unfold _process_batches. by rewrite batch_splits_short by lia. }
  right.
  destruct (batch_splits_shards items (num_workers self) ltac:(lia))
    as (splits & Hs & _ & _ & Hlen & Hcat & _).
  exists splits. split; [done|]. split; [done|].
  unfold _process_batches. rewrite Hs.
  pose proof (shards_of_length items splits) as Hlen'.
  destruct (spawn_batches_calls self splits items args
              (Z.to_nat (num_workers self)) 0 ltac:(lia))
    as (queues & tr & Hrun & Hpre & Heq & _ & Hall & Hatt).
  rewrite drop_0, take_ge in Hpre, Heq, Hatt by lia.
  rewrite Z2Nat.id in Hrun, Hpre, Heq, Hall, Hatt by lia.
  change (seqZ (Z.of_nat 0) (num_workers self))
    with (range (num_workers self)) in Hrun, Hpre, Heq, Hall, Hatt.
  rewrite Hrun. simpl. rewrite bind_emit. simpl.
  assert (Forall idle
    (snd (bind match callback_func self with
               | Some _ => tick_loop (length items) (count is_tick tr)
               | None => ret tt
               end (fun _ => gather queues)))) as Hidle.
  { apply bind_Forall.
    - destruct (callback_func self); [apply tick_loop_idle|constructor].
    - intros _. rewrite gather_log. constructor. }
  rewrite calls_by_app_idle by done.
  rewrite calls_app, (proj1 (idle_log _ Hidle)), app_nil_r.
  split_and!; try done.
  intros Hret. apply Heq. apply gather_returned_inv.
  rewrite bind_fst in Hret.
  destruct (callback_func self); [|done].
  by destruct (fst (tick_loop (length items) (count is_tick tr))).
Qed.

Lemma process_log_calls (self : Vectorizer) (items : iterable)
  (args : list pyval) (s : sched) :
  num_workers self <> 0 ->
  exists tr,
    Forall idle tr /\
    log (process self items args s) =
    log match items with
        | Indexable l => _process_batches self l args
        | Stream l => _process_consumers self l args s
        end ++ tr /\
    (is_returned (out (process self items args s)) = true ->
     is_returned
       (out match items with
            | Indexable l => _process_batches self l args
            | Stream l => _process_consumers self l args s
            end) = true).
Proof.
  intros HW. unfold process.
  destruct (Z.eqb_spec (num_workers self) 0); [done|].
  destruct (match items with Indexable _ => _ | Stream _ => _ end)
    as [[res| |] self' tr]; simpl.
  - destruct (_shutdown_fn self') as [fn|]; simpl.
    + exists (call_shutdown fn). split; [apply call_shutdown_idle|done].
    + exists []. by rewrite app_nil_r.
  - exists []. by rewrite app_nil_r.
  - exists []. by rewrite app_nil_r.
Qed.

Lemma _process_consumers_moved (self : Vectorizer) (items args : list pyval)
  (s : sched) :
  moved [] items (log (_process_consumers self items args s)) [] [] /\
  exists k : nat,
    (k <= length items)%nat /\
    put_indices (log (_process_consumers self items args s)) =
      seqZ 0 (Z.of_nat k) /\
    (is_returned (out (_process_consumers self items args s)) = true ->
     k = length items /\
     (k <= length (get_indices
                     (log (_process_consumers self items args s))))%nat).
Proof.
  unfold _process_consumers. simpl. rewrite bind_emit. simpl.
  destruct (dispatch_moved self args s items) as (Hmv & k & Hk & Hput & Hret).
  pose proof (spawn_consumers_idle self (range (num_workers self))) as Hid.
  destruct (idle_log _ Hid) as (Hc1 & Hc2 & Hc3 & _).
  split.
  - apply (moved_app _ _ _ [] items); [by apply moved_idle|done].
  - exists k. rewrite put_indices_app, get_indices_app, Hc2, Hc3. done.
Qed.

(** X3. The worker function is called at most once on each item, whatever
    the mode, the scheduling of the workers and the outcome: the items it
    was called on are, counted with multiplicity, among the items of the
    input. When [process] returns, it was called exactly once on each item
    of the input. *)
Theorem process_calls_each_item_once (self : Vectorizer) (items : iterable)
  (args : list pyval) (s : sched) :
  calls (log (process self items args s)) ⊆+ contents items /\
  (is_returned (out (process self items args s)) = true ->
   calls (log (process self items args s)) ≡ₚ contents items).
Proof.
  destruct (Z.eq_dec (num_workers self) 0) as [HW|HW].
  { unfold process. rewrite (proj2 (Z.eqb_eq _ _) HW).
    unfold _init_if_needed.
    pose proof (run_items_calls false 0 (worker_func self)
      (_combine_args args
         (match worker_init self with
          | Some g => g 0 (init_kwargs self)
          | None => PNone
          end)) (contents items)) as (H1 & H2 & _ & _).
    destruct (worker_init self); simpl in *; rewrite bind_emit; simpl.
    - split; [by apply prefix_submseteq|].
      intros Hr. by rewrite H2.
    - split; [by apply prefix_submseteq|].
      intros Hr. by rewrite H2. }
  destruct (process_log_calls self items args s HW) as (tr & Hid & -> & Hret).
  rewrite calls_app, (proj1 (idle_log _ Hid)), app_nil_r.
  destruct items as [l|l]; cbv beta iota in *; unfold contents.
  - destruct (_process_batches_calls self l args)
      as [(Hlog & Hnr & _)|(splits & _ & Hcat & Hpre & Heq & Hall & _)].
    + rewrite Hlog. split; [apply submseteq_nil_l|].
      intros Hr. apply Hret in Hr. congruence.
    + rewrite Hall. split.
      * rewrite <- Hcat at 2. by apply concat_prefixes.
      * intros Hr. by rewrite Heq, Hcat by auto.
  - destruct (_process_consumers_moved self l args s)
      as ((Hc & Hg & Hle) & k & Hk & Hput & Hfin).
    rewrite !app_nil_r in Hc. rewrite app_nil_l in Hc. split; [done|].
    intros Hr. destruct (Hfin (Hret Hr)) as [-> Hge].
    apply submseteq_length_Permutation; [done|]. lia.
Qed.

(** X4. In batch mode worker [i] works on shard [i] and on nothing else:
    with the boundaries [splits] that [_process_batches] computes, the items
    on which the worker of rank [i] calls the worker function are the first
    items of [items[splits[i]:splits[i+1]]], in order, and all of them when
    [process] returns. *)
Theorem batch_worker_calls_own_shard (self : Vectorizer)
  (items args : list pyval) (s : sched) (splits : list Z) :
  batch_splits (Z.of_nat (length items)) (num_workers self) =
    Returned splits ->
  Forall2 prefix
    (calls_by (range (num_workers self))
       (log (process self (Indexable items) args s)))
    (shards_of items splits) /\
  (is_returned (out (process self (Indexable items) args s)) = true ->
   calls_by (range (num_workers self))
     (log (process self (Indexable items) args s)) =
   shards_of items splits).
Proof.
  intros Hs.
  assert (num_workers self <> 0) as HW.
  { intros HW. rewrite HW in Hs. discriminate Hs. }
  destruct (process_log_calls self (Indexable items) args s HW)
    as (tr & Hid & -> & Hret).
  cbv beta iota in *. rewrite calls_by_app_idle by done.
  destruct (_process_batches_calls self items args)
    as [(_ & _ & Hnr)|(splits' & Hs' & _ & Hpre & Heq & _ & _)].
  { by rewrite Hs in Hnr. }
  rewrite Hs in Hs'. injection Hs' as <-. split; [done|].
  intros Hr. by apply Heq, Hret.
Qed.

Lemma batch_worker_calls_own_shard_witness :
  calls_by (range 2)
    (log (process two_squarers (Indexable [PInt 1; PInt 2; PInt 3]) [] fifo)) =
  shards_of [PInt 1; PInt 2; PInt 3] [0; 2; 3].
Proof.
  apply (proj2 (batch_worker_calls_own_shard two_squarers
                  [PInt 1; PInt 2; PInt 3] [] fifo [0; 2; 3] eq_refl)).
  reflexivity.
Defined.

(** X5. In consumer mode the main thread numbers the items it dispatches
    0, 1, 2, ... in the order of the input, and every result it receives
    carries the index of a dispatched item, no index twice. When [process]
    returns, every item of the input was dispatched and the result of each
    one was received exactly once. *)
Theorem consumers_indices (self : Vectorizer) (items args : list pyval)
  (s : sched) :
  num_workers self <> 0 ->
  (exists k : nat,
     (k <= length items)%nat /\
     put_indices (log (process self (Stream items) args s)) =
       seqZ 0 (Z.of_nat k)) /\
  get_indices (log (process self (Stream items) args s)) ⊆+
    put_indices (log (process self (Stream items) args s)) /\
  (is_returned (out (process self (Stream items) args s)) = true ->
   put_indices (log (process self (Stream items) args s)) =
     range (Z.of_nat (length items)) /\
   get_indices (log (process self (Stream items) args s)) ≡ₚ
     range (Z.of_nat (length items))).
Proof.
  intros HW.
  destruct (process_log_calls self (Stream items) args s HW)
    as (tr & Hid & -> & Hret).
  cbv beta iota in *.
  destruct (idle_log _ Hid) as (_ & Hi2 & Hi3 & _).
  rewrite put_indices_app, get_indices_app, Hi2, Hi3, !app_nil_r.
  destruct (_process_consumers_moved self items args s)
    as ((_ & Hg & _) & k & Hk & Hput & Hfin).
  rewrite app_nil_r in Hg. rewrite app_nil_l in Hg.
  split_and!.
  - by exists k.
  - done.
  - intros Hr. destruct (Hfin (Hret Hr)) as [-> Hge]. split; [done|].
    unfold range. rewrite <- Hput.
    apply submseteq_length_Permutation; [done|].
    rewrite Hput, length_seqZ. lia.
Qed.

Lemma consumers_indices_witness :
  put_indices
    (log (process two_squarers (Stream [PInt 1; PInt 2; PInt 3]) [] fifo)) =
    range 3 /\
  get_indices
    (log (process two_squarers (Stream [PInt 1; PInt 2; PInt 3]) [] fifo)) ≡ₚ
    range 3.
Proof.
  destruct (consumers_indices two_squarers [PInt 1; PInt 2; PInt 3] [] fifo)
    as (_ & _ & H).
  - simpl. lia.
  - apply H. reflexivity.
Defined.

(** X6. An input that is only iterable is never too short for the workers:
    with at least one worker and a worker function that returns on every
    item, [process] returns the results in the order of the input, whatever
    the scheduling, also when there are fewer items than workers or none
    at all, and the callback, if any, was called once per item. *)
Theorem stream_returns_in_input_order (self : Vectorizer)
  (items args : list pyval) (g : pyval -> pyval) (s : sched) :
  1 <= num_workers self ->
  (forall r item, 0 <= r < num_workers self -> item ∈ items ->
     worker_func self item
       (all_args_of (worker_init self) (init_kwargs self) args r) =
     Returned (g item)) ->
  out (process self (Stream items) args s) = Returned (map g items) /\
  count is_callback (log (process self (Stream items) args s)) =
    (if has_callback self then length items else O).
Proof.
  intros HW Hg.
  destruct (process_workers_returned self args g s (Stream items) Hg HW)
    as (H1 & _ & H2); [done|]. done.
Qed.

Lemma stream_returns_in_input_order_witness :
  out (process two_squarers (Stream [PInt 3]) [] fifo) = Returned [PInt 9] /\
  count is_callback (log (process two_squarers (Stream [PInt 3]) [] fifo)) =
    O.
Proof.
  apply (stream_returns_in_input_order two_squarers [PInt 3] [] squared fifo).
  - simpl. lia.
  - intros r item _ Hin.
    repeat (apply elem_of_cons in Hin as [->|Hin]; [reflexivity|]).
    by apply elem_of_nil in Hin.
Defined.

(** ** A failing item in the item loop *)

Lemma run_items_stops (tick : bool) (r : Z) (f : worker_fn)
  (all_args pre post : list pyval) (bad : pyval) :
  (forall x, x ∈ pre -> is_returned (f x all_args) = true) ->
  is_returned (f bad all_args) = false ->
  calls (snd (run_items tick r f all_args (pre ++ bad :: post))) =
    pre ++ [bad].
Proof.
  intros Hpre Hbad. induction pre as [|x pre IH]; simpl.
  - rewrite bind_emit. simpl. by destruct (f bad all_args).
  - rewrite bind_emit. simpl.
    pose proof (Hpre x ltac:(set_solver)) as Hx.
    destruct (f x all_args); try done. simpl.
    rewrite bind_emit. simpl. rewrite bind_then_ret_snd, calls_app.
    rewrite IH by (intros y Hy; apply Hpre; set_solver).
    by destruct tick.
Qed.

(** X7. The sequential mode stops at the first item on which the worker
    function does not return: it was called on the items before it and on
    that item, in order, and on no item after it. *)
Theorem sequential_stops_at_failure (self : Vectorizer) (items : iterable)
  (args pre post : list pyval) (bad : pyval) (s : sched) :
  num_workers self = 0 ->
  contents items = pre ++ bad :: post ->
  (forall x, x ∈ pre ->
     is_returned
       (worker_func self x
          (all_args_of (worker_init self) (init_kwargs self) args 0)) =
     true) ->
  is_returned
    (worker_func self bad
       (all_args_of (worker_init self) (init_kwargs self) args 0)) = false ->
  calls (log (process self items args s)) = pre ++ [bad] /\
  is_returned (out (process self items args s)) = false.
Proof.
  intros HW Hitems Hpre Hbad. unfold process. rewrite HW. simpl.
  pose proof (run_items_stops false 0 (worker_func self) _ pre post bad
                Hpre Hbad) as Hcalls.
  pose proof (run_items_returned_inv false 0 (worker_func self)
                (all_args_of (worker_init self) (init_kwargs self) args 0)
                (pre ++ bad :: post)) as Hinv.
  unfold all_args_of in *. rewrite Hitems.
  destruct (_init_if_needed _ _ _) as [v tr0] eqn:Hinit. simpl in *.
  rewrite bind_emit. simpl.
  assert (calls tr0 = []) as Htr0.
  { unfold _init_if_needed in Hinit.
    destruct (worker_init self); by injection Hinit as _ <-. }
  rewrite calls_app, Htr0. split; [done|].
  destruct (is_returned (fst (run_items _ _ _ _ _))) eqn:Hr; [|done].
  specialize (Hinv eq_refl bad ltac:(set_solver)). congruence.
Qed.

Lemma sequential_stops_at_failure_witness :
  calls
    (log (process main_squarer (Indexable [PInt 1; PStr "x"; PInt 3]) []
            fifo)) = [PInt 1] ++ [PStr "x"] /\
  is_returned
    (out (process main_squarer (Indexable [PInt 1; PStr "x"; PInt 3]) []
            fifo)) = false.
Proof.
  apply (sequential_stops_at_failure main_squarer
           (Indexable [PInt 1; PStr "x"; PInt 3]) [] [PInt 1] [PInt 3]
           (PStr "x") fifo).
  - reflexivity.
  - reflexivity.
  - intros x Hin.
    repeat (apply elem_of_cons in Hin as [->|Hin]; [reflexivity|]).
    by apply elem_of_nil in Hin.
  - reflexivity.
Defined.

(** ** How often the callback is called *)

Lemma run_items_ticks (tick : bool) (r : Z) (f : worker_fn)
  (all_args items : list pyval) :
  (count is_tick (snd (run_items tick r f all_args items)) <=
   length (calls (snd (run_items tick r f all_args items))))%nat.
Proof.
  induction items as [|item rest IH]; simpl; [done|].
  rewrite bind_emit. simpl.
  destruct (f item all_args); simpl; rewrite count_cons; simpl;
    rewrite ?count_nil; try lia.
  rewrite bind_emit. simpl. rewrite bind_then_ret_snd.
  rewrite count_app, calls_app, length_app.
  destruct tick; simpl; rewrite ?count_cons, ?count_nil; simpl; lia.
Qed.

Lemma spawn_batches_ticks (self : Vectorizer) (splits : list Z)
  (items args : list pyval) (ranks : list Z) :
  count is_callback (snd (spawn_batches self splits items args ranks)) = O /\
  (count is_tick (snd (spawn_batches self splits items args ranks)) <=
   length (calls (snd (spawn_batches self splits items args ranks))))%nat.
Proof.
  induction ranks as [|i ranks [IH1 IH2]]; simpl; [done|].
  unfold index_list.
  destruct (splits !! Z.to_nat i) as [lo|]; [|done]. rewrite bind_ret.
  destruct (splits !! Z.to_nat (i + 1)) as [hi|]; [|done].
  rewrite bind_ret, bind_emit. simpl.
  pose proof (run_items_ticks (bool_decide (is_Some (callback_func self))) i
    (worker_func self)
    (all_args_of (worker_init self) (init_kwargs self) args i)
    (slice items lo hi)) as Ht.
  pose proof (run_items_no_callback
    (bool_decide (is_Some (callback_func self))) i (worker_func self)
    (all_args_of (worker_init self) (init_kwargs self) args i)
    (slice items lo hi)) as Hc.
  unfold _batch_worker, all_args_of, _init_if_needed in *.
  destruct (worker_init self); simpl in *; rewrite bind_emit; simpl;
    rewrite bind_emit; simpl; rewrite bind_then_ret_snd;
    rewrite ?count_cons, !count_app, ?calls_app, ?length_app, Hc, IH1;
    simpl; split; try done; lia.
Qed.

Lemma tick_loop_callbacks (n ticks : nat) :
  (count is_callback (snd (tick_loop n ticks)) <= ticks)%nat /\
  (is_returned (fst (tick_loop n ticks)) = true ->
   count is_callback (snd (tick_loop n ticks)) = n).
Proof.
  revert ticks. induction n as [|n IH]; intros [|ticks]; simpl;
    rewrite ?count_nil; try (split; [lia|done]).
  rewrite bind_emit. simpl. rewrite count_cons. simpl.
  destruct (IH ticks) as [IH1 IH2]. split; [lia|].
  intros Hr. by rewrite IH2.
Qed.

Lemma _process_batches_callbacks (self : Vectorizer)
  (items args : list pyval) :
  (count is_callback (log (_process_batches self items args)) <=
   length (calls (log (_process_batches self items args))))%nat /\
  (is_returned (out (_process_batches self items args)) = true ->
   count is_callback (log (_process_batches self items args)) =
   if has_callback self then length items else O).
Proof.
  unfold _process_batches.
  destruct (batch_splits _ _) as [splits| |]; simpl;
    try (rewrite ?count_nil; split; [simpl; lia|done]).
  destruct (spawn_batches_ticks self splits items args
              (range (num_workers self))) as [Hc Ht].
  destruct (spawn_batches self splits items args (range (num_workers self)))
    as [[queues| |] tr]; simpl in *; try (rewrite Hc; split; [lia|done]).
  rewrite bind_emit. simpl. rewrite bind_fst, bind_snd, gather_log.
  rewrite count_app, calls_app, length_app, Hc.
  unfold has_callback.
  destruct (callback_func self) as [cb|]; simpl.
  - destruct (tick_loop_callbacks (length items) (count is_tick tr))
      as [H1 H2].
    destruct (tick_loop (length items) (count is_tick tr)) as [o tr2].
    simpl in *.
    assert (tr2 ++ match o with Returned _ | _ => [] end = tr2) as ->
      by (destruct o; apply app_nil_r).
    split; [lia|]. intros Hr. apply H2. by destruct o.
  - rewrite count_nil. split; [lia|done].
Qed.

Section callbacks.
Variable self : Vectorizer.
Variable args : list pyval.
Variable s : sched.

Lemma pull_get_callbacks fuel p :
  count is_callback (snd (pull_get self args s fuel p)) = O.
Proof.
  revert p. induction fuel as [|fuel IH]; intros p; [done|].
  rewrite pull_get_S. simpl.
  destruct (inflight p !! _) as [[idx item]|]; [|done].
  destruct (live p !! _) as [r|]; [|done].
  rewrite bind_emit. simpl. rewrite count_cons. simpl.
  destruct (worker_func self item _); try apply IH. done.
Qed.

Lemma prime_callbacks n st : count is_callback (snd (prime n st)) = O.
Proof.
  revert st. induction n as [|n IH]; intros st; simpl; [done|].
  destruct (iterator st); [done|].
  rewrite bind_emit. simpl. rewrite count_cons. simpl. apply IH.
Qed.

(** One round of the loops of [_process_consumers]: a result is received,
    then the callback is called. *)
Lemma get_then_callback p :
  exists o tr,
    get self args s p = (o, tr) /\
    count is_callback tr = O /\
    match o with
    | Returned _ =>
        length (get_indices tr) = 1%nat /\
        fst (call_callback self) = Returned tt /\
        get_indices (snd (call_callback self)) = [] /\
        count is_callback (snd (call_callback self)) =
          (if has_callback self then 1 else 0)%nat
    | _ => get_indices tr = []
    end.
Proof.
  pose proof (pull_get_callbacks (length (inflight p)) p) as Hc.
  destruct (get_moved self args s p []) as [_ Hg].
  unfold get in *.
  destruct (pull_get self args s (length (inflight p)) p) as [o tr].
  exists o, tr. split; [done|]. split; [done|]. simpl in *.
  destruct o as [[r p']| |]; try apply Hg.
  split; [apply Hg|]. unfold call_callback, has_callback.
  by destruct (callback_func self).
Qed.

Lemma pump_callbacks rest ix ex res p :
  count is_callback (snd (pump self args s rest ix ex res p)) =
  if has_callback self
  then length (get_indices (snd (pump self args s rest ix ex res p)))
  else O.
Proof.
  revert ix ex res p. induction rest as [|item rest IH]; intros ix ex res p;
    simpl; destruct (get_then_callback p) as (o & tr & -> & Hc & Ho);
    (destruct o as [got| |];
     [destruct Ho as (Hone & Hret & Hcg & Hcc)|
      unfold bind; simpl; rewrite Hc, Ho; by destruct (has_callback self)..]);
    rewrite bind_eq; simpl; rewrite bind_snd, Hret.
  - simpl. rewrite !count_app, !get_indices_app, !length_app, Hc, Hcc, Hcg,
      Hone. simpl. by destruct (has_callback self).
  - rewrite bind_emit. simpl.
    rewrite !count_app, !get_indices_app, !length_app, Hc, Hcc, Hcg, Hone.
    rewrite count_cons. simpl. rewrite IH.
    by destruct (has_callback self).
Qed.

Lemma drain_callbacks n res p :
  count is_callback (snd (drain self args s n res p)) =
  if has_callback self
  then length (get_indices (snd (drain self args s n res p)))
  else O.
Proof.
  revert res p. induction n as [|n IH]; intros res p; simpl.
  { by destruct (has_callback self). }
  destruct (get_then_callback p) as (o & tr & -> & Hc & Ho).
  destruct o as [got| |];
    [destruct Ho as (Hone & Hret & Hcg & Hcc)|
     unfold bind; simpl; rewrite Hc, Ho; by destruct (has_callback self)..].
  rewrite bind_eq. simpl. rewrite bind_snd, Hret.
  rewrite !count_app, !get_indices_app, !length_app, Hc, Hcc, Hcg, Hone.
  rewrite IH. simpl. by destruct (has_callback self).
Qed.

Lemma dispatch_callbacks items :
  count is_callback (snd (dispatch self items args s)) =
  if has_callback self
  then length (get_indices (snd (dispatch self items args s)))
  else O.
Proof.
  unfold dispatch.
  match goal with |- context [prime ?n ?st] =>
    destruct (prime_moved n st)
      as (st1 & b & k1 & Hrun & _ & _ & Hget1 & _);
    pose proof (prime_callbacks n st) as Hc1;
    rewrite Hrun;
    generalize dependent (snd (prime n st))
  end.
  intros tr1 _ Hget1 Hc1. rewrite bind_eq. simpl.
  assert (let m := (if b then ret st1
                    else pump self args s (iterator st1) (index st1)
                           (expect st1) (result st1) (workers st1)) in
          count is_callback (snd m) =
          if has_callback self then length (get_indices (snd m)) else O)
    as Hc2.
  { destruct b; [simpl; by destruct (has_callback self)|].
    apply pump_callbacks. }
  destruct (if b then _ else _) as [[st2| |] tr2]; simpl in *.
  - rewrite bind_eq. simpl. rewrite bind_then_ret_snd.
    pose proof (drain_callbacks (Z.to_nat (expect st2)) (result st2)
                  (workers st2)) as Hc3.
    rewrite !count_app, !get_indices_app, !length_app, Hc1, Hc2, Hc3, Hget1.
    simpl. by destruct (has_callback self).
  - unfold bind. simpl.
    rewrite !count_app, !get_indices_app, !length_app, Hc1, Hc2, Hget1.
    simpl. by destruct (has_callback self).
  - unfold bind. simpl.
    rewrite !count_app, !get_indices_app, !length_app, Hc1, Hc2, Hget1.
    simpl. by destruct (has_callback self).
Qed.

Lemma _process_consumers_callbacks items :
  count is_callback (log (_process_consumers self items args s)) =
  if has_callback self
  then length (get_indices (log (_process_consumers self items args s)))
  else O.
Proof.
  unfold _process_consumers. simpl. rewrite bind_emit. simpl.
  pose proof (spawn_consumers_idle self (range (num_workers self))) as Hid.
  destruct (idle_log _ Hid) as (_ & _ & Hg & _).
  destruct (spawn_consumers_lifecycle self (range (num_workers self)))
    as (_ & _ & _).
  assert (count is_callback
            (spawn_consumers self (range (num_workers self))) = O) as Hc.
  { generalize (range (num_workers self)). intros ranks.
    induction ranks as [|i ranks IH]; [done|]. simpl.
    unfold _init_if_needed. destruct (worker_init self); simpl;
      rewrite ?count_cons, IH; done. }
  rewrite count_app, get_indices_app, length_app, Hc, Hg,
    dispatch_callbacks.
  done.
Qed.
End callbacks.

(** X8. The callback follows the results. In every mode and whatever the
    outcome, the callback has been called at most as often as the worker
    function. When [process] returns, the callback was called exactly once
    per item if there are workers and a callback is configured, and not at
    all otherwise: the sequential mode never calls it. *)
Theorem callbacks_follow_results (self : Vectorizer) (items : iterable)
  (args : list pyval) (s : sched) :
  (count is_callback (log (process self items args s)) <=
   length (calls (log (process self items args s))))%nat /\
  (is_returned (out (process self items args s)) = true ->
   count is_callback (log (process self items args s)) =
   if has_callback self && negb (num_workers self =? 0)
   then length (contents items) else O).
Proof.
  destruct (Z.eq_dec (num_workers self) 0) as [HW|HW].
  { pose proof (process_sequential_no_callback self items args s HW) as H.
    rewrite H, HW, andb_false_r. split; [lia|done]. }
  rewrite (proj2 (Z.eqb_neq _ _) HW), andb_true_r.
  destruct (process_log_calls self items args s HW) as (tr & Hid & Hlog & Hret).
  assert (count is_callback tr = O) as Hcb.
  { revert Hlog. unfold process.
    destruct (Z.eqb_spec (num_workers self) 0); [done|].
    destruct (match items with Indexable _ => _ | Stream _ => _ end)
      as [[res| |] self' tr0]; simpl.
    - destruct (_shutdown_fn self') as [fn|]; simpl.
      + intros <-%app_inv_head. apply count_call_shutdown.
      + rewrite <- (app_nil_r tr0) at 1. by intros <-%app_inv_head.
    - rewrite <- (app_nil_r tr0) at 1. by intros <-%app_inv_head.
    - rewrite <- (app_nil_r tr0) at 1. by intros <-%app_inv_head. }
  rewrite Hlog, count_app, calls_app, length_app, Hcb.
  rewrite (proj1 (idle_log _ Hid)). simpl. rewrite !Nat.add_0_r.
  destruct items as [l|l]; cbv beta iota in *; unfold contents.
  - destruct (_process_batches_callbacks self l args) as [H1 H2].
    split; [done|]. intros Hr. by apply H2, Hret.
  - rewrite _process_consumers_callbacks.
    destruct (_process_consumers_moved self l args s)
      as ((_ & Hg & Hle) & k & Hk & Hput & Hfin).
    rewrite app_nil_r in Hg. rewrite app_nil_l in Hg.
    split; [destruct (has_callback self); lia|].
    intros Hr. destruct (Hfin (Hret Hr)) as [-> Hge].
    apply submseteq_length in Hg. rewrite Hput, length_seqZ in Hg.
    destruct (has_callback self); [lia|done].
Qed.

(** X9. In batch mode the workers do not depend on each other: whatever
    happens in the others, the worker of rank [i] calls the worker function
    on the items of its shard [items[splits[i]:splits[i+1]]] in order, up to
    and including the first one on which the worker function does not
    return, and on no item after that one. *)
Theorem batch_workers_independent (self : Vectorizer)
  (items args : list pyval) (s : sched) (splits : list Z) :
  batch_splits (Z.of_nat (length items)) (num_workers self) =
    Returned splits ->
  calls_by (range (num_workers self))
    (log (process self (Indexable items) args s)) =
  zip_with
    (fun i shard =>
       attempted (worker_func self)
         (all_args_of (worker_init self) (init_kwargs self) args i) shard)
    (range (num_workers self)) (shards_of items splits).
Proof.
  intros Hs.
  assert (num_workers self <> 0) as HW.
  { intros HW. rewrite HW in Hs. discriminate Hs. }
  destruct (process_log_calls self (Indexable items) args s HW)
    as (tr & Hid & -> & Hret).
  cbv beta iota in *. rewrite calls_by_app_idle by done.
  destruct (_process_batches_calls self items args)
    as [(_ & _ & Hnr)|(splits' & Hs' & _ & _ & _ & _ & Hatt)].
  { by rewrite Hs in Hnr. }
  rewrite Hs in Hs'. by injection Hs' as <-.
Qed.

Lemma batch_workers_independent_witness :
  calls_by (range 2)
    (log (process two_squarers
            (Indexable [PStr "x"; PInt 2; PInt 3; PInt 4]) [] fifo)) =
  zip_with
    (fun i shard =>
       attempted (worker_func two_squarers)
         (all_args_of (worker_init two_squarers) (init_kwargs two_squarers)
            [] i) shard)
    (range 2) (shards_of [PStr "x"; PInt 2; PInt 3; PInt 4] [0; 2; 4]).
Proof.
  apply (batch_workers_independent two_squarers
           [PStr "x"; PInt 2; PInt 3; PInt 4] [] fifo [0; 2; 4]).
  reflexivity.
Defined.

(** ** A worker function that raises, with workers *)

Lemma bind_not_raised {A B} (m : eff A) (k : A -> eff B) :
  is_raised (fst m) = false ->
  (forall a, is_raised (fst (k a)) = false) ->
  is_raised (fst (bind m k)) = false.
Proof. intros Hm Hk. rewrite bind_fst. by destruct (fst m). Qed.

Lemma not_returned_not_raised {A} (o : outcome A) :
  is_returned o = false -> is_raised o = false -> o = Blocked.
Proof. by destruct o. Qed.

Lemma tick_loop_not_raised (n ticks : nat) :
  is_raised (fst (tick_loop n ticks)) = false.
Proof.
  revert ticks. induction n as [|n IH]; intros [|ticks]; simpl; try done.
  apply bind_not_raised; [done|]. intros _. apply IH.
Qed.

Lemma gather_not_raised (queues : list (option (list pyval))) :
  is_raised (fst (gather queues)) = false.
Proof.
  induction queues as [|[bundle|] queues IH]; simpl; try done.
  apply bind_not_raised; [done|]. done.
Qed.

(** Once the workers are started, [_process_batches] returns or waits for
    ever; the workers are all started, none is stopped and the shutdown
    action for them is recorded. *)
Lemma _process_batches_waits (self : Vectorizer) (items args : list pyval) :
  1 <= num_workers self <= Z.of_nat (length items) ->
  is_raised (out (_process_batches self items args)) = false /\
  spawned_ranks (log (_process_batches self items args)) =
    range (num_workers self) /\
  terminated_ranks (log (_process_batches self items args)) = [] /\
  obj (_process_batches self items args) =
    set_shutdown (Some (ShutdownBatches (range (num_workers self)))) self.
Proof.
  intros HW.
  destruct (batch_splits_shards items (num_workers self) HW)
    as (splits & Hs & _ & _ & Hlen & _).
  unfold _process_batches. rewrite Hs.
  pose proof (shards_of_length items splits) as Hlen'.
  destruct (spawn_batches_lifecycle self splits items args
              (Z.to_nat (num_workers self)) 0 ltac:(lia))
    as (queues & tr & Hrun & Hsp & Hte).
  rewrite Z2Nat.id in Hrun, Hsp by lia.
  change (seqZ (Z.of_nat 0) (num_workers self))
    with (range (num_workers self)) in Hrun, Hsp.
  rewrite Hrun. simpl. rewrite bind_emit. simpl.
  assert (Forall working
    (snd (bind match callback_func self with
               | Some _ => tick_loop (length items) (count is_tick tr)
               | None => ret tt
               end (fun _ => gather queues)))) as Hw.
  { apply bind_Forall.
    - destruct (callback_func self); [apply tick_loop_working|constructor].
    - intros _. rewrite gather_log. constructor. }
  apply working_log in Hw as (Hw1 & Hw2 & _).
  rewrite spawned_ranks_app, terminated_ranks_app, Hsp, Hte, Hw1, Hw2.
  rewrite !app_nil_r. split_and!; try done.
  apply bind_not_raised.
  - destruct (callback_func self); [apply tick_loop_not_raised|done].
  - intros _. apply gather_not_raised.
Qed.

Section consumers_wait.
Variable self : Vectorizer.
Variable args : list pyval.
Variable s : sched.

Lemma pull_get_not_raised fuel p :
  is_raised (fst (pull_get self args s fuel p)) = false.
Proof.
  revert p. induction fuel as [|fuel IH]; intros p; [done|].
  rewrite pull_get_S. simpl.
  destruct (inflight p !! _) as [[idx item]|]; [|done].
  destruct (live p !! _) as [r|]; [|done].
  apply bind_not_raised; [done|]. intros _.
  destruct (worker_func self item _); try apply IH.
  apply bind_not_raised; [done|]. done.
Qed.

Lemma call_callback_not_raised : is_raised (fst (call_callback self)) = false.
Proof. unfold call_callback. by destruct (callback_func self). Qed.

Lemma prime_not_raised n st : is_raised (fst (prime n st)) = false.
Proof.
  revert st. induction n as [|n IH]; intros st; simpl; [done|].
  destruct (iterator st); [done|].
  apply bind_not_raised; [done|]. intros _. apply IH.
Qed.

Lemma pump_not_raised rest ix ex res p :
  is_raised (fst (pump self args s rest ix ex res p)) = false.
Proof.
  revert ix ex res p. induction rest as [|item rest IH]; intros; simpl;
    (apply bind_not_raised; [apply pull_get_not_raised|]); intros got;
    (apply bind_not_raised; [apply call_callback_not_raised|]); intros _.
  - done.
  - apply bind_not_raised; [done|]. intros _. apply IH.
Qed.

Lemma drain_not_raised n res p :
  is_raised (fst (drain self args s n res p)) = false.
Proof.
  revert res p. induction n as [|n IH]; intros; simpl; [done|].
  apply bind_not_raised; [apply pull_get_not_raised|]. intros got.
  apply bind_not_raised; [apply call_callback_not_raised|]. intros _.
  apply IH.
Qed.

Lemma dispatch_not_raised items :
  is_raised (fst (dispatch self items args s)) = false.
Proof.
  unfold dispatch. apply bind_not_raised; [apply prime_not_raised|].
  intros primed. apply bind_not_raised.
  - destruct (snd primed); [done|apply pump_not_raised].
  - intros st. apply bind_not_raised; [apply drain_not_raised|]. done.
Qed.

(** [_process_consumers] never raises: it returns or waits for ever, with
    all the workers started, none stopped and the shutdown action for them
    recorded. *)
Lemma _process_consumers_waits items :
  is_raised (out (_process_consumers self items args s)) = false /\
  spawned_ranks (log (_process_consumers self items args s)) =
    range (num_workers self) /\
  terminated_ranks (log (_process_consumers self items args s)) = [] /\
  obj (_process_consumers self items args s) =
    set_shutdown (Some (ShutdownConsumers (range (num_workers self)))) self.
Proof.
  unfold _process_consumers. simpl. rewrite bind_emit. simpl.
  destruct (spawn_consumers_lifecycle self (range (num_workers self)))
    as (H1 & H2 & _).
  pose proof (working_log _ (dispatch_working self args s items))
    as (Hw1 & Hw2 & _).
  rewrite spawned_ranks_app, terminated_ranks_app, H1, H2, Hw1, Hw2.
  rewrite !app_nil_r. split_and!; try done. apply dispatch_not_raised.
Qed.
End consumers_wait.

(** With at least one worker, and for an indexable input at least as many
    items as workers, a call of [process] that does not return waits for
    ever: all the workers were started, none was stopped, and the shutdown
    action for them is still recorded. *)
Lemma process_workers_wait (self : Vectorizer) (items : iterable)
  (args : list pyval) (s : sched) :
  1 <= num_workers self ->
  (forall l, items = Indexable l -> num_workers self <= Z.of_nat (length l)) ->
  is_returned (out (process self items args s)) = false ->
  out (process self items args s) = Blocked /\
  spawned_ranks (log (process self items args s)) =
    range (num_workers self) /\
  terminated_ranks (log (process self items args s)) = [] /\
  _shutdown_fn (obj (process self items args s)) =
    Some (shutdown_of items (range (num_workers self))) /\
  terminated_ranks (__del__ (obj (process self items args s))) =
    range (num_workers self).
Proof.
  intros HW Hlen. unfold process.
  destruct (Z.eqb_spec (num_workers self) 0); [lia|].
  assert (is_raised
            (out match items with
                 | Indexable l => _process_batches self l args
                 | Stream l => _process_consumers self l args s
                 end) = false /\
          spawned_ranks
            (log match items with
                 | Indexable l => _process_batches self l args
                 | Stream l => _process_consumers self l args s
                 end) = range (num_workers self) /\
          terminated_ranks
            (log match items with
                 | Indexable l => _process_batches self l args
                 | Stream l => _process_consumers self l args s
                 end) = [] /\
          obj match items with
              | Indexable l => _process_batches self l args
              | Stream l => _process_consumers self l args s
              end =
          set_shutdown
            (Some (shutdown_of items (range (num_workers self)))) self)
    as (Hnr & Hsp & Hte & Hobj).
  { destruct items as [l|l]; simpl.
    - apply _process_batches_waits. split; [done|]. by apply Hlen.
    - apply _process_consumers_waits. }
  destruct (match items with Indexable _ => _ | Stream _ => _ end)
    as [[res| |] self' tr]; simpl in *; subst self'; simpl; try done.
  intros _. split_and!; try done.
  unfold __del__. simpl. rewrite terminated_call_shutdown. by destruct items.
Qed.

(** C5, as the code has it. In sequential mode an exception of the worker
    function leaves [process]: no result list is returned, no process was
    started and the object is unchanged, so that a later call on items on
    which the worker function returns gives their results. With workers,
    the exception stays in the worker process: [process] does not return a
    result list when the worker function does not return on some item.
    With at least one worker, and for an indexable input at least as many
    items as workers, [process] then neither returns nor raises but waits
    for ever on a queue; all the workers of the run were started, [process]
    has stopped none of them, and the shutdown action for exactly these
    workers stays recorded: it stops them when the object is discarded. *)
Theorem process_worker_func_raises (self : Vectorizer) (items : iterable)
  (args pre post : list pyval) (bad : pyval) (g : pyval -> pyval) (e : exn)
  (s : sched) :
  (num_workers self = 0 ->
   contents items = pre ++ bad :: post ->
   (forall x, x ∈ pre ->
      worker_func self x
        (all_args_of (worker_init self) (init_kwargs self) args 0) =
      Returned (g x)) ->
   worker_func self bad
     (all_args_of (worker_init self) (init_kwargs self) args 0) = Raised e ->
   let r := process self items args s in
   out r = Raised e /\ obj r = self /\ spawned_ranks (log r) = [] /\
   forall items2,
     (forall x, x ∈ contents items2 ->
        worker_func self x
          (all_args_of (worker_init self) (init_kwargs self) args 0) =
        Returned (g x)) ->
     out (process (obj r) items2 args s) =
     Returned (map g (contents items2))) /\
  (num_workers self <> 0 ->
   bad ∈ contents items ->
   (forall a, is_returned (worker_func self bad a) = false) ->
   is_returned (out (process self items args s)) = false) /\
  (1 <= num_workers self ->
   (forall l, items = Indexable l ->
      num_workers self <= Z.of_nat (length l)) ->
   bad ∈ contents items ->
   (forall a, is_returned (worker_func self bad a) = false) ->
   let r := process self items args s in
   out r = Blocked /\
   spawned_ranks (log r) = range (num_workers self) /\
   terminated_ranks (log r) = [] /\
   _shutdown_fn (obj r) =
     Some (shutdown_of items (range (num_workers self))) /\
   terminated_ranks (__del__ (obj r)) = range (num_workers self)).
Proof.
  assert (num_workers self <> 0 ->
          bad ∈ contents items ->
          (forall a, is_returned (worker_func self bad a) = false) ->
          is_returned (out (process self items args s)) = false) as Hnot.
  { intros HW Hin Hbad. unfold process.
    destruct (Z.eqb_spec (num_workers self) 0); [done|].
    destruct items as [l|l]; simpl in Hin.
    + pose proof (_process_batches_not_returned self args l bad Hin Hbad)
        as Hr.
      by destruct (_process_batches self l args) as [[res| |] self' tr].
    + pose proof (_process_consumers_not_returned self args s bad Hbad l Hin)
        as Hr.
      by destruct (_process_consumers self l args s) as [[res| |] self' tr]. }
  split_and!.
  - intros HW Hitems Hpre Hbad r.
    destruct (process_sequential_raised self items args pre post bad g e s
                HW Hitems Hpre Hbad) as (Hout & Hobj & Hsp).
    fold r in Hout, Hobj, Hsp. split_and!; try done.
    intros items2 Hg. rewrite Hobj.
    by apply (process_sequential_returned self args g s items2).
  - exact Hnot.
  - intros HW Hlen Hin Hbad r. subst r.
    apply process_workers_wait; [done..|].
    apply Hnot; [lia|done..].
Qed.

Lemma process_worker_func_raises_witness :
  (out (process main_squarer (Stream [PInt 1; PNone; PInt 3]) [] fifo) =
     Raised (UserError "not a number") /\
   obj (process main_squarer (Stream [PInt 1; PNone; PInt 3]) [] fifo) =
     main_squarer /\
   spawned_ranks
     (log (process main_squarer (Stream [PInt 1; PNone; PInt 3]) [] fifo)) =
     [] /\
   out (process
          (obj (process main_squarer (Stream [PInt 1; PNone; PInt 3]) []
                  fifo))
          (Stream [PInt 2]) [] fifo) = Returned [PInt 4]) /\
  is_returned
    (out (process two_squarers (Stream [PInt 1; PNone; PInt 3]) [] fifo)) =
    false /\
  (out (process two_squarers (Indexable [PInt 1; PNone; PInt 3]) [] fifo) =
     Blocked /\
   spawned_ranks
     (log (process two_squarers (Indexable [PInt 1; PNone; PInt 3]) []
             fifo)) = range 2 /\
   terminated_ranks
     (log (process two_squarers (Indexable [PInt 1; PNone; PInt 3]) []
             fifo)) = [] /\
   _shutdown_fn
     (obj (process two_squarers (Indexable [PInt 1; PNone; PInt 3]) []
             fifo)) =
     Some (shutdown_of (Indexable [PInt 1; PNone; PInt 3]) (range 2)) /\
   terminated_ranks
     (__del__
        (obj (process two_squarers (Indexable [PInt 1; PNone; PInt 3]) []
                fifo))) = range 2).
Proof.
  split; [|split].
  - destruct (proj1 (process_worker_func_raises main_squarer
      (Stream [PInt 1; PNone; PInt 3]) [] [PInt 1] [PInt 3] PNone squared
      (UserError "not a number") fifo)) as (H1 & H2 & H3 & H4);
      try reflexivity.
    { intros x Hx. apply elem_of_cons in Hx as [->|Hx]; [reflexivity|].
      by apply elem_of_nil in Hx. }
    split; [exact H1|]. split; [exact H2|]. split; [exact H3|].
    apply (H4 (Stream [PInt 2])).
    intros x Hx. apply elem_of_cons in Hx as [->|Hx]; [reflexivity|].
    by apply elem_of_nil in Hx.
  - apply (proj1 (proj2 (process_worker_func_raises two_squarers
      (Stream [PInt 1; PNone; PInt 3]) [] [] [] PNone squared
      (UserError "not a number") fifo))).
    + discriminate.
    + simpl. set_solver.
    + reflexivity.
  - apply (proj2 (proj2 (process_worker_func_raises two_squarers
      (Indexable [PInt 1; PNone; PInt 3]) [] [] [] PNone squared
      (UserError "not a number") fifo))).
    + simpl. lia.
    + intros l [= <-]. simpl. lia.
    + simpl. set_solver.
    + reflexivity.
Defined.

(** * Properties of the training callbacks *)

(** ** Early stopping *)

Section early_stopping_facts.
Import base EarlyStopping.
Context {V : Type} `{!Number V} {D : Type}.
Local Abbreviation callback := (@EarlyStopping.t V D).
Local Abbreviation store := (@EarlyStopping.heap D).

(** The comparison only looks at the watched names, the best metric and
    the direction. *)
Lemma _is_metric_better_ext (self self' : callback) (metrics : gmap string V) :
  metric self' = metric self -> best_metric self' = best_metric self ->
  minimize self' = minimize self ->
  _is_metric_better self' metrics = _is_metric_better self metrics.
Proof.
  intros H1 H2 H3. unfold _is_metric_better, _current_metric.
  by rewrite H1, H2, H3.
Qed.

(** An epoch without improvement. *)
Lemma after_epoch_stale (self : callback) (h : store)
  (metrics : gmap string V) (e c : Z) :
  epoch self = Some e -> counter self = Some c ->
  _is_metric_better self metrics = inl false ->
  after_epoch self h metrics =
    (set_counter (Some (c + 1)) (set_epoch (Some (e + 1)) self),
     if c + 1 =? patience self
     then Some (CallbackException (e + 1) (patience self)) else None).
Proof.
  intros He Hc Hb. unfold after_epoch. rewrite He.
  rewrite (_is_metric_better_ext self) by done. rewrite Hb. simpl.
  rewrite Hc. by destruct (c + 1 =? patience self).
Qed.

Lemma after_epochs_stale (epochs : list (store * gmap string V)) :
  forall (self : callback) (e c : Z),
    epoch self = Some e -> counter self = Some c ->
    c + Z.of_nat (length epochs) < patience self ->
    Forall (fun x => _is_metric_better self (snd x) = inl false) epochs ->
    after_epochs self epochs =
      (set_counter (Some (c + Z.of_nat (length epochs)))
         (set_epoch (Some (e + Z.of_nat (length epochs))) self), None).
Proof.
  induction epochs as [|[h metrics] epochs IH]; intros self e c He Hc Hlen Hall.
  { simpl. rewrite !Z.add_0_r. destruct self; simpl in *. by subst. }
  apply Forall_cons in Hall as [Hx Hall]. simpl in *.
  rewrite (after_epoch_stale self h metrics e c) by done.
  destruct (Z.eqb_spec (c + 1) (patience self)); [lia|].
  rewrite (IH _ (e + 1) (c + 1)); simpl; try done; try lia.
  unfold set_counter, set_epoch. simpl.
  replace (c + 1 + Z.of_nat (length epochs))
    with (c + Z.of_nat (S (length epochs))) by lia.
  replace (e + 1 + Z.of_nat (length epochs))
    with (e + Z.of_nat (S (length epochs))) by lia.
  done.
Qed.

(** Every call of [after_epoch] counts the epoch and keeps the counter
    between 0 and the number of epochs; a [CallbackException] is raised
    only when the counter has reached the patience. *)
Lemma after_epoch_counted (self : callback) (h : store)
  (metrics : gmap string V) (p k : Z) :
  counted p k self ->
  counted p (k + 1) (fst (after_epoch self h metrics)) /\
  forall e q, snd (after_epoch self h metrics) = Some (CallbackException e q) ->
    e = k + 1 /\ q = p /\
    counter (fst (after_epoch self h metrics)) = Some p /\ 1 <= p <= k + 1.
Proof.
  intros (Hp & He & c & Hc & Hck). unfold after_epoch. rewrite He.
  assert (forall (l : list string) acc e q,
            sum_metrics metrics acc l <> inr (CallbackException e q)) as Hsum.
  { induction l as [|m l IH]; intros acc e q; simpl; [done|].
    destruct (metrics !! m); [apply IH|done]. }
  assert (forall (s : callback) e q,
            _current_metric s metrics <> inr (CallbackException e q)) as Hcur.
  { intros s e q. unfold _current_metric.
    destruct (metric s); [by destruct (metrics !! m)|apply Hsum]. }
  unfold _is_metric_better.
  destruct (_current_metric (set_epoch (Some (k + 1)) self) metrics)
    as [v|err] eqn:Hv; simpl.
  2:{ split.
      - split_and!; simpl; try done. exists c. split; [done|lia].
      - intros e q [= ->]. by destruct (Hcur _ _ _ Hv). }
  destruct (best_metric self) as [best|]; simpl.
  2:{ split; [|done]. split_and!; simpl; try done. exists c.
      split; [done|lia]. }
  destruct (if minimize self then num_lt v best else num_lt best v).
  - destruct (restore_best self); simpl.
    + destruct (model self) as [m|]; simpl.
      * unfold _current_metric in *. simpl in *. rewrite Hv. simpl.
        split; [|done]. split_and!; try done. exists 0. split; [done|lia].
      * split; [|done]. split_and!; simpl; try done. exists c.
        split; [done|lia].
    + unfold _current_metric in *. simpl in *. rewrite Hv. simpl.
      split; [|done]. split_and!; try done. exists 0. split; [done|lia].
  - rewrite Hc. simpl.
    destruct (Z.eqb_spec (c + 1) (patience self)) as [Heq|Hne]; simpl.
    + split.
      * split_and!; try done. exists (c + 1). split; [done|lia].
      * intros e q [= <- <-]. split_and!; try done; try lia.
        congruence.
    + split; [|done]. split_and!; try done. exists (c + 1).
      split; [done|lia].
Qed.

Lemma after_epochs_counted (epochs : list (store * gmap string V)) :
  forall (self : callback) (p k : Z),
    counted p k self ->
    forall self' e q,
      after_epochs self epochs = (self', Some (CallbackException e q)) ->
      q = p /\ 1 <= p <= e /\ k < e <= k + Z.of_nat (length epochs) /\
      epoch self' = Some e /\ counter self' = Some p.
Proof.
  induction epochs as [|[h metrics] epochs IH]; intros self p k Hinv self' e q;
    simpl; [done|].
  destruct (after_epoch_counted self h metrics p k Hinv) as [Hnext Hraise].
  destruct (after_epoch self h metrics) as [self1 [err|]]; simpl in *.
  - intros [= <- ->]. destruct (Hraise e q eq_refl) as (-> & -> & Hc & Hp).
    destruct Hnext as (_ & He & _). split_and!; try done; lia.
  - intros Hrun. destruct (IH self1 p (k + 1) Hnext _ _ _ Hrun)
      as (-> & Hp & He & Hep & Hc).
    split_and!; try done; lia.
Qed.

Lemma before_training_counted (self : callback) (h : store) (m : nat) :
  counted (patience self) 0 (before_training self h m).
Proof.
  unfold before_training, counted.
  destruct (restore_best (set_model (Some m) self)); simpl;
    (split_and!; try done; exists 0; split; [done|lia]).
Qed.
Lemma after_epochs_app (self : callback)
  (l1 l2 : list (store * gmap string V)) :
  after_epochs self (l1 ++ l2) =
  match after_epochs self l1 with
  | (self', None) => after_epochs self' l2
  | r => r
  end.
Proof.
  revert self. induction l1 as [|[h metrics] l1 IH]; intros self; simpl;
    [done|].
  destruct (after_epoch self h metrics) as [self1 [err|]]; [done|apply IH].
Qed.

(** X10. Early stopping stops after exactly [patience] epochs in a row
    without improvement, and not before: from a counter [c] below the
    patience, [patience - c] epochs whose metric is not better than the
    best one go by, the calls of [after_epoch] return for all of them but
    the last, and the last raises [CallbackException] with the number of
    that epoch, leaving the best metric and the saved parameters as they
    were. *)
Theorem early_stopping_stops_after_patience (self : callback)
  (epochs : list (store * gmap string V)) (e c : Z) :
  epoch self = Some e -> counter self = Some c ->
  c < patience self ->
  c + Z.of_nat (length epochs) = patience self ->
  Forall (fun x => _is_metric_better self (snd x) = inl false) epochs ->
  Forall (fun k => snd (after_epochs self (take k epochs)) = None)
    (seq 0 (length epochs)) /\
  after_epochs self epochs =
    (set_counter (Some (patience self))
       (set_epoch (Some (e + Z.of_nat (length epochs))) self),
     Some (CallbackException (e + Z.of_nat (length epochs)) (patience self))).
Proof.
  intros He Hc Hlt Hlen Hall. split.
  - apply Forall_forall. intros k Hk%elem_of_seq.
    rewrite (after_epochs_stale _ self e c); try done.
    + rewrite length_take. lia.
    + by apply Forall_take.
  - destruct (decide (epochs = [])) as [->|Hne]; [simpl in *; lia|].
    destruct (exists_last Hne) as (init & [h metrics] & ->).
    rewrite length_app in *. simpl in *.
    apply Forall_app in Hall as [Hinit Hlast].
    apply Forall_cons in Hlast as [Hlast _]. simpl in Hlast.
    rewrite after_epochs_app.
    rewrite (after_epochs_stale _ self e c) by (done || lia). simpl.
    rewrite (after_epoch_stale _ h metrics (e + Z.of_nat (length init))
               (c + Z.of_nat (length init))); try done.
    simpl.
    destruct (Z.eqb_spec (c + Z.of_nat (length init) + 1) (patience self));
      [|lia].
    unfold set_counter, set_epoch. simpl.
    replace (c + Z.of_nat (length init) + 1) with (patience self) by lia.
    replace (e + Z.of_nat (length init) + 1)
      with (e + Z.of_nat (length init + 1)) by lia.
    done.
Qed.

(** X11. Early stopping never stops a training before [patience] epochs
    have gone by: when one of the calls of [after_epoch] that follow
    [before_training] raises [CallbackException], the exception names the
    patience of the callback, the patience is at least 1, the number of
    the epoch is at least the patience, and the counter equals the
    patience. In particular a patience of 0 or less never stops the
    training. *)
Theorem early_stopping_not_before_patience (self self' : callback)
  (h : store) (m : nat) (epochs : list (store * gmap string V)) (e q : Z) :
  after_epochs (before_training self h m) epochs =
    (self', Some (CallbackException e q)) ->
  q = patience self /\ 1 <= patience self <= e /\
  e <= Z.of_nat (length epochs) /\
  epoch self' = Some e /\ counter self' = Some (patience self).
Proof.
  intros Hrun.
  destruct (after_epochs_counted epochs _ _ _
              (before_training_counted self h m) _ _ _ Hrun)
    as (-> & Hp & He & Hep & Hc).
  split_and!; try done; lia.
Qed.

(** What a training run keeps when every metrics dictionary holds the
    watched metric: the model is set, the counter is not negative, and with
    [restore_best] the saved parameters are there and, while the counter is
    0, are those the model has now. *)
Lemma trained_inv (self : callback) (h : store) :
  trained self h ->
  exists m c b e,
    model self = Some m /\ counter self = Some c /\ 0 <= c /\
    best_metric self = Some b /\ epoch self = Some e /\
    (restore_best self = true ->
     exists sd, state_dict self = Some sd /\ (c = 0 -> sd = h m)).
Proof.
  induction 1 as [self h m|self h h' metrics v _ IH Hv].
  - unfold before_training. simpl.
    exists m, 0. destruct (restore_best self) eqn:Hr; simpl; rewrite ?Hr.
    + eexists _, _. split_and!; try done. intros _. by eexists.
    + eexists _, _. split_and!; try done.
  - destruct IH as (m & c & b & e & Hm & Hc & Hc0 & Hb & He & Hsd).
    unfold after_epoch. rewrite He.
    unfold _is_metric_better.
    change (_current_metric (set_epoch (Some (e + 1)) self) metrics)
      with (_current_metric self metrics).
    rewrite Hv. simpl. rewrite Hb.
    destruct (if minimize self then num_lt v b else num_lt b v).
    + destruct (restore_best self) eqn:Hr; simpl; rewrite ?Hm; simpl.
      * change (_current_metric _ metrics) with (_current_metric self metrics).
        rewrite Hv. simpl. exists m, 0. eexists _, _.
        split_and!; try done. intros _. by eexists.
      * change (_current_metric _ metrics) with (_current_metric self metrics).
        rewrite Hv. simpl. exists m, 0. eexists _, _.
        split_and!; try done. by rewrite Hr.
    + rewrite Hc. simpl.
      destruct (c + 1 =? patience self); simpl;
        exists m, (c + 1); eexists _, _; (split_and!; try done; try lia);
        intros Hr; destruct (Hsd Hr) as (sd & Hs & _); exists sd;
        (split; [done|lia]).
Qed.

(** X12. With [restore_best], [after_training] leaves the model with the
    parameters saved at the best epoch, and every other model as it is:
    it loads them when the counter is positive, and when the counter is 0
    the model still has them. This holds after any training run in which
    the metrics of every epoch hold the watched metric, when the model was
    not changed since the last call of [after_epoch]. *)
Theorem early_stopping_restores_best (self : callback) (h : store) :
  trained self h -> restore_best self = true ->
  exists m sd,
    model self = Some m /\ state_dict self = Some sd /\
    snd (after_training self h) = None /\
    fst (after_training self h) m = sd /\
    forall m', m' <> m -> fst (after_training self h) m' = h m'.
Proof.
  intros Ht Hr.
  destruct (trained_inv self h Ht)
    as (m & c & b & e & Hm & Hc & Hc0 & _ & _ & Hsd).
  destruct (Hsd Hr) as (sd & Hs & Hnow).
  exists m, sd. unfold after_training. rewrite Hr, Hc, Hm, Hs.
  destruct (Z.ltb_spec 0 c); simpl.
  - unfold load_state_dict. rewrite Nat.eqb_refl. split_and!; try done.
    intros m' Hm'. by destruct (Nat.eqb_spec m' m).
  - split_and!; try done. symmetry. apply Hnow. lia.
Qed.

Lemma sum_metrics_missing (metrics : gmap string V)
  (pre post : list string) (k : string) (acc : V) :
  Forall (fun n => is_Some (metrics !! n)) pre -> metrics !! k = None ->
  sum_metrics metrics acc (pre ++ k :: post) = inr (KeyError k).
Proof.
  intros Hpre Hk. revert acc.
  induction Hpre as [|n pre [v Hn] _ IH]; intros acc; simpl.
  - by rewrite Hk.
  - rewrite Hn. apply IH.
Qed.

(** X13. An epoch whose metrics lack a watched metric is counted and
    nothing else: [after_epoch] raises the [KeyError] of the first watched
    name that is missing, after it has advanced the epoch; the counter, the
    best metric and the saved parameters are as before. *)
Theorem early_stopping_missing_metric (self : callback) (h : store)
  (metrics : gmap string V) (e : Z) (pre post : list string) (k : string) :
  epoch self = Some e ->
  watched self = pre ++ k :: post ->
  Forall (fun n => is_Some (metrics !! n)) pre ->
  metrics !! k = None ->
  after_epoch self h metrics =
    (set_epoch (Some (e + 1)) self, Some (KeyError k)).
Proof.
  intros He Hw Hpre Hk. unfold after_epoch. rewrite He.
  unfold _is_metric_better, _current_metric. simpl.
  unfold watched in Hw. destruct (metric self) as [m|ms].
  - destruct pre as [|n pre]; simpl in Hw.
    + injection Hw as -> _. by rewrite Hk.
    + injection Hw as _ Hw. by destruct pre.
  - subst ms. by rewrite sum_metrics_missing.
Qed.
End early_stopping_facts.

Lemma early_stopping_stops_after_patience_witness :
  Forall
    (fun k =>
       snd (EarlyStopping.after_epochs started_stopper
              (take k [(flat 1, val_loss PosInf); (flat 2, val_loss PosInf)])) =
       None)
    (seq 0 2) /\
  EarlyStopping.after_epochs started_stopper
    [(flat 1, val_loss PosInf); (flat 2, val_loss PosInf)] =
  (EarlyStopping.set_counter (Some 2)
     (EarlyStopping.set_epoch (Some (0 + Z.of_nat 2)) started_stopper),
   Some (base.CallbackException (0 + Z.of_nat 2) 2)).
Proof.
  apply (early_stopping_stops_after_patience started_stopper
           [(flat 1, val_loss PosInf); (flat 2, val_loss PosInf)] 0 0).
  - reflexivity.
  - reflexivity.
  - simpl. lia.
  - simpl. lia.
  - repeat constructor.
Defined.

Lemma early_stopping_not_before_patience_witness :
  2 = EarlyStopping.patience stopper /\
  1 <= EarlyStopping.patience stopper <= 2 /\
  2 <= Z.of_nat 2 /\
  EarlyStopping.epoch
    (fst (EarlyStopping.after_epochs started_stopper
            [(flat 1, val_loss PosInf); (flat 2, val_loss PosInf)])) =
    Some 2 /\
  EarlyStopping.counter
    (fst (EarlyStopping.after_epochs started_stopper
            [(flat 1, val_loss PosInf); (flat 2, val_loss PosInf)])) =
    Some (EarlyStopping.patience stopper).
Proof.
  apply (early_stopping_not_before_patience stopper _ (flat 0) O
           [(flat 1, val_loss PosInf); (flat 2, val_loss PosInf)] 2 2).
  reflexivity.
Defined.

Lemma early_stopping_restores_best_witness :
  exists m sd,
    EarlyStopping.model
      (fst (EarlyStopping.after_epoch started_stopper (flat 1)
              (val_loss PosInf))) = Some m /\
    EarlyStopping.state_dict
      (fst (EarlyStopping.after_epoch started_stopper (flat 1)
              (val_loss PosInf))) = Some sd /\
    snd (EarlyStopping.after_training
           (fst (EarlyStopping.after_epoch started_stopper (flat 1)
                   (val_loss PosInf))) (flat 1)) = None /\
    fst (EarlyStopping.after_training
           (fst (EarlyStopping.after_epoch started_stopper (flat 1)
                   (val_loss PosInf))) (flat 1)) m = sd /\
    forall m', m' <> m ->
      fst (EarlyStopping.after_training
             (fst (EarlyStopping.after_epoch started_stopper (flat 1)
                     (val_loss PosInf))) (flat 1)) m' = flat 1 m'.
Proof.
  apply (early_stopping_restores_best
           (fst (EarlyStopping.after_epoch started_stopper (flat 1)
                   (val_loss PosInf))) (flat 1)).
  - apply (EarlyStopping.trained_epoch started_stopper (flat 0) (flat 1)
             (val_loss PosInf) PosInf).
    + apply EarlyStopping.trained_start.
    + reflexivity.
  - reflexivity.
Defined.

Lemma early_stopping_missing_metric_witness :
  EarlyStopping.after_epoch started_stopper (flat 1) ∅ =
  (EarlyStopping.set_epoch (Some (0 + 1)) started_stopper,
   Some (base.KeyError "val_loss")).
Proof.
  apply (early_stopping_missing_metric started_stopper (flat 1) ∅ 0 [] []
           "val_loss").
  - reflexivity.
  - reflexivity.
  - constructor.
  - reflexivity.
Defined.

(** ** The schedulers *)

Section parameter_scheduler_facts.
Import base ParameterScheduler.
Context {P : Type}.
Local Abbreviation scheduler := (@ParameterScheduler.t P).
Variable f : @schedule_fn P.
Variable g : P -> Z -> P.
Hypothesis Hf : forall p n, f p (Some n) = inl (g p n).

Lemma calls_per_batch (ks : list hook) :
  forall (self : scheduler) (i : Z),
    schedule self = f -> exec_after_batch self = true ->
    iterations self = Some i -> Forall in_training ks ->
    snd (calls self ks) = None /\
    iterations (fst (calls self ks)) = Some (i + Z.of_nat (batches ks)) /\
    parameter (fst (calls self ks)) =
      foldl g (parameter self) (seqZ (i + 1) (Z.of_nat (batches ks))) /\
    schedule (fst (calls self ks)) = f /\
    exec_after_batch (fst (calls self ks)) = true.
Proof.
  induction ks as [|k ks IH]; intros self i Hs Hb Hi Hall.
  { simpl. rewrite Z.add_0_r. done. }
  apply Forall_cons in Hall as [Hk Hall].
  destruct k; try done; simpl.
  - destruct (IH (before_epoch self current) i) as (H1 & H2 & H3 & H4 & H5);
      try done.
  - unfold after_batch, _update. rewrite Hi. simpl. rewrite Hb, Hs, Hf. simpl.
    match goal with |- context [calls ?s ks] =>
      destruct (IH s (i + 1)) as (H1 & H2 & H3 & H4 & H5); try done
    end.
    unfold batches in *. simpl.
    rewrite H2, H3. simpl. split_and!; try done.
    + f_equal. lia.
    + rewrite (seqZ_cons (i + 1)) by lia. simpl.
      replace (Z.succ (i + 1)) with (i + 1 + 1) by lia.
      replace (Z.pred (Z.of_nat (S (length (List.filter is_after_batch ks)))))
        with (Z.of_nat (length (List.filter is_after_batch ks))) by lia.
      done.
  - unfold after_epoch, _update. rewrite Hb. simpl.
    destruct (IH self i) as (H1 & H2 & H3 & H4 & H5); try done.
Qed.

Lemma calls_batches_per_epoch (b : nat) :
  forall (self : scheduler) (i : Z),
    exec_after_batch self = false -> iterations self = Some i ->
    calls self (replicate b AfterBatch) =
      (set_iterations (Some (i + Z.of_nat b)) self, None).
Proof.
  induction b as [|b IH]; intros self i Hb Hi.
  { simpl. rewrite Z.add_0_r. destruct self; simpl in *. by subst. }
  simpl. unfold after_batch, _update. rewrite Hi. simpl. rewrite Hb. simpl.
  rewrite (IH _ (i + 1)) by done. unfold set_iterations. simpl.
  do 3 f_equal. lia.
Qed.

Lemma scheduler_calls_app (self : scheduler) (l1 l2 : list hook) :
  calls self (l1 ++ l2) =
  match calls self l1 with
  | (self', None) => calls self' l2
  | r => r
  end.
Proof.
  revert self. induction l1 as [|k l1 IH]; intros self; simpl; [done|].
  destruct (call self k) as [self1 [err|]]; [done|apply IH].
Qed.

(** X14. A per-batch parameter scheduler counts the batches of the whole
    training, not of the epoch: after [before_training], whatever the
    epochs are, the schedule is called once per batch with the numbers
    1, 2, 3, ... of the batches (continuing across the epochs) and each
    time with the parameter it returned the time before; [before_epoch]
    and [after_epoch] change neither. *)
Theorem parameter_scheduler_per_batch (self : scheduler) (ks : list hook)
  (i : Z) :
  schedule self = f -> exec_after_batch self = true ->
  iterations self = Some i -> Forall in_training ks ->
  snd (calls self ks) = None /\
  iterations (fst (calls self ks)) = Some (i + Z.of_nat (batches ks)) /\
  read (fst (calls self ks)) =
    foldl g (read self) (seqZ (i + 1) (Z.of_nat (batches ks))).
Proof.
  intros Hs Hb Hi Hall.
  destruct (calls_per_batch ks self i Hs Hb Hi Hall) as (H1 & H2 & H3 & _).
  done.
Qed.

(** X15. A per-epoch parameter scheduler leaves the parameter alone during
    the batches of an epoch, which it still counts, and updates it once at
    the end of the epoch: the schedule gets the parameter and the number
    that [before_epoch] was given. *)
Theorem parameter_scheduler_per_epoch (self : scheduler) (current i : Z)
  (b : nat) :
  schedule self = f -> exec_after_batch self = false ->
  iterations self = Some i ->
  calls self (BeforeEpoch current :: replicate b AfterBatch ++ [AfterEpoch]) =
    (set_parameter (g (parameter self) current)
       (set_iterations (Some (i + Z.of_nat b))
          (set_epoch (Some current) self)), None).
Proof.
  intros Hs Hb Hi. simpl. rewrite scheduler_calls_app.
  rewrite (calls_batches_per_epoch b _ i) by done. simpl.
  unfold after_epoch, _update. simpl. rewrite Hb, Hs, Hf. done.
Qed.
(** X16. A whole training with a per-batch parameter scheduler, from
    [before_training] to [after_training], in whatever state the scheduler
    was before: no hook raises, the batches are numbered from 1 again, the
    parameter is the one that the schedule made of the parameter the
    scheduler had before the training, the epoch and the number of batches
    are forgotten at the end, and a further [after_batch] raises
    [TypeError] and changes nothing. *)
Theorem parameter_scheduler_training_run (self : scheduler)
  (ks : list hook) :
  schedule self = f -> exec_after_batch self = true ->
  Forall in_training ks ->
  snd (calls self (BeforeTraining :: ks ++ [AfterTraining])) = None /\
  iterations (fst (calls self (BeforeTraining :: ks ++ [AfterTraining]))) =
    None /\
  epoch (fst (calls self (BeforeTraining :: ks ++ [AfterTraining]))) = None /\
  read (fst (calls self (BeforeTraining :: ks ++ [AfterTraining]))) =
    foldl g (read self) (seqZ 1 (Z.of_nat (batches ks))) /\
  after_batch (fst (calls self (BeforeTraining :: ks ++ [AfterTraining]))) =
    (fst (calls self (BeforeTraining :: ks ++ [AfterTraining])),
     Some TypeError).
Proof.
  intros Hs Hb Hall. simpl. rewrite scheduler_calls_app.
  destruct (calls_per_batch ks (before_training self) 0)
    as (H1 & H2 & H3 & _); try done.
  destruct (calls (before_training self) ks) as [self1 err]. simpl in *.
  subst err. simpl. unfold read. rewrite H3. done.
Qed.
End parameter_scheduler_facts.

Lemma parameter_scheduler_per_batch_witness :
  snd (ParameterScheduler.calls (ParameterScheduler.before_training batch_adder)
         [base.BeforeEpoch 0; base.AfterBatch; base.AfterBatch; base.AfterEpoch;
          base.BeforeEpoch 1; base.AfterBatch; base.AfterEpoch]) = None /\
  ParameterScheduler.iterations
    (fst (ParameterScheduler.calls
            (ParameterScheduler.before_training batch_adder)
            [base.BeforeEpoch 0; base.AfterBatch; base.AfterBatch;
             base.AfterEpoch; base.BeforeEpoch 1; base.AfterBatch;
             base.AfterEpoch])) =
    Some (0 + Z.of_nat
                (base.batches
                   [base.BeforeEpoch 0; base.AfterBatch; base.AfterBatch;
                    base.AfterEpoch; base.BeforeEpoch 1; base.AfterBatch;
                    base.AfterEpoch])) /\
  ParameterScheduler.read
    (fst (ParameterScheduler.calls
            (ParameterScheduler.before_training batch_adder)
            [base.BeforeEpoch 0; base.AfterBatch; base.AfterBatch;
             base.AfterEpoch; base.BeforeEpoch 1; base.AfterBatch;
             base.AfterEpoch])) =
    foldl added
      (ParameterScheduler.read (ParameterScheduler.before_training batch_adder))
      (seqZ (0 + 1)
         (Z.of_nat
            (base.batches
               [base.BeforeEpoch 0; base.AfterBatch; base.AfterBatch;
                base.AfterEpoch; base.BeforeEpoch 1; base.AfterBatch;
                base.AfterEpoch]))).
Proof.
  apply (parameter_scheduler_per_batch add_step added).
  - reflexivity.
  - reflexivity.
  - reflexivity.
  - reflexivity.
  - repeat constructor.
Defined.

Lemma parameter_scheduler_per_epoch_witness :
  ParameterScheduler.calls (ParameterScheduler.before_training epoch_adder)
    (base.BeforeEpoch 3 :: replicate 2 base.AfterBatch ++ [base.AfterEpoch]) =
  (ParameterScheduler.set_parameter
     (added
        (ParameterScheduler.parameter
           (ParameterScheduler.before_training epoch_adder)) 3)
     (ParameterScheduler.set_iterations (Some (0 + Z.of_nat 2))
        (ParameterScheduler.set_epoch (Some 3)
           (ParameterScheduler.before_training epoch_adder))), None).
Proof.
  apply (parameter_scheduler_per_epoch add_step added).
  - reflexivity.
  - reflexivity.
  - reflexivity.
  - reflexivity.
Defined.

Lemma parameter_scheduler_training_run_witness :
  snd (ParameterScheduler.calls batch_adder
         (base.BeforeTraining ::
          [base.BeforeEpoch 0; base.AfterBatch; base.AfterBatch;
           base.AfterEpoch] ++ [base.AfterTraining])) = None /\
  ParameterScheduler.iterations
    (fst (ParameterScheduler.calls batch_adder
            (base.BeforeTraining ::
             [base.BeforeEpoch 0; base.AfterBatch; base.AfterBatch;
              base.AfterEpoch] ++ [base.AfterTraining]))) = None /\
  ParameterScheduler.epoch
    (fst (ParameterScheduler.calls batch_adder
            (base.BeforeTraining ::
             [base.BeforeEpoch 0; base.AfterBatch; base.AfterBatch;
              base.AfterEpoch] ++ [base.AfterTraining]))) = None /\
  ParameterScheduler.read
    (fst (ParameterScheduler.calls batch_adder
            (base.BeforeTraining ::
             [base.BeforeEpoch 0; base.AfterBatch; base.AfterBatch;
              base.AfterEpoch] ++ [base.AfterTraining]))) =
    foldl added (ParameterScheduler.read batch_adder)
      (seqZ 1
         (Z.of_nat
            (base.batches
               [base.BeforeEpoch 0; base.AfterBatch; base.AfterBatch;
                base.AfterEpoch]))) /\
  ParameterScheduler.after_batch
    (fst (ParameterScheduler.calls batch_adder
            (base.BeforeTraining ::
             [base.BeforeEpoch 0; base.AfterBatch; base.AfterBatch;
              base.AfterEpoch] ++ [base.AfterTraining]))) =
    (fst (ParameterScheduler.calls batch_adder
            (base.BeforeTraining ::
             [base.BeforeEpoch 0; base.AfterBatch; base.AfterBatch;
              base.AfterEpoch] ++ [base.AfterTraining])),
     Some base.TypeError).
Proof.
  apply (parameter_scheduler_training_run add_step added).
  - reflexivity.
  - reflexivity.
  - reflexivity.
  - repeat constructor.
Defined.

(** X17. The hook [after_batch] of a parameter scheduler works only during
    a training: on a new scheduler, and again after [after_training], it
    raises [TypeError] and changes nothing, in the per-epoch mode as well
    as in the per-batch mode. [after_training] forgets the epoch and the
    number of batches but keeps the parameter as the schedule left it. *)
Theorem parameter_scheduler_outside_training {P : Type}
  (self : @ParameterScheduler.t P) (parameter : P)
  (schedule : @ParameterScheduler.schedule_fn P) (after_batch : bool) :
  ParameterScheduler.after_batch
    (ParameterScheduler.__init__ parameter schedule after_batch) =
    (ParameterScheduler.__init__ parameter schedule after_batch,
     Some base.TypeError) /\
  ParameterScheduler.after_batch (ParameterScheduler.after_training self) =
    (ParameterScheduler.after_training self, Some base.TypeError) /\
  ParameterScheduler.read (ParameterScheduler.after_training self) =
    ParameterScheduler.read self /\
  ParameterScheduler.iterations
    (ParameterScheduler.before_training
       (ParameterScheduler.after_training self)) = Some 0.
Proof. done. Qed.

(** X18. A learning rate scheduler steps the PyTorch scheduler in exactly
    one of its two hooks: over any sequence of hooks, the scheduler has
    been stepped once per [after_batch] if it was made with [after_batch]
    set, once per [after_epoch] otherwise, and never by another hook. *)
Theorem learning_rate_scheduler_steps {T : Type} (step : T -> T)
  (self : @LearningRateScheduler.t T) (ks : list base.hook) :
  LearningRateScheduler.scheduler (LearningRateScheduler.calls step self ks) =
    Nat.iter
      (length
         (List.filter
            (if LearningRateScheduler.exec_after_batch self
             then base.is_after_batch else base.is_after_epoch) ks))
      step (LearningRateScheduler.scheduler self) /\
  LearningRateScheduler.exec_after_batch
    (LearningRateScheduler.calls step self ks) =
    LearningRateScheduler.exec_after_batch self.
Proof.
  unfold LearningRateScheduler.calls. revert self.
  induction ks as [|k ks IH]; intros self; [done|]. simpl.
  destruct (IH (LearningRateScheduler.call step self k)) as [IH1 IH2].
  rewrite IH1, IH2.
  assert (forall n (x : T), Nat.iter n step (step x) = step (Nat.iter n step x))
    as Hiter by (induction n; intros; simpl; congruence).
  unfold LearningRateScheduler.call, LearningRateScheduler.after_batch,
    LearningRateScheduler.after_epoch.
  destruct k, (LearningRateScheduler.exec_after_batch self) eqn:Hb; simpl;
    rewrite ?Hb; simpl; rewrite ?Hiter; done.
Qed.
